(** * UPS-Monitor: a shallow embedding of the Tauri back end (src-tauri/src/lib.rs)

    Unsigned 64-bit integers are modelled as [N] with their bounds and
    saturation written out; floating point values as the primitive binary64
    floats of the Standard Library; strings as [String.string]. *)

From Stdlib Require Import NArith ZArith Lia List String Ascii Bool.
From Stdlib Require Import Floats.
From Stdlib Require Import Reals Lra.
Import ListNotations.
Open Scope N_scope.

(** ** Settings (structs [AlertConfig] ... [AppSettings]) *)
Module Settings.

Record AlertConfig := mkAlertConfig {
  play_sound : bool;
  show_popup : bool;
  sound_repeats : N;
}.

Record ShutdownOnAcFault := mkShutdownOnAcFault {
  ac_enabled : bool;
  delay_minutes : N;
}.

(** [ShutdownToggle { enabled }] *)
Definition ShutdownToggle := bool.

Record ShutdownPCSettings := mkShutdownPCSettings {
  on_ac_fault : ShutdownOnAcFault;
  on_battery_low : ShutdownToggle;
  on_battery_critical : ShutdownToggle;
  auto_save_files : bool;
  shutdown_command : string;
  action : string;
}.

Record UpsControlSettings := mkUpsControlSettings {
  shutdown_ups_after_pc : bool;
  ups_shutdown_delay : N;
}.

Record AlertSettings := mkAlertSettings {
  ac_fault : AlertConfig;
  battery_low : AlertConfig;
  battery_critical : AlertConfig;
}.

Record AppSettings := mkAppSettings {
  start_with_windows : bool;
  start_minimized : bool;
  monitor_only_mode : bool;
  polling_interval : N;
  enable_notifications : bool;
  alerts : AlertSettings;
  shutdown_pc : ShutdownPCSettings;
  ups_control : UpsControlSettings;
  save_history : bool;
  history_interval : N;
  low_battery_threshold : N;
  critical_battery_threshold : N;
  custom_sounds_path : option string;
}.

(** [impl Default for AppSettings] *)
Definition default_settings : AppSettings :=
  {| start_with_windows := false;
     start_minimized := false;
     monitor_only_mode := false;
     polling_interval := 1000;
     enable_notifications := true;
     alerts := {| ac_fault := mkAlertConfig true true 3;
                  battery_low := mkAlertConfig true true 5;
                  battery_critical := mkAlertConfig true true 10 |};
     shutdown_pc := {| on_ac_fault := mkShutdownOnAcFault true 18;
                       on_battery_low := false;
                       on_battery_critical := true;
                       auto_save_files := true;
                       shutdown_command := EmptyString;
                       action := "shutdown" |};
     ups_control := mkUpsControlSettings true 2;
     save_history := true;
     history_interval := 300;
     low_battery_threshold := 20;
     critical_battery_threshold := 10;
     custom_sounds_path := None |}.

(** [fn clamp_u64(value, min, max, fallback)] *)
Definition clamp_u64 (value min max fallback : N) : N :=
  if value =? 0 then fallback else N.min (N.max value min) max.

(** [fn apply_monitor_only_defaults(&mut self)]: every assignment of the
    method, applied to the corresponding field. *)
Definition apply_monitor_only_defaults (s : AppSettings) : AppSettings :=
  let a := alerts s in
  let silence c := mkAlertConfig false false (sound_repeats c) in
  let p := shutdown_pc s in
  {| start_with_windows := start_with_windows s;
     start_minimized := start_minimized s;
     monitor_only_mode := monitor_only_mode s;
     polling_interval := polling_interval s;
     enable_notifications := false;
     alerts := {| ac_fault := silence (ac_fault a);
                  battery_low := silence (battery_low a);
                  battery_critical := silence (battery_critical a) |};
     shutdown_pc := {| on_ac_fault := mkShutdownOnAcFault false (delay_minutes (on_ac_fault p));
                       on_battery_low := false;
                       on_battery_critical := false;
                       auto_save_files := false;
                       shutdown_command := EmptyString;
                       action := action p |};
     ups_control := mkUpsControlSettings false (ups_shutdown_delay (ups_control s));
     save_history := false;
     history_interval := history_interval s;
     low_battery_threshold := low_battery_threshold s;
     critical_battery_threshold := critical_battery_threshold s;
     custom_sounds_path := custom_sounds_path s |}.

(** [fn normalize(mut self) -> Self] *)
Definition normalize (s : AppSettings) : AppSettings :=
  let low := clamp_u64 (low_battery_threshold s) 5 50 20 in
  let a := alerts s in
  let p := shutdown_pc s in
  let repeats c n := mkAlertConfig (play_sound c) (show_popup c)
                                   (clamp_u64 (sound_repeats c) 1 30 n) in
  let act := if negb (String.eqb (action p) "shutdown")
                && negb (String.eqb (action p) "sleep")
             then "shutdown"%string else action p in
  let s' :=
    {| start_with_windows := start_with_windows s;
       start_minimized := start_minimized s;
       monitor_only_mode := monitor_only_mode s;
       polling_interval := clamp_u64 (polling_interval s) 500 10000 1000;
       enable_notifications := enable_notifications s;
       alerts := {| ac_fault := repeats (ac_fault a) 3;
                    battery_low := repeats (battery_low a) 5;
                    battery_critical := repeats (battery_critical a) 10 |};
       shutdown_pc := {| on_ac_fault :=
                           mkShutdownOnAcFault (ac_enabled (on_ac_fault p))
                             (clamp_u64 (delay_minutes (on_ac_fault p)) 1 60 18);
                         on_battery_low := on_battery_low p;
                         on_battery_critical := on_battery_critical p;
                         auto_save_files := auto_save_files p;
                         shutdown_command := shutdown_command p;
                         action := act |};
       ups_control := mkUpsControlSettings (shutdown_ups_after_pc (ups_control s))
                        (clamp_u64 (ups_shutdown_delay (ups_control s)) 1 10 2);
       save_history := save_history s;
       history_interval := clamp_u64 (history_interval s) 60 3600 300;
       low_battery_threshold := low;
       critical_battery_threshold :=
         N.min (clamp_u64 (critical_battery_threshold s) 5 30 10) low;
       custom_sounds_path := custom_sounds_path s |} in
  if monitor_only_mode s' then apply_monitor_only_defaults s' else s'.

End Settings.

(** ** Device data (structs [UpsStatusFlags], [UpsData], [DataHistoryEntry],
    enum [DecodedPacket]) *)
Module Types.

Record UpsStatusFlags := mkUpsStatusFlags {
  raw : string;
  utility_fail : bool;
  battery_low : bool;
  bypass_active : bool;
  ups_failed : bool;
  ups_is_standby : bool;
  test_in_progress : bool;
  shutdown_active : bool;
  beeper_on : bool;
}.

Record UpsData := mkUpsData {
  type_ : string;
  input_voltage : float;
  fault_voltage : float;
  output_voltage : float;
  load_percent : N;
  frequency : float;
  battery_voltage : float;
  temperature : float;
  battery_percent : N;
  estimated_runtime : N;
  timestamp : string;
  status : UpsStatusFlags;
}.

Inductive DecodedPacket :=
| Version (firmware : string)
| Status (s : UpsData).

Record DataHistoryEntry := mkDataHistoryEntry {
  d_id : N;
  d_time : string;
  d_input_voltage : float;
  d_output_voltage : float;
  d_frequency : float;
  d_load_percent : N;
  d_battery_voltage : float;
  d_battery_percent : N;
  d_temperature : float;
}.

(** [struct HistoryEvent] *)
Record HistoryEvent := mkHistoryEvent {
  id : N;
  time : string;
  classification : string;
  name : string;
  remarks : string;
}.

Inductive AlertKind := AcFault | BatteryLow | BatteryCritical.

(** [AlertKind::event_name] and [AlertKind::alert_type] *)
Definition event_name (k : AlertKind) : string :=
  match k with
  | AcFault => "Fallo de energia"
  | BatteryLow => "Bateria baja"
  | BatteryCritical => "Bateria critica"
  end.

Definition alert_type (k : AlertKind) : string :=
  match k with
  | AcFault => "warning"
  | BatteryLow => "battery"
  | BatteryCritical => "critical"
  end.

Definition u64_max : N := 2 ^ 64 - 1.

(** [u64::saturating_add], [u64::saturating_sub], [u64::saturating_mul] and
    the wrapping [AtomicU64::fetch_add]. *)
Definition sat_add (a b : N) : N := N.min (a + b) u64_max.
Definition sat_sub (a b : N) : N := a - b.
Definition sat_mul (a b : N) : N := N.min (a * b) u64_max.
Definition wrap_add (a b : N) : N := (a + b) mod 2 ^ 64.

(** [Vec::truncate] *)
Definition truncate {A} (n : N) (l : list A) : list A := firstn (N.to_nat n) l.

End Types.

(** ** Shared state ([struct AppState]) and the operations on it *)
Module Monitor.
Import Settings Types.

Definition MAX_EVENTS : N := 1000.
Definition MAX_DATA_POINTS : N := 5000.
Definition BATTERY_LOW_SHUTDOWN_DELAY_MINUTES : N := 5.
Definition BATTERY_CRITICAL_SHUTDOWN_DELAY_MINUTES : N := 1.

(** What the back end does outside its own state: Tauri events, desktop
    notifications, popups, sound threads, spawned processes, file writes. *)
Inductive Effect :=
| Emit (event : string)
| Notify (title : string)
| UrgentAlert (title alert_type : string)
| ForcePopup (title alert_type : string)
| PlaySound (kind : AlertKind) (repeats : N)
| Spawn (program : string) (args : list string)
| SaveEvents (written : list HistoryEvent)
| SaveDataHistory.

(** The world a call observes: [now_millis()], [now_iso()] (the wall clock
    rendered by chrono), whether the main window is visible and focused, and
    the outcome of [Command::spawn] ([Some err] when it fails). *)
Record Env := mkEnv {
  now_ms : N;
  now_text : string;
  window_visible_focused : bool;
  spawn_error : string -> list string -> option string;
}.

(** The fields of [AppState] read or written by the monitor, plus the
    sequence of effects performed so far. *)
#[projections(primitive)]
Record AppState := mkAppState {
  settings : AppSettings;
  events : list HistoryEvent;
  data_history : list DataHistoryEntry;
  last_status : option UpsData;
  is_on_battery : bool;
  was_battery_low : bool;
  was_battery_critical : bool;
  battery_start_ms : option N;
  last_data_save_ms : N;
  scheduled_shutdown_at_ms : option N;
  scheduled_shutdown_reason : option string;
  last_error : option string;
  sound_generation : N;
  last_forced_popup_ms : N;
  trace : list Effect;
}.

Definition set_events v s := mkAppState (settings s) v (data_history s) (last_status s) (is_on_battery s) (was_battery_low s) (was_battery_critical s) (battery_start_ms s) (last_data_save_ms s) (scheduled_shutdown_at_ms s) (scheduled_shutdown_reason s) (last_error s) (sound_generation s) (last_forced_popup_ms s) (trace s).
Definition set_data_history v s := mkAppState (settings s) (events s) v (last_status s) (is_on_battery s) (was_battery_low s) (was_battery_critical s) (battery_start_ms s) (last_data_save_ms s) (scheduled_shutdown_at_ms s) (scheduled_shutdown_reason s) (last_error s) (sound_generation s) (last_forced_popup_ms s) (trace s).
Definition set_last_status v s := mkAppState (settings s) (events s) (data_history s) v (is_on_battery s) (was_battery_low s) (was_battery_critical s) (battery_start_ms s) (last_data_save_ms s) (scheduled_shutdown_at_ms s) (scheduled_shutdown_reason s) (last_error s) (sound_generation s) (last_forced_popup_ms s) (trace s).
Definition set_is_on_battery v s := mkAppState (settings s) (events s) (data_history s) (last_status s) v (was_battery_low s) (was_battery_critical s) (battery_start_ms s) (last_data_save_ms s) (scheduled_shutdown_at_ms s) (scheduled_shutdown_reason s) (last_error s) (sound_generation s) (last_forced_popup_ms s) (trace s).
Definition set_was_battery_low v s := mkAppState (settings s) (events s) (data_history s) (last_status s) (is_on_battery s) v (was_battery_critical s) (battery_start_ms s) (last_data_save_ms s) (scheduled_shutdown_at_ms s) (scheduled_shutdown_reason s) (last_error s) (sound_generation s) (last_forced_popup_ms s) (trace s).
Definition set_was_battery_critical v s := mkAppState (settings s) (events s) (data_history s) (last_status s) (is_on_battery s) (was_battery_low s) v (battery_start_ms s) (last_data_save_ms s) (scheduled_shutdown_at_ms s) (scheduled_shutdown_reason s) (last_error s) (sound_generation s) (last_forced_popup_ms s) (trace s).
Definition set_battery_start_ms v s := mkAppState (settings s) (events s) (data_history s) (last_status s) (is_on_battery s) (was_battery_low s) (was_battery_critical s) v (last_data_save_ms s) (scheduled_shutdown_at_ms s) (scheduled_shutdown_reason s) (last_error s) (sound_generation s) (last_forced_popup_ms s) (trace s).
Definition set_last_data_save_ms v s := mkAppState (settings s) (events s) (data_history s) (last_status s) (is_on_battery s) (was_battery_low s) (was_battery_critical s) (battery_start_ms s) v (scheduled_shutdown_at_ms s) (scheduled_shutdown_reason s) (last_error s) (sound_generation s) (last_forced_popup_ms s) (trace s).
Definition set_scheduled_shutdown_at_ms v s := mkAppState (settings s) (events s) (data_history s) (last_status s) (is_on_battery s) (was_battery_low s) (was_battery_critical s) (battery_start_ms s) (last_data_save_ms s) v (scheduled_shutdown_reason s) (last_error s) (sound_generation s) (last_forced_popup_ms s) (trace s).
Definition set_scheduled_shutdown_reason v s := mkAppState (settings s) (events s) (data_history s) (last_status s) (is_on_battery s) (was_battery_low s) (was_battery_critical s) (battery_start_ms s) (last_data_save_ms s) (scheduled_shutdown_at_ms s) v (last_error s) (sound_generation s) (last_forced_popup_ms s) (trace s).
Definition set_last_error v s := mkAppState (settings s) (events s) (data_history s) (last_status s) (is_on_battery s) (was_battery_low s) (was_battery_critical s) (battery_start_ms s) (last_data_save_ms s) (scheduled_shutdown_at_ms s) (scheduled_shutdown_reason s) v (sound_generation s) (last_forced_popup_ms s) (trace s).
Definition set_sound_generation v s := mkAppState (settings s) (events s) (data_history s) (last_status s) (is_on_battery s) (was_battery_low s) (was_battery_critical s) (battery_start_ms s) (last_data_save_ms s) (scheduled_shutdown_at_ms s) (scheduled_shutdown_reason s) (last_error s) v (last_forced_popup_ms s) (trace s).
Definition set_last_forced_popup_ms v s := mkAppState (settings s) (events s) (data_history s) (last_status s) (is_on_battery s) (was_battery_low s) (was_battery_critical s) (battery_start_ms s) (last_data_save_ms s) (scheduled_shutdown_at_ms s) (scheduled_shutdown_reason s) (last_error s) (sound_generation s) v (trace s).
Definition set_trace v s := mkAppState (settings s) (events s) (data_history s) (last_status s) (is_on_battery s) (was_battery_low s) (was_battery_critical s) (battery_start_ms s) (last_data_save_ms s) (scheduled_shutdown_at_ms s) (scheduled_shutdown_reason s) (last_error s) (sound_generation s) (last_forced_popup_ms s) v.

(** A reader-state monad: each operation reads the environment of the call
    and threads the shared state (the mutexes of [AppState]). *)
Definition M (A : Type) := Env -> AppState -> A * AppState.

Definition ret {A} (a : A) : M A := fun _ s => (a, s).
Definition bind {A B} (m : M A) (k : A -> M B) : M B :=
  fun e s => let '(a, s') := m e s in k a e s'.
Definition get : M AppState := fun _ s => (s, s).
Definition modify (f : AppState -> AppState) : M unit := fun _ s => (tt, f s).
Definition ask : M Env := fun e s => (e, s).

Notation "x <- m ;; k" := (bind m (fun x => k))
  (at level 61, m at next level, right associativity).
Notation "m ;; k" := (bind m (fun _ => k)) (at level 61, right associativity).

Definition perform (eff : Effect) : M unit :=
  modify (fun s => set_trace (trace s ++ [eff]) s).

(** [emit_if_possible(app, event, payload)] *)
Definition emit_if_possible (event : string) : M unit := perform (Emit event).

(** [fn log_event(&self, classification, name, remarks)] *)
Definition log_event (cls nm rm : string) : M unit :=
  s <- get ;;
  if monitor_only_mode (settings s) then ret tt else
  e <- ask ;;
  modify (fun s => set_events
    (truncate MAX_EVENTS (mkHistoryEvent (now_ms e) (now_text e) cls nm rm :: events s)) s) ;;
  s' <- get ;;
  perform (SaveEvents (events s')).

(** [fn emit_error_once(app, state, message)] *)
Definition emit_error_once (message : string) : M unit :=
  s <- get ;;
  match last_error s with
  | Some m => if String.eqb m message then ret tt else
      modify (set_last_error (Some message)) ;; emit_if_possible "ups-error"
  | None => modify (set_last_error (Some message)) ;; emit_if_possible "ups-error"
  end.

(** [fn cancel_scheduled_shutdown(state, app, emit_event) -> bool] *)
Definition cancel_scheduled_shutdown (emit_event : bool) : M bool :=
  s <- get ;;
  let had_schedule := match scheduled_shutdown_at_ms s with Some _ => true | None => false end in
  modify (set_scheduled_shutdown_at_ms None) ;;
  modify (set_scheduled_shutdown_reason None) ;;
  (if had_schedule && emit_event then emit_if_possible "shutdown-cancelled" else ret tt) ;;
  ret had_schedule.

(** [fn schedule_shutdown_after_minutes(state, app, delay_minutes, reason) -> bool] *)
Definition schedule_shutdown_after_minutes (delay_minutes : N) (reason : string) : M bool :=
  e <- ask ;;
  let safe_minutes := N.min (N.max delay_minutes 1) 120 in
  let target_ms := sat_add (now_ms e) (safe_minutes * 60 * 1000) in
  s <- get ;;
  let should_replace :=
    match scheduled_shutdown_at_ms s with
    | Some existing => target_ms <? existing
    | None => true
    end in
  if negb should_replace then ret true else
  modify (set_scheduled_shutdown_at_ms (Some target_ms)) ;;
  modify (set_scheduled_shutdown_reason (Some reason)) ;;
  emit_if_possible "shutdown-scheduled" ;;
  ret true.

(** [fn should_force_popup(app, state) -> bool] *)
Definition should_force_popup : M bool :=
  e <- ask ;;
  s <- get ;;
  if sat_sub (now_ms e) (last_forced_popup_ms s) <? 6000 then ret false else
  if window_visible_focused e then ret false else
  modify (set_last_forced_popup_ms (now_ms e)) ;;
  ret true.

(** [fn play_sound_with_generation(state, sound_path, repeats) -> bool]: the
    generation bump and the start of the sound thread (its file, resolved by
    [resolve_sound_path], is identified by the alert kind). *)
Definition play_sound_with_generation (kind : AlertKind) (repeats : N) : M bool :=
  s <- get ;;
  modify (set_sound_generation (wrap_add (sound_generation s) 1)) ;;
  perform (PlaySound kind (N.min (N.max repeats 1) 30)) ;;
  ret true.

(** [fn alert_config_for_kind(settings, kind)] *)
Definition alert_config_for_kind (st : AppSettings) (k : AlertKind) : AlertConfig :=
  match k with
  | AcFault => ac_fault (alerts st)
  | BatteryLow => Settings.battery_low (alerts st)
  | BatteryCritical => battery_critical (alerts st)
  end.

(** [fn handle_alert_transition(app, state, settings, kind, status)]; the
    body text of the notification is not modelled, only its title. *)
Definition handle_alert_transition (st : AppSettings) (kind : AlertKind) (status : UpsData) : M unit :=
  if monitor_only_mode st then ret tt else
  let config := alert_config_for_kind st kind in
  let title := event_name kind in
  (if enable_notifications st && show_popup config then perform (Notify title) else ret tt) ;;
  (if show_popup config then
     perform (UrgentAlert title (alert_type kind)) ;;
     b <- should_force_popup ;;
     (if b then perform (ForcePopup title (alert_type kind)) else ret tt)
   else ret tt) ;;
  (if play_sound config then
     _ <- play_sound_with_generation kind (sound_repeats config) ;; ret tt
   else ret tt) ;;
  match kind with
  | AcFault =>
      if ac_enabled (on_ac_fault (shutdown_pc st)) then
        _ <- schedule_shutdown_after_minutes (delay_minutes (on_ac_fault (shutdown_pc st))) "ac-fault" ;;
        ret tt
      else ret tt
  | BatteryLow =>
      if on_battery_low (shutdown_pc st) then
        _ <- schedule_shutdown_after_minutes BATTERY_LOW_SHUTDOWN_DELAY_MINUTES "battery-low" ;;
        ret tt
      else ret tt
  | BatteryCritical =>
      if on_battery_critical (shutdown_pc st) then
        _ <- schedule_shutdown_after_minutes BATTERY_CRITICAL_SHUTDOWN_DELAY_MINUTES "battery-critical" ;;
        ret tt
      else ret tt
  end.

(** [str::trim] on the whitespace characters a [String] of ASCII can hold. *)
Definition is_whitespace (c : ascii) : bool :=
  let n := N_of_ascii c in (n =? 32) || ((9 <=? n) && (n <=? 13)).

Fixpoint trim_start (str : string) : string :=
  match str with
  | String c rest => if is_whitespace c then trim_start rest else str
  | EmptyString => EmptyString
  end.

Definition rev_string (str : string) : string :=
  string_of_list_ascii (rev (list_ascii_of_string str)).

Definition trim (str : string) : string :=
  rev_string (trim_start (rev_string (trim_start str))).

(** [Command::new(program).args(args).spawn()]: the attempt and its outcome. *)
Definition spawn (program : string) (args : list string) : M (option string) :=
  perform (Spawn program args) ;;
  e <- ask ;;
  ret (spawn_error e program args).

(** [fn execute_shutdown_command(settings) -> Result<(), String>], with
    [None] for [Ok(())] and [Some msg] for [Err(msg)]. *)
Definition execute_shutdown_command (st : AppSettings) : M (option string) :=
  let custom_command := trim (shutdown_command (shutdown_pc st)) in
  if negb (String.eqb custom_command EmptyString) then
    r <- spawn "cmd" ["/C"; custom_command]%string ;;
    ret (option_map (fun err => "No se pudo ejecutar comando personalizado: " ++ err)%string r)
  else if String.eqb (action (shutdown_pc st)) "sleep" then
    r <- spawn "rundll32.exe" ["powrprof.dll,SetSuspendState"; "0,1,0"]%string ;;
    ret (option_map (fun err => "No se pudo ejecutar suspension: " ++ err)%string r)
  else
    r <- spawn "shutdown" ["/s"; "/t"; "0"; "/f"]%string ;;
    ret (option_map (fun err => "No se pudo ejecutar apagado: " ++ err)%string r).

(** [fn process_pending_shutdown(app, state, settings)] *)
Definition process_pending_shutdown (st : AppSettings) : M unit :=
  if monitor_only_mode st then ret tt else
  e <- ask ;;
  s <- get ;;
  let is_due := match scheduled_shutdown_at_ms s with
                | Some ts => ts <=? now_ms e
                | None => false
                end in
  if negb is_due then ret tt else
  let reason := match scheduled_shutdown_reason s with
                | Some r => r
                | None => "shutdown-scheduled"%string
                end in
  _ <- cancel_scheduled_shutdown false ;;
  let title := "Apagado de seguridad"%string in
  perform (Notify title) ;;
  b <- should_force_popup ;;
  (if b then perform (ForcePopup title "critical") else ret tt) ;;
  perform (UrgentAlert title "critical") ;;
  log_event "Critical Event" "Shutdown execution" reason ;;
  r <- execute_shutdown_command st ;;
  match r with
  | Some error => emit_error_once error
  | None => ret tt
  end.

(** [fn log_data_point_if_needed(&self, status)] *)
Definition log_data_point_if_needed (status : UpsData) : M unit :=
  s <- get ;;
  let st := settings s in
  if negb (save_history st) then ret tt else
  e <- ask ;;
  let now := now_ms e in
  if sat_sub now (last_data_save_ms s) <? sat_mul (history_interval st) 1000 then ret tt else
  modify (set_last_data_save_ms now) ;;
  let entry := mkDataHistoryEntry now (now_text e) (input_voltage status)
                 (output_voltage status) (frequency status) (load_percent status)
                 (battery_voltage status) (battery_percent status) (temperature status) in
  modify (fun s => set_data_history (truncate MAX_DATA_POINTS (entry :: data_history s)) s) ;;
  perform SaveDataHistory.

(** [fn handle_status_packet(app, state, status)].  Every [now_millis()] of
    one call reads the same instant [now_ms] of the environment. *)
Definition handle_status_packet (status : UpsData) : M unit :=
  s0 <- get ;;
  let st := settings s0 in
  let was_on_battery := is_on_battery s0 in
  let is_on_battery := utility_fail (Types.status status) in
  e <- ask ;;
  let ac_fault_triggered := is_on_battery && negb was_on_battery in
  (if ac_fault_triggered then
     modify (set_battery_start_ms (Some (now_ms e))) ;;
     log_event "Critical Event" "AC Fault" "AC Fault"
   else ret tt) ;;
  (if negb is_on_battery && was_on_battery then
     modify (set_battery_start_ms None) ;;
     modify (set_was_battery_low false) ;;
     modify (set_was_battery_critical false) ;;
     log_event "General Event" "Normal AC value" "Normal AC value" ;;
     _ <- cancel_scheduled_shutdown true ;;
     modify (fun s => set_sound_generation (wrap_add (sound_generation s) 1) s)
   else ret tt) ;;
  let is_low_battery :=
    is_on_battery && (Types.battery_low (Types.status status)
                      || (battery_percent status <=? low_battery_threshold st)) in
  let is_critical_battery :=
    is_on_battery && (battery_percent status <=? critical_battery_threshold st) in
  battery_low_triggered <-
    (s <- get ;;
     let triggered := is_low_battery && negb is_critical_battery && negb (was_battery_low s) in
     (if triggered then
        log_event "Critical Event" "Battery Low" "Battery Low" ;;
        modify (set_was_battery_low true)
      else ret tt) ;;
     (if negb is_low_battery then modify (set_was_battery_low false) else ret tt) ;;
     ret triggered) ;;
  battery_critical_triggered <-
    (s <- get ;;
     let triggered := is_critical_battery && negb (was_battery_critical s) in
     (if triggered then
        log_event "Critical Event" "Battery Critical" "Battery Critical" ;;
        modify (set_was_battery_critical true)
      else ret tt) ;;
     (if negb is_critical_battery then modify (set_was_battery_critical false) else ret tt) ;;
     ret triggered) ;;
  (if ac_fault_triggered then handle_alert_transition st AcFault status else ret tt) ;;
  (if battery_low_triggered then handle_alert_transition st BatteryLow status else ret tt) ;;
  (if battery_critical_triggered then handle_alert_transition st BatteryCritical status else ret tt) ;;
  process_pending_shutdown st ;;
  modify (set_is_on_battery is_on_battery) ;;
  modify (set_last_status (Some status)) ;;
  log_data_point_if_needed status ;;
  emit_if_possible "ups-data".

(** [#[tauri::command] fn trigger_shutdown(app, state, minutes) -> bool] *)
Definition trigger_shutdown (minutes : N) : M bool :=
  s <- get ;;
  if monitor_only_mode (settings s) then ret false else
  schedule_shutdown_after_minutes minutes "manual-trigger".

(** [#[tauri::command] fn cancel_shutdown(app, state) -> bool] *)
Definition cancel_shutdown : M bool := cancel_scheduled_shutdown true.

End Monitor.

(** ** Binary64 conversions of the Rust standard library used by the decoder *)
Module F64.
Import Types.

Definition of_spec (x : spec_float) : float := SF2Prim x.

(** [n as f64] for a [u64]: rounding to nearest, ties to even. *)
Definition of_u64 (n : N) : float :=
  of_spec (binary_normalize FloatOps.prec FloatOps.emax (Z.of_N n) 0 false).

(** [f64::round]: to the nearest integer, halfway cases away from zero;
    zeros, infinities and NaN are returned unchanged. *)
Definition round (x : float) : float :=
  match Prim2SF x with
  | S754_finite s m e =>
      if (0 <=? e)%Z then x else
      let d := (2 ^ (- e))%Z in
      let q := (Z.pos m / d)%Z in
      let r := (Z.pos m mod d)%Z in
      let q' := if (d <=? 2 * r)%Z then (q + 1)%Z else q in
      of_spec (binary_normalize FloatOps.prec FloatOps.emax
                 (if s then Z.opp q' else q') 0 s)
  | _ => x
  end.

(** [x as u64]: truncation toward zero, saturating at both ends, NaN to 0. *)
Definition to_u64 (x : float) : N :=
  match Prim2SF x with
  | S754_finite false m e =>
      if (0 <=? e)%Z then N.min (Z.to_N (Z.pos m * 2 ^ e)) u64_max
      else Z.to_N (Z.pos m / 2 ^ (- e))
  | S754_infinity false => u64_max
  | _ => 0
  end.

(** [f64::clamp(self, min, max)] *)
Definition clamp (x lo hi : float) : float :=
  let x := if (x <? lo)%float then lo else x in
  if (hi <? x)%float then hi else x.

(** [str::parse::<f64>]: an optional sign, then [inf], [infinity] or [nan]
    in any case, or a decimal [Digit* [. Digit*] [(e|E) [+|-] Digit+]] with
    at least one mantissa digit; the value rounded to nearest, ties to even. *)
Definition digit_value (c : ascii) : option N :=
  let n := N_of_ascii c in
  if (48 <=? n) && (n <=? 57) then Some (n - 48) else None.

(** The leading run of decimal digits: its value, its length, the rest. *)
Fixpoint digits (acc len : N) (str : string) : N * N * string :=
  match str with
  | String c rest =>
      match digit_value c with
      | Some d => digits (acc * 10 + d) (len + 1) rest
      | None => (acc, len, str)
      end
  | EmptyString => (acc, len, str)
  end.

Definition lower (c : ascii) : ascii :=
  let n := N_of_ascii c in
  if (65 <=? n) && (n <=? 90) then ascii_of_N (n + 32) else c.

Definition lowercase (str : string) : string :=
  string_of_list_ascii (map lower (list_ascii_of_string str)).

(** The exact rational [m * 10^e10] rounded to binary64, with sign [neg]. *)
Definition decimal_to_spec (neg : bool) (m : N) (e10 : Z) : spec_float :=
  if (m =? 0)%N then S754_zero neg else
  if (0 <=? e10)%Z then
    binary_normalize FloatOps.prec FloatOps.emax
      (let v := (Z.of_N m * 10 ^ e10)%Z in if neg then Z.opp v else v) 0 neg
  else
    let '(mz, ez, lz) :=
      SFdiv_core_binary FloatOps.prec FloatOps.emax (Z.of_N m) 0 (10 ^ (- e10)) 0 in
    binary_round_aux FloatOps.prec FloatOps.emax neg mz ez lz.

Definition parse_unsigned (neg : bool) (str : string) : option float :=
  let l := lowercase str in
  if String.eqb l "inf" || String.eqb l "infinity" then
    Some (of_spec (S754_infinity neg))
  else if String.eqb l "nan" then Some nan
  else
    let '(ip, il, rest) := digits 0 0 str in
    let '(m, fl, rest) :=
      match rest with
      | String "." r => let '(m, fl, r') := digits ip 0 r in (m, fl, r')
      | _ => (ip, 0, rest)
      end in
    if (il + fl =? 0)%N then None else
    let exp :=
      match rest with
      | EmptyString => Some 0%Z
      | String c r =>
          if (c =? "e")%char || (c =? "E")%char then
            let '(sg, r) := match r with
                            | String "-" r' => (true, r')
                            | String "+" r' => (false, r')
                            | _ => (false, r)
                            end in
            match digits 0 0 r with
            | (v, len, EmptyString) =>
                if (len =? 0)%N then None
                else Some (if sg then Z.opp (Z.of_N v) else Z.of_N v)
            | _ => None
            end
          else None
      end in
    match exp with
    | Some x => Some (of_spec (decimal_to_spec neg m (x - Z.of_N fl)))
    | None => None
    end.

Definition parse (str : string) : option float :=
  match str with
  | String "-" r => parse_unsigned true r
  | String "+" r => parse_unsigned false r
  | _ => parse_unsigned false str
  end.

End F64.

(** ** The packet decoder ([decode_packet], [parse_ups_string] and helpers) *)
Module Decoder.
Import Types.

(** [fn parse_f64(value) -> f64] *)
Definition parse_f64 (value : string) : float :=
  match F64.parse value with Some f => f | None => 0%float end.

(** [str::parse::<u64>]: an optional [+], then one or more digits, the value
    at most [u64::MAX]. *)
Definition parse_u64_opt (value : string) : option N :=
  let body := match value with String "+" r => r | _ => value end in
  match F64.digits 0 0 body with
  | (v, len, EmptyString) => if (len =? 0) || (u64_max <? v) then None else Some v
  | _ => None
  end.

(** [fn parse_u64(value) -> u64] *)
Definition parse_u64 (value : string) : N :=
  match parse_u64_opt value with Some v => v | None => 0 end.

(** [fn status_bit(bits, index) -> bool] *)
Definition status_bit (bits : string) (index : nat) : bool :=
  match String.get index bits with
  | Some ch => (ch =? "1")%char
  | None => false
  end.

(** [fn calculate_battery_percent(voltage: f64) -> u64]; [21.0] and the
    binary64 value of the literal [26.8]. *)
Definition min_voltage : float := 0x15p+0%float.
Definition max_voltage : float := 0x1.acccccccccccdp+4%float.

Definition calculate_battery_percent (voltage : float) : N :=
  if (voltage <=? min_voltage)%float then 0 else
  if (max_voltage <=? voltage)%float then 100 else
  F64.to_u64
    (F64.clamp
       (F64.round (((voltage - min_voltage) / (max_voltage - min_voltage)) * 100)%float)
       0%float 100%float).

(** [fn estimate_runtime(battery_percent, load_percent) -> u64] *)
Definition estimate_runtime (battery_percent load_percent : N) : N :=
  let base_runtime_minutes := 15%float in
  let load_factor := (F64.of_u64 (N.max load_percent 10) / 100)%float in
  F64.to_u64 (F64.round
    ((F64.of_u64 battery_percent / 100) * (base_runtime_minutes / load_factor))%float).

(** [str::split_whitespace] *)
Fixpoint split_ws_aux (cur : list ascii) (str : string) : list string :=
  match str with
  | EmptyString =>
      match cur with [] => [] | _ => [string_of_list_ascii (rev cur)] end
  | String c rest =>
      if Monitor.is_whitespace c then
        match cur with
        | [] => split_ws_aux [] rest
        | _ => string_of_list_ascii (rev cur) :: split_ws_aux [] rest
        end
      else split_ws_aux (c :: cur) rest
  end.

Definition split_whitespace (str : string) : list string := split_ws_aux [] str.

(** [str::trim_start_matches('(')] *)
Fixpoint trim_start_matches_paren (str : string) : string :=
  match str with
  | String "(" rest => trim_start_matches_paren rest
  | _ => str
  end.

(** [str::contains(ch)] and [str::replace('#', "")] *)
Fixpoint contains (ch : ascii) (str : string) : bool :=
  match str with
  | String c rest => (c =? ch)%char || contains ch rest
  | EmptyString => false
  end.

Fixpoint remove_hash (str : string) : string :=
  match str with
  | String c rest => if (c =? "#")%char then remove_hash rest else String c (remove_hash rest)
  | EmptyString => EmptyString
  end.

Definition nth_part (parts : list string) (i : nat) : string := nth i parts EmptyString.

(** [fn parse_ups_string(input) -> Option<DecodedPacket>]; [now_iso] is the
    wall clock that [now_iso()] renders when the status is built. *)
Definition parse_ups_string (now_iso : string) (input : string) : option DecodedPacket :=
  match input with
  | String "(" _ =>
      let parts := split_whitespace (trim_start_matches_paren input) in
      if Nat.ltb (List.length parts) 8 then None else
      let status_bits := nth_part parts 7 in
      let battery_voltage := parse_f64 (nth_part parts 5) in
      let load_percent := parse_u64 (nth_part parts 3) in
      let battery_percent := calculate_battery_percent battery_voltage in
      Some (Status
        {| type_ := "STATUS";
           input_voltage := parse_f64 (nth_part parts 0);
           fault_voltage := parse_f64 (nth_part parts 1);
           output_voltage := parse_f64 (nth_part parts 2);
           load_percent := load_percent;
           frequency := parse_f64 (nth_part parts 4);
           battery_voltage := battery_voltage;
           temperature := parse_f64 (nth_part parts 6);
           battery_percent := battery_percent;
           estimated_runtime := estimate_runtime battery_percent load_percent;
           timestamp := now_iso;
           status := {| raw := status_bits;
                        utility_fail := status_bit status_bits 0;
                        battery_low := status_bit status_bits 1;
                        bypass_active := status_bit status_bits 2;
                        ups_failed := status_bit status_bits 3;
                        ups_is_standby := status_bit status_bits 4;
                        test_in_progress := status_bit status_bits 5;
                        shutdown_active := status_bit status_bits 6;
                        beeper_on := status_bit status_bits 7 |} |})
  | _ =>
      if contains "V" input && (contains "#" input || contains "V" input) then
        Some (Version (Monitor.trim (remove_hash input)))
      else None
  end.

(** [fn decode_packet(raw_data: &[u8]) -> Option<DecodedPacket>] *)
Definition decode_packet (now_iso : string) (raw_data : list Byte.byte) : option DecodedPacket :=
  match raw_data with
  | [] => None
  | _ =>
      let data_bytes := match raw_data with
                        | _ :: (_ :: _) as rest => rest
                        | _ => raw_data
                        end in
      let content := List.firstn
        (match List.find (fun '(_, b) => (Byte.to_N b =? 13)) (combine (seq 0 (List.length data_bytes)) data_bytes) with
         | Some (i, _) => i
         | None => List.length data_bytes
         end) data_bytes in
      let ascii := string_of_list_ascii
        (map ascii_of_byte
           (filter (fun b => (32 <=? Byte.to_N b) && (Byte.to_N b <=? 126)) content)) in
      parse_ups_string now_iso (Monitor.trim ascii)
  end.

End Decoder.

(** ** Binary64 arithmetic read on the reals, for [calculate_battery_percent] *)
Module FloatSem.
Local Open Scope R_scope.

Definition bpow (e : Z) : R := powerRZ 2 e.

Definition val (x : spec_float) : R :=
  match x with
  | S754_finite s m e => (if s then - IZR (Zpos m) else IZR (Zpos m)) * bpow e
  | _ => 0
  end.

(** [l] locates [y] relative to the integer [m] and to [m + 1/2]. *)
Definition describes_u (m : Z) (l : location) (y : R) : Prop :=
  match l with
  | loc_Exact => y = IZR m
  | loc_Inexact c =>
      IZR m < y < IZR m + 1 /\
      match c with
      | Lt => y < IZR m + /2
      | Eq => y = IZR m + /2
      | Gt => IZR m + /2 < y
      end
  end.

(** The exact value [x] lies at [m * 2^e] ([l] exact) or strictly between
    [m * 2^e] and [(m + 1) * 2^e], on the side of the midpoint told by [l]. *)
Definition describes (m e : Z) (l : location) (x : R) : Prop :=
  describes_u m l (x / bpow e).

Definition rdesc (r : shr_record) (e : Z) (x : R) : Prop :=
  describes (shr_m r) e (loc_of_shr_record r) x.

Definition canonical (m : positive) (e : Z) : Prop :=
  fexp FloatOps.prec FloatOps.emax (Zpos (digits2_pos m) + e) = e.

(** The order of [SFleb] on non-NaN floats: infinities at the ends, finite
    values and zeros by their value. *)
Definition fkey (x : spec_float) : option (Z * R) :=
  match x with
  | S754_nan => None
  | S754_infinity s => Some ((if s then 0 else 2)%Z, 0)
  | S754_zero _ => Some (1%Z, 0)
  | S754_finite _ _ _ => Some (1%Z, val x)
  end.

Definition key_le (k1 k2 : option (Z * R)) : Prop :=
  match k1, k2 with
  | Some (a, u), Some (b, w) => (a < b)%Z \/ (a = b /\ u <= w)
  | _, _ => False
  end.

(** A rounding input: [x] located by [(m, e, l)], in the normal range, with
    [e] at or below the exponent of the 53-bit grid of [x]'s binade. *)
Definition rinput (m e : Z) (l : location) (x : R) : Prop :=
  (0 < m)%Z /\ describes m e l x /\
  (-1000 <= Zdigits2 m + e <= 1000)%Z /\ (e <= Zdigits2 m + e - 53)%Z.

(** [y] is the binary64 rounding of the positive real [x]. *)
Definition rounds_to (y : spec_float) (x : R) : Prop :=
  exists m e l, y = binary_round_aux FloatOps.prec FloatOps.emax false m e l /\ rinput m e l x.

Definition sf21 : spec_float := S754_finite false 5910974510923776 (-48).

Definition sfmax : spec_float := S754_finite false 7543529375845581 (-48).

Definition sfR : spec_float := S754_finite false 6530219459687220 (-50).

Definition sf100 : spec_float := S754_finite false 7036874417766400 (-46).

(** [((v - 21.0) / (26.8 - 21.0)) * 100.0] on the spec side. *)
Definition pipe (x : spec_float) : spec_float :=
  SFmul FloatOps.prec FloatOps.emax
    (SFdiv FloatOps.prec FloatOps.emax (SFsub FloatOps.prec FloatOps.emax x sf21) sfR) sf100.

Definition middle (x : spec_float) : Prop :=
  exists mv ev, x = S754_finite false mv ev /\ canonical mv ev /\
    val sf21 < val x < val sfmax.

(** The integer part of [calculate_battery_percent]: [n as f64] clamped
    to [[0, 100]] and truncated. *)
Definition Hn (n : Z) : N :=
  F64.to_u64 (F64.clamp (F64.of_spec (binary_normalize FloatOps.prec FloatOps.emax n 0 false))
                        0%float 100%float).

Definition Hn_table : bool :=
  forallb (fun k => let n := Z.of_nat k in ((Hn n <=? Hn (n + 1)) && (Hn n <=? 100))%N)
          (seq 0 513).

End FloatSem.

(** [AppState::new]: the settings read from [config.json] and normalised,
    and the events and data points read from their JSON files. *)
Definition app_state_new (settings : Settings.AppSettings)
    (events : list Types.HistoryEvent) (data_history : list Types.DataHistoryEntry)
    : Monitor.AppState :=
  Monitor.mkAppState (Settings.normalize settings) events data_history None
    false false false None 0 None None None 0 0 [].

(* ================================================================== *)
(** * Properties *)

Import Settings Types Monitor.

(** Running an operation. *)
Definition run {A} (m : M A) (e : Env) (s : AppState) : A * AppState := m e s.

(** ** Tauri commands on the shared state, the connection bookkeeping of the
    polling loop, and the PowerShell popup script *)
Module Commands.
Import Settings Types Monitor.

(** [Result<A, E>] of the commands. *)
Inductive result (A E : Type) := Ok (a : A) | Err (e : E).
Arguments Ok {A E} a.
Arguments Err {A E} e.







(** *** Connection state ([mark_disconnected], [mark_connected]) *)

(** The two flags [AppState::is_connected] and
    [AppState::has_emitted_disconnected], passed explicitly. *)
Record Connection := mkConnection {
  is_connected : bool;
  has_emitted_disconnected : bool;
}.

(** [fn mark_disconnected(app, state)] *)
Definition mark_disconnected (c : Connection) : M Connection :=
  let was_connected := is_connected c in
  if negb was_connected && has_emitted_disconnected c
  then ret (mkConnection false (has_emitted_disconnected c)) else
  modify (set_is_on_battery false) ;;
  modify (set_was_battery_low false) ;;
  modify (set_was_battery_critical false) ;;
  modify (set_battery_start_ms None) ;;
  modify (set_last_status None) ;;
  _ <- cancel_scheduled_shutdown true ;;
  modify (fun s => set_sound_generation (wrap_add (sound_generation s) 1) s) ;;
  (if was_connected
   then log_event "Critical Event" "UPS disconnected" "UPS disconnected"
   else ret tt) ;;
  emit_if_possible "ups-disconnected" ;;
  ret (mkConnection false true).

(** [fn mark_connected(app, state)] *)
Definition mark_connected (c : Connection) : M Connection :=
  if is_connected c then ret c else
  log_event "General Event" "UPS connected" "UPS connected" ;;
  emit_if_possible "ups-connected" ;;
  ret (mkConnection true false).

(** [fn clear_last_error(state)] *)
Definition clear_last_error : M unit := modify (set_last_error None).

(** *** Commands *)



(** [struct HistoryFilter] *)
Record HistoryFilter := mkHistoryFilter {
  hf_classification : option string;
  date_from : option string;
  date_to : option string;
}.

Section Filters.
(** [parse_date_bound] and [parse_rfc3339_utc] read dates with chrono; an
    instant of [DateTime<Utc>] is an integer of the time line. *)
Variable parse_date_bound : string -> bool -> option Z.
Variable parse_rfc3339_utc : string -> option Z.

Definition from_ok (from_dt : Z) (t : string) : bool :=
  match parse_rfc3339_utc t with
  | Some item_dt => (from_dt <=? item_dt)%Z
  | None => true
  end.

Definition to_ok (to_dt : Z) (t : string) : bool :=
  match parse_rfc3339_utc t with
  | Some item_dt => (item_dt <=? to_dt)%Z
  | None => true
  end.

(** The [date_from] and [date_to] steps shared by [get_events] and
    [get_data_history]. *)
Definition filter_dates {A} (time_of : A -> string) (f : HistoryFilter) (items : list A) : list A :=
  let items :=
    match date_from f with
    | Some d =>
        match parse_date_bound d false with
        | Some from_dt => filter (fun item => from_ok from_dt (time_of item)) items
        | None => items
        end
    | None => items
    end in
  match date_to f with
  | Some d =>
      match parse_date_bound d true with
      | Some to_dt => filter (fun item => to_ok to_dt (time_of item)) items
      | None => items
      end
  | None => items
  end.

(** [#[tauri::command] fn get_events(state, filter) -> Vec<HistoryEvent>] *)
Definition get_events (flt : option HistoryFilter) : M (list HistoryEvent) :=
  s <- get ;;
  ret match flt with
      | None => events s
      | Some f =>
          let evs :=
            match hf_classification f with
            | Some c =>
                if negb (String.eqb c "All Events")
                then filter (fun item => String.eqb (classification item) c) (events s)
                else events s
            | None => events s
            end in
          filter_dates time f evs
      end.

(** [#[tauri::command] fn get_data_history(state, filter)] *)
Definition get_data_history (flt : option HistoryFilter) : M (list DataHistoryEntry) :=
  s <- get ;;
  ret match flt with
      | None => data_history s
      | Some f => filter_dates d_time f (data_history s)
      end.

End Filters.

(** [ids.contains(&id)] *)
Definition mem_id (ids : list N) (i : N) : bool := existsb (N.eqb i) ids.

(** [#[tauri::command] fn delete_events(state, ids) -> Vec<HistoryEvent>] *)
Definition delete_events (ids : list N) : M (list HistoryEvent) :=
  modify (fun s => set_events
    match ids with
    | [] => []
    | _ => filter (fun item => negb (mem_id ids (id item))) (events s)
    end s) ;;
  s <- get ;;
  let result := events s in
  perform (SaveEvents (events s)) ;;
  ret result.

(** [#[tauri::command] fn delete_data_history(state, ids)] *)
Definition delete_data_history (ids : list N) : M (list DataHistoryEntry) :=
  modify (fun s => set_data_history
    match ids with
    | [] => []
    | _ => filter (fun item => negb (mem_id ids (d_id item))) (data_history s)
    end s) ;;
  s <- get ;;
  let result := data_history s in
  perform SaveDataHistory ;;
  ret result.


(** [AlertKind::from_str] *)
Definition alert_kind_from_str (value : string) : option AlertKind :=
  if existsb (String.eqb value) ["acFault"; "ac_fault"; "ac-fault"; "ac"]%string
  then Some AcFault
  else if existsb (String.eqb value) ["batteryLow"; "battery_low"; "battery-low"; "low"]%string
  then Some BatteryLow
  else if existsb (String.eqb value)
            ["batteryCritical"; "critical"; "battery_critical"; "battery-critical"]%string
  then Some BatteryCritical
  else None.

(** [#[tauri::command] fn play_sound(state, sound_type, repeats) -> bool] *)
Definition play_sound (sound_type : string) (repeats : option N) : M bool :=
  let kind := match alert_kind_from_str sound_type with
              | Some k => k
              | None => BatteryCritical
              end in
  play_sound_with_generation kind (match repeats with Some r => r | None => 1 end).

(** [#[tauri::command] fn stop_sound(state) -> bool] *)
Definition stop_sound : M bool :=
  modify (fun s => set_sound_generation (wrap_add (sound_generation s) 1) s) ;;
  ret true.









(** [struct ShutdownSimulationResult] *)
Record ShutdownSimulationResult := mkShutdownSimulationResult {
  scheduled : bool;
  cancelled : bool;
  sim_minutes : N;
  shutdown_time : string;
}.

Section Simulation.
(** [(Utc::now() + ChronoDuration::minutes(m as i64)).to_rfc3339()] at the
    instant of the call, [None] where chrono panics (duration or date out of
    range). *)
Variable shutdown_time_after : Env -> N -> option string.

(** [#[tauri::command] fn simulate_shutdown_flow(app, minutes,
    auto_cancel_ms, state)]; [None] is a panic of the command, and the sleep
    of [safe_cancel_ms] between the two events is not modelled. *)
Definition simulate_shutdown_flow (minutes auto_cancel_ms : option N)
    : M (option (result ShutdownSimulationResult string)) :=
  s <- get ;;
  if monitor_only_mode (settings s) then ret (Some (Err "Modo solo monitor activo"%string)) else
  let safe_minutes := N.max (match minutes with Some m => m | None => 5 end) 1 in
  let safe_cancel_ms := N.max (match auto_cancel_ms with Some m => m | None => 1200 end) 100 in
  e <- ask ;;
  match shutdown_time_after e safe_minutes with
  | None => ret None
  | Some shutdown_time =>
      emit_if_possible "shutdown-scheduled" ;;
      emit_if_possible "shutdown-cancelled" ;;
      ret (Some (Ok {| scheduled := true; cancelled := true;
                       sim_minutes := safe_minutes; shutdown_time := shutdown_time |}))
  end.

End Simulation.



End Commands.

Definition noisy_monitor_only : AppSettings :=
  {| start_with_windows := true; start_minimized := true; monitor_only_mode := true;
     polling_interval := 0; enable_notifications := true;
     alerts := {| ac_fault := mkAlertConfig true true 3;
                  Settings.battery_low := mkAlertConfig true true 5;
                  battery_critical := mkAlertConfig true true 10 |};
     shutdown_pc := {| on_ac_fault := mkShutdownOnAcFault true 18;
                       on_battery_low := true; on_battery_critical := true;
                       auto_save_files := true; shutdown_command := "poweroff";
                       action := "hibernate" |};
     ups_control := mkUpsControlSettings true 2; save_history := true;
     history_interval := 300; low_battery_threshold := 20;
     critical_battery_threshold := 10; custom_sounds_path := None |}.

Definition schedule_target (e : Env) (delay_minutes : N) : N :=
  sat_add (now_ms e) (N.min (N.max delay_minutes 1) 120 * 60 * 1000).

Definition should_replace (e : Env) (delay_minutes : N) (s : AppState) : bool :=
  match scheduled_shutdown_at_ms s with
  | Some existing => schedule_target e delay_minutes <? existing
  | None => true
  end.

Definition quiet_env (now : N) : Env := mkEnv now "2026-01-01T00:00:00+00:00" false (fun _ _ => None).

Definition new_event (e : Env) (cls nm rm : string) : HistoryEvent :=
  mkHistoryEvent (now_ms e) (now_text e) cls nm rm.

(** A sequence of [log_event] calls, each with the environment of its call. *)
Fixpoint log_events (calls : list (Env * string * string * string)) (s : AppState) : AppState :=
  match calls with
  | [] => s
  | (e, cls, nm, rm) :: rest => log_events rest (snd (run (log_event cls nm rm) e s))
  end.

Definition hoare {A} (e : Env) (P : AppState -> Prop) (m : M A)
    (Q : A -> AppState -> Prop) : Prop :=
  forall s, P s -> Q (fst (m e s)) (snd (m e s)).

(** The effects that report an AC fault: the events file written right after
    an [AC Fault] event was logged, and the notification, popup and sound of
    the AC-fault alert. *)
Definition ac_fault_logged (eff : Effect) : bool :=
  match eff with
  | SaveEvents (ev :: _) => String.eqb (name ev) "AC Fault"
  | _ => false
  end.

Definition ac_fault_alerted (eff : Effect) : bool :=
  match eff with
  | Notify t => String.eqb t (event_name AcFault)
  | UrgentAlert t _ => String.eqb t (event_name AcFault)
  | PlaySound AcFault _ => true
  | _ => false
  end.

Definition count (p : Effect -> bool) (tr : list Effect) : nat := List.length (filter p tr).

Definition Inv (st : AppSettings) (c1 c2 : nat) (s : AppState) : Prop :=
  settings s = st /\ count ac_fault_logged (trace s) = c1 /\
  count ac_fault_alerted (trace s) = c2.

(** [m] keeps the settings and adds [d1] AC Fault logs and [d2] AC-fault
    alert effects, whatever the state it starts from. *)
Definition Delta {A} (st : AppSettings) (m : M A) (d1 d2 : nat) : Prop :=
  forall e c1 c2, hoare e (Inv st c1 c2) m (fun _ => Inv st (c1 + d1) (c2 + d2)).

(** The AC-fault effects one dispatch of the AC-fault alert produces under
    settings [st]: its notification, its popup and its sound, as configured. *)
Definition alert_dispatch_size (st : AppSettings) : nat :=
  if monitor_only_mode st then 0 else
  let c := ac_fault (alerts st) in
  ((if enable_notifications st && show_popup c then 1 else 0) +
   (if show_popup c then 1 else 0) + (if play_sound c then 1 else 0))%nat.

Fixpoint handle_packets (ps : list (Env * UpsData)) (s : AppState) : AppState :=
  match ps with
  | [] => s
  | (e, p) :: ps' => handle_packets ps' (snd (run (handle_status_packet p) e s))
  end.

Definition all_utility_fail (ps : list (Env * UpsData)) : Prop :=
  Forall (fun ep => utility_fail (Types.status (snd ep)) = true) ps.

Definition on_battery_flags : UpsStatusFlags :=
  mkUpsStatusFlags "10001000" true false false false true false false false.

Definition on_battery_snapshot : UpsData :=
  mkUpsData "status" 0x0p+0%float 0x1.bp+7%float 0x1.b8p+7%float 20
    0x1.ep+5%float 0x1.9p+4%float 0x1.ep+4%float 90 30
    "2026-01-01T00:00:00+00:00" on_battery_flags.

Definition ac_restored_flags : UpsStatusFlags :=
  mkUpsStatusFlags "00001000" false false false false true false false false.

Definition ac_restored_snapshot : UpsData :=
  mkUpsData "status" 0x1.b8p+7%float 0x1.bp+7%float 0x1.b8p+7%float 20
    0x1.ep+5%float 0x1.acp+4%float 0x1.ep+4%float 100 30
    "2026-01-01T00:00:00+00:00" ac_restored_flags.

Definition ups_error_emitted (eff : Effect) : bool :=
  match eff with
  | Emit ev => String.eqb ev "ups-error"
  | _ => false
  end.

Definition report_failure (error : option string) : M unit :=
  match error with
  | Some error => emit_error_once error
  | None => ret tt
  end.

Definition failing_env (now : N) : Env :=
  mkEnv now "2026-01-01T00:05:00+00:00" false (fun _ _ => Some "access denied"%string).

Definition due_state : AppState :=
  set_scheduled_shutdown_reason (Some "battery-critical"%string)
    (set_scheduled_shutdown_at_ms (Some 1000) (app_state_new default_settings [] [])).

(** [d] with the timestamp of a decoded snapshot replaced by [t]. *)
Definition restamp (t : string) (d : option DecodedPacket) : option DecodedPacket :=
  match d with
  | Some (Status u) =>
      Some (Status {| type_ := type_ u; input_voltage := input_voltage u;
                      fault_voltage := fault_voltage u; output_voltage := output_voltage u;
                      load_percent := load_percent u; frequency := frequency u;
                      battery_voltage := battery_voltage u; temperature := temperature u;
                      battery_percent := battery_percent u;
                      estimated_runtime := estimated_runtime u;
                      timestamp := t; status := Types.status u |})
  | d => d
  end.

Definition packet_timestamp (d : option DecodedPacket) : option string :=
  match d with
  | Some (Status u) => Some (timestamp u)
  | _ => None
  end.

Definition status_frame : list Byte.byte :=
  map byte_of_ascii
    (list_ascii_of_string "#(220.0 220.0 219.0 020 50.0 27.4 30.0 00001000" ++ ["013"%char]).




(** A decimal numeral written with the digits [ds] (most significant first)
    and its value. *)
Definition digit_char (d : N) : ascii := ascii_of_N (48 + d).

Definition decimal_string (ds : list N) : string := string_of_list_ascii (map digit_char ds).

Definition decimal_value (ds : list N) : N := fold_left (fun acc d => acc * 10 + d) ds 0.

Definition no_cr (bs : list Byte.byte) : bool := forallb (fun b => negb (Byte.to_N b =? 13)) bs.


Definition all_repeats_in_range (st : AppSettings) : Prop :=
  forall k, (1 <= sound_repeats (alert_config_for_kind st k) <= 30)%N.


(** ** Settings normalisation *)

(** C6: normalising settings whose [monitorOnlyMode] is set turns off every
    alert's sound and popup, notifications, the three shutdown triggers, the
    custom shutdown command and history saving, whatever they were. *)
Theorem normalize_monitor_only_forces_off (s : AppSettings) :
  monitor_only_mode s = true ->
  let n := normalize s in
  play_sound (ac_fault (alerts n)) = false /\ show_popup (ac_fault (alerts n)) = false /\
  play_sound (Settings.battery_low (alerts n)) = false /\
  show_popup (Settings.battery_low (alerts n)) = false /\
  play_sound (battery_critical (alerts n)) = false /\
  show_popup (battery_critical (alerts n)) = false /\
  enable_notifications n = false /\
  ac_enabled (on_ac_fault (shutdown_pc n)) = false /\
  on_battery_low (shutdown_pc n) = false /\
  on_battery_critical (shutdown_pc n) = false /\
  shutdown_command (shutdown_pc n) = EmptyString /\
  save_history n = false.
Proof.
  intros H n. subst n. unfold normalize. cbn [monitor_only_mode]. rewrite H.
  cbn. repeat split.
Qed.

Lemma normalize_monitor_only_forces_off_witness :
  monitor_only_mode noisy_monitor_only = true /\
  enable_notifications (normalize noisy_monitor_only) = false.
Proof.
  split; [reflexivity|].
  apply (normalize_monitor_only_forces_off noisy_monitor_only eq_refl).
Defined.

(** ** The shutdown scheduler *)

Lemma schedule_shutdown_after_minutes_eq e s m r :
  run (schedule_shutdown_after_minutes m r) e s =
  (true, if should_replace e m s then
           set_trace (trace s ++ [Emit "shutdown-scheduled"])
             (set_scheduled_shutdown_reason (Some r)
               (set_scheduled_shutdown_at_ms (Some (schedule_target e m)) s))
         else s).
Proof.
  unfold run, schedule_shutdown_after_minutes, should_replace, schedule_target.
  cbn. destruct (scheduled_shutdown_at_ms s) as [ex|];
  [destruct (_ <? ex)|]; reflexivity.
Qed.

Lemma u64_max_value : u64_max = 18446744073709551615.
Proof. reflexivity. Qed.

Ltac sched_simpl :=
  repeat rewrite schedule_shutdown_after_minutes_eq; cbn [snd fst].

(** C1: a schedule request replaces the pending deadline exactly when there
    is none or the new deadline (now plus the delay clamped to [1, 120]
    minutes) is strictly earlier; the reason moves with the deadline.  In
    particular a 10-minute request made after a 2-minute one keeps the
    2-minute deadline and its reason, and a 2-minute request made while a
    10-minute deadline is pending (and still later than the new one, for
    instance back to back) makes the 2-minute deadline the active one. *)
Theorem schedule_earliest_wins :
  (forall e s m r,
     let s' := snd (run (schedule_shutdown_after_minutes m r) e s) in
     let target := now_ms e + N.min (N.max m 1) 120 * 60000 in
     ((match scheduled_shutdown_at_ms s with
       | None => True
       | Some existing => N.min target u64_max < existing
       end) ->
      scheduled_shutdown_at_ms s' = Some (N.min target u64_max) /\
      scheduled_shutdown_reason s' = Some r) /\
     (~ (match scheduled_shutdown_at_ms s with
         | None => True
         | Some existing => N.min target u64_max < existing
         end) ->
      scheduled_shutdown_at_ms s' = scheduled_shutdown_at_ms s /\
      scheduled_shutdown_reason s' = scheduled_shutdown_reason s)) /\
  (forall e1 e2 s r1 r2,
     scheduled_shutdown_at_ms s = None -> now_ms e1 <= now_ms e2 ->
     let s1 := snd (run (schedule_shutdown_after_minutes 2 r1) e1 s) in
     let s2 := snd (run (schedule_shutdown_after_minutes 10 r2) e2 s1) in
     scheduled_shutdown_at_ms s2 = Some (N.min (now_ms e1 + 120000) u64_max) /\
     scheduled_shutdown_reason s2 = Some r1) /\
  (forall e1 e2 s r1 r2,
     scheduled_shutdown_at_ms s = None ->
     now_ms e2 + 120000 < now_ms e1 + 600000 -> now_ms e1 + 600000 <= u64_max ->
     let s1 := snd (run (schedule_shutdown_after_minutes 10 r1) e1 s) in
     let s2 := snd (run (schedule_shutdown_after_minutes 2 r2) e2 s1) in
     scheduled_shutdown_at_ms s2 = Some (now_ms e2 + 120000) /\
     scheduled_shutdown_reason s2 = Some r2).
Proof.
  split; [|split].
  - intros e s m r s' target. subst s'.
    sched_simpl. unfold should_replace, schedule_target, sat_add.
    replace (N.min (N.max m 1) 120 * 60 * 1000) with (N.min (N.max m 1) 120 * 60000)
      by (rewrite <- N.mul_assoc; reflexivity).
    fold target.
    destruct (scheduled_shutdown_at_ms s) as [ex|] eqn:Hs; split; intro H.
    + rewrite (proj2 (N.ltb_lt _ _) H). split; reflexivity.
    + destruct (N.min target u64_max <? ex) eqn:Hl.
      * apply N.ltb_lt in Hl. contradiction.
      * rewrite Hs. split; reflexivity.
    + split; reflexivity.
    + exfalso. apply H. exact I.
  - intros e1 e2 s r1 r2 Hnone Hle s1 s2. subst s1 s2.
    rewrite (schedule_shutdown_after_minutes_eq e1 s 2 r1).
    assert (should_replace e1 2 s = true) as -> by (unfold should_replace; rewrite Hnone; reflexivity).
    cbn [snd]. rewrite schedule_shutdown_after_minutes_eq. cbn [snd].
    unfold should_replace, schedule_target, sat_add; cbn [scheduled_shutdown_at_ms
      scheduled_shutdown_reason set_trace set_scheduled_shutdown_reason set_scheduled_shutdown_at_ms].
    replace (N.min (N.max 10 1) 120 * 60 * 1000) with 600000 by reflexivity.
    replace (N.min (N.max 2 1) 120 * 60 * 1000) with 120000 by reflexivity.
    destruct (N.min (now_ms e2 + 600000) u64_max <? N.min (now_ms e1 + 120000) u64_max) eqn:Hl.
    + apply N.ltb_lt in Hl. exfalso. lia.
    + cbn. split; reflexivity.
  - intros e1 e2 s r1 r2 Hnone Hlt Hmax s1 s2. subst s1 s2.
    rewrite (schedule_shutdown_after_minutes_eq e1 s 10 r1).
    assert (should_replace e1 10 s = true) as -> by (unfold should_replace; rewrite Hnone; reflexivity).
    cbn [snd]. rewrite schedule_shutdown_after_minutes_eq. cbn [snd].
    unfold should_replace, schedule_target, sat_add; cbn [scheduled_shutdown_at_ms
      scheduled_shutdown_reason set_trace set_scheduled_shutdown_reason set_scheduled_shutdown_at_ms].
    replace (N.min (N.max 10 1) 120 * 60 * 1000) with 600000 by reflexivity.
    replace (N.min (N.max 2 1) 120 * 60 * 1000) with 120000 by reflexivity.
    rewrite (N.min_l (now_ms e1 + 600000)) by exact Hmax.
    rewrite (N.min_l (now_ms e2 + 120000)) by lia.
    rewrite (proj2 (N.ltb_lt _ _) Hlt). cbn. split; reflexivity.
Qed.

Lemma schedule_earliest_wins_witness :
  scheduled_shutdown_at_ms
    (snd (run (schedule_shutdown_after_minutes 10 "b") (quiet_env 5000)
      (snd (run (schedule_shutdown_after_minutes 2 "a") (quiet_env 1000)
        (app_state_new default_settings [] []))))) = Some 121000 /\
  scheduled_shutdown_reason
    (snd (run (schedule_shutdown_after_minutes 2 "a") (quiet_env 5000)
      (snd (run (schedule_shutdown_after_minutes 10 "b") (quiet_env 1000)
        (app_state_new default_settings [] []))))) = Some "a"%string.
Proof.
  destruct schedule_earliest_wins as [_ [H2 H3]]. split.
  - apply (H2 (quiet_env 1000) (quiet_env 5000) (app_state_new default_settings [] []) "a"%string "b"%string);
      [reflexivity | cbn; lia].
  - apply (H3 (quiet_env 1000) (quiet_env 5000) (app_state_new default_settings [] []) "b"%string "a"%string);
      [reflexivity | cbn; lia | rewrite u64_max_value; cbn; lia].
Defined.

Lemma trigger_shutdown_eq e s m :
  run (trigger_shutdown m) e s =
  if monitor_only_mode (settings s) then (false, s)
  else run (schedule_shutdown_after_minutes m "manual-trigger") e s.
Proof. unfold run, trigger_shutdown. cbn. destruct (monitor_only_mode (settings s)); reflexivity. Qed.

(** C10: a schedule request always returns [true], also when an earlier
    deadline is kept and the request has no effect; so [trigger_shutdown]
    returns [true] exactly when monitor-only mode is off, even when the
    requested deadline does not become the active one. *)
Theorem schedule_reports_true_even_when_ignored :
  (forall e s m r, fst (run (schedule_shutdown_after_minutes m r) e s) = true) /\
  (forall e s m,
     fst (run (trigger_shutdown m) e s) = negb (monitor_only_mode (settings s))) /\
  (forall e s m existing,
     monitor_only_mode (settings s) = false ->
     scheduled_shutdown_at_ms s = Some existing ->
     existing <= schedule_target e m ->
     fst (run (trigger_shutdown m) e s) = true /\
     snd (run (trigger_shutdown m) e s) = s).
Proof.
  split; [|split].
  - intros. rewrite schedule_shutdown_after_minutes_eq. reflexivity.
  - intros. rewrite trigger_shutdown_eq.
    destruct (monitor_only_mode (settings s)); [reflexivity|].
    rewrite schedule_shutdown_after_minutes_eq. reflexivity.
  - intros e s m ex Hm Hs Hle. rewrite trigger_shutdown_eq, Hm.
    rewrite schedule_shutdown_after_minutes_eq.
    unfold should_replace. rewrite Hs.
    destruct (schedule_target e m <? ex) eqn:Hl.
    + apply N.ltb_lt in Hl. lia.
    + split; reflexivity.
Qed.

Lemma schedule_reports_true_even_when_ignored_witness :
  fst (run (trigger_shutdown 10) (quiet_env 5000)
         (snd (run (trigger_shutdown 2) (quiet_env 1000) (app_state_new default_settings [] []))))
  = true.
Proof.
  destruct schedule_reports_true_even_when_ignored as [_ [_ H3]].
  apply (proj1 (H3 (quiet_env 5000)
    (snd (run (trigger_shutdown 2) (quiet_env 1000) (app_state_new default_settings [] [])))
    10 121000 eq_refl eq_refl ltac:(vm_compute; discriminate))).
Defined.

Lemma cancel_scheduled_shutdown_eq e s emit :
  run (cancel_scheduled_shutdown emit) e s =
  (match scheduled_shutdown_at_ms s with Some _ => true | None => false end,
   let s1 := set_scheduled_shutdown_reason None (set_scheduled_shutdown_at_ms None s) in
   match scheduled_shutdown_at_ms s with
   | Some _ => if emit then set_trace (trace s1 ++ [Emit "shutdown-cancelled"]) s1 else s1
   | None => s1
   end).
Proof.
  unfold run, cancel_scheduled_shutdown. cbn.
  destruct (scheduled_shutdown_at_ms s), emit; reflexivity.
Qed.

Lemma process_pending_shutdown_idle st e s :
  scheduled_shutdown_at_ms s = None ->
  run (process_pending_shutdown st) e s = (tt, s).
Proof.
  intros H. unfold run, process_pending_shutdown.
  destruct (monitor_only_mode st); [reflexivity|]. cbn. rewrite H. reflexivity.
Qed.

(** C7: [cancel] clears the deadline and the reason and returns [true]
    exactly when a deadline was pending; afterwards a scheduler tick, at any
    time (at or past any earlier deadline included), does nothing: neither
    the state nor the effects change. *)
Theorem cancel_is_effective :
  forall e s emit,
    let r := run (cancel_scheduled_shutdown emit) e s in
    fst r = match scheduled_shutdown_at_ms s with Some _ => true | None => false end /\
    scheduled_shutdown_at_ms (snd r) = None /\
    scheduled_shutdown_reason (snd r) = None /\
    (forall e' st, run (process_pending_shutdown st) e' (snd r) = (tt, snd r)).
Proof.
  intros e s emit r. subst r. rewrite cancel_scheduled_shutdown_eq.
  destruct (scheduled_shutdown_at_ms s) eqn:Hs; [destruct emit|];
    cbn [fst snd]; (split; [reflexivity|]); cbn;
    (split; [reflexivity|]); (split; [reflexivity|]);
    intros e' st; apply process_pending_shutdown_idle; reflexivity.
Qed.

(** ** The event log *)

Lemma log_event_eq e s cls nm rm :
  run (log_event cls nm rm) e s =
  (tt, if monitor_only_mode (settings s) then s
       else set_trace (trace s ++ [SaveEvents (truncate MAX_EVENTS (new_event e cls nm rm :: events s))])
              (set_events (truncate MAX_EVENTS (new_event e cls nm rm :: events s)) s)).
Proof.
  unfold run, log_event. cbn. destruct (monitor_only_mode (settings s)); reflexivity.
Qed.

Lemma firstn_removelast {A} (l : list A) n :
  List.length l = S n -> firstn n l = removelast l.
Proof.
  revert n. induction l as [|x l IH]; intros n H; [discriminate|].
  destruct l as [|y l].
  - cbn in H. injection H as <-. reflexivity.
  - destruct n as [|n]; [cbn in H; discriminate|].
    cbn [firstn]. change (removelast (x :: y :: l)) with (x :: removelast (y :: l)).
    f_equal. apply IH. cbn in *. lia.
Qed.

Lemma log_event_settings e s cls nm rm :
  settings (snd (run (log_event cls nm rm) e s)) = settings s.
Proof.
  rewrite log_event_eq. cbn. destruct (monitor_only_mode (settings s)); reflexivity.
Qed.

Lemma log_event_bounded e s cls nm rm :
  monitor_only_mode (settings s) = false ->
  (List.length (events (snd (run (log_event cls nm rm) e s))) <= 1000)%nat.
Proof.
  intros H. rewrite log_event_eq, H. cbn.
  unfold truncate, MAX_EVENTS. rewrite length_firstn. cbn. lia.
Qed.

Lemma log_event_keeps_bound e s cls nm rm :
  (List.length (events s) <= 1000)%nat ->
  (List.length (events (snd (run (log_event cls nm rm) e s))) <= 1000)%nat.
Proof.
  intros H. destruct (monitor_only_mode (settings s)) eqn:Hm.
  - rewrite log_event_eq, Hm. exact H.
  - apply log_event_bounded; exact Hm.
Qed.

(** C9: the event log stays bounded and newest first.  After any sequence of
    [log_event] calls the log holds at most [MAX_EVENTS] = 1000 entries,
    whether it started within the bound or at least one insertion happened
    (monitor-only mode off; with it on, [log_event] records nothing).  An
    insertion puts the new event first, followed by the previous entries in
    their order; on a full log of 1000 it drops exactly the last (oldest)
    entry and leaves 1000. *)
Theorem event_log_bounded_newest_first :
  (forall calls s,
     ((List.length (events s) <= 1000)%nat \/
      (calls <> [] /\ monitor_only_mode (settings s) = false)) ->
     (List.length (events (log_events calls s)) <= 1000)%nat) /\
  (forall e s cls nm rm,
     monitor_only_mode (settings s) = false ->
     events (snd (run (log_event cls nm rm) e s)) =
       new_event e cls nm rm :: firstn 999 (events s)) /\
  (forall e s cls nm rm,
     monitor_only_mode (settings s) = false ->
     (List.length (events s) = 1000)%nat ->
     events (snd (run (log_event cls nm rm) e s)) =
       new_event e cls nm rm :: removelast (events s) /\
     (List.length (events (snd (run (log_event cls nm rm) e s))) = 1000)%nat).
Proof.
  split; [|split].
  - intros calls. induction calls as [|[[[e cls] nm] rm] rest IH]; intros s H.
    + destruct H as [H|[H _]]; [exact H|contradiction].
    + cbn [log_events]. apply IH. left.
      destruct H as [H|[_ H]].
      * apply log_event_keeps_bound; exact H.
      * apply log_event_bounded; exact H.
  - intros e s cls nm rm H. rewrite log_event_eq, H. reflexivity.
  - intros e s cls nm rm H Hl. rewrite log_event_eq, H. cbn [events set_trace set_events].
    unfold truncate, MAX_EVENTS.
    change (N.to_nat 1000) with (S 999). rewrite firstn_cons.
    rewrite (firstn_removelast (events s) 999 Hl). split; [reflexivity|].
    rewrite <- (firstn_removelast (events s) 999 Hl).
    cbn [snd events set_trace set_events List.length]. rewrite length_firstn. lia.
Qed.

Lemma event_log_bounded_newest_first_witness :
  (List.length (events (snd (run (log_event "General Event" "UPS connected" "UPS connected")
     (quiet_env 7)
     (app_state_new default_settings
        (repeat (new_event (quiet_env 1) "General Event" "old" "old") 1000) [])))) = 1000)%nat.
Proof.
  destruct event_log_bounded_newest_first as [_ [_ H3]].
  apply (H3 (quiet_env 7)
           (app_state_new default_settings
              (repeat (new_event (quiet_env 1) "General Event" "old" "old") 1000) [])
           "General Event"%string "UPS connected"%string "UPS connected"%string);
    [reflexivity | apply repeat_length].
Defined.

(** ** Hoare triples over the monitor monad *)

Lemma hoare_bind {A B} e P (m : M A) (f : A -> M B) Q R :
  hoare e P m Q -> (forall a, hoare e (Q a) (f a) R) -> hoare e P (bind m f) R.
Proof.
  intros Hm Hf s Hs. unfold bind. specialize (Hm s Hs).
  destruct (m e s) as [a s']. apply (Hf a s' Hm).
Qed.

Lemma hoare_conseq {A} e (P P' : AppState -> Prop) (m : M A) (Q Q' : A -> AppState -> Prop) :
  hoare e P' m Q' -> (forall s, P s -> P' s) -> (forall a s, Q' a s -> Q a s) ->
  hoare e P m Q.
Proof. intros H HP HQ s Hs. apply HQ, H, HP, Hs. Qed.

Lemma count_app p l1 l2 : count p (l1 ++ l2) = (count p l1 + count p l2)%nat.
Proof. unfold count. rewrite filter_app, length_app. reflexivity. Qed.

Lemma delta_ret {A} st (a : A) : Delta st (ret a) 0 0.
Proof. intros e c1 c2 s Hs. cbn. rewrite !Nat.add_0_r. exact Hs. Qed.

Lemma delta_bind {A B} st (m : M A) (f : A -> M B) d1 d2 d1' d2' :
  Delta st m d1 d2 -> (forall a, Delta st (f a) d1' d2') ->
  Delta st (bind m f) (d1 + d1') (d2 + d2').
Proof.
  intros Hm Hf e c1 c2. eapply hoare_bind; [apply Hm|].
  intros a. rewrite !Nat.add_assoc. apply Hf.
Qed.

Lemma delta_bind0 {A B} st (m : M A) (f : A -> M B) :
  Delta st m 0 0 -> (forall a, Delta st (f a) 0 0) -> Delta st (bind m f) 0 0.
Proof. intros Hm Hf. apply (delta_bind st m f 0 0 0 0 Hm Hf). Qed.

Lemma delta_conseq {A} st (m : M A) d1 d2 d1' d2' :
  Delta st m d1 d2 -> d1 = d1' -> d2 = d2' -> Delta st m d1' d2'.
Proof. intros H -> ->. exact H. Qed.

Lemma delta_get {B} st (f : AppState -> M B) d1 d2 :
  (forall s0, settings s0 = st -> Delta st (f s0) d1 d2) -> Delta st (bind get f) d1 d2.
Proof.
  intros Hf e c1 c2 s Hs. unfold bind, get. apply (Hf s (proj1 Hs) e c1 c2 s Hs).
Qed.

Lemma delta_ask {B} st (f : Env -> M B) d1 d2 :
  (forall e, Delta st (f e) d1 d2) -> Delta st (bind ask f) d1 d2.
Proof.
  intros Hf e c1 c2 s Hs. unfold bind, ask. apply (Hf e e c1 c2 s Hs).
Qed.

Lemma delta_if {A} st (b : bool) (m1 m2 : M A) d1 d2 :
  Delta st m1 d1 d2 -> Delta st m2 d1 d2 -> Delta st (if b then m1 else m2) d1 d2.
Proof. destruct b; auto. Qed.

Lemma delta_modify st f :
  (forall s, settings (f s) = settings s /\ trace (f s) = trace s) ->
  Delta st (modify f) 0 0.
Proof.
  intros Hf e c1 c2 s [H1 [H2 H3]]. unfold modify, Inv. cbn [fst snd].
  destruct (Hf s) as [-> ->]. rewrite !Nat.add_0_r. repeat split; assumption.
Qed.

Lemma delta_perform st eff :
  Delta st (perform eff) (if ac_fault_logged eff then 1 else 0)
                         (if ac_fault_alerted eff then 1 else 0).
Proof.
  intros e c1 c2 s [H1 [H2 H3]]. unfold perform, modify, Inv. cbn [fst snd].
  unfold set_trace; cbn [settings trace].
  rewrite !count_app, H2, H3. unfold count; cbn [filter].
  destruct (ac_fault_logged eff), (ac_fault_alerted eff); cbn [List.length];
    repeat split; auto.
Qed.

Lemma delta_perform0 st eff :
  ac_fault_logged eff = false -> ac_fault_alerted eff = false -> Delta st (perform eff) 0 0.
Proof.
  intros H1 H2. eapply delta_conseq; [apply delta_perform| |]; rewrite ?H1, ?H2; reflexivity.
Qed.

Lemma delta_log_event st cls nm rm :
  Delta st (log_event cls nm rm)
    (if monitor_only_mode st then 0 else if String.eqb nm "AC Fault" then 1 else 0) 0.
Proof.
  intros e c1 c2 s [H1 [H2 H3]]. pose proof (log_event_eq e s cls nm rm) as Heq.
  unfold run in Heq. rewrite Heq. cbn [fst snd]. rewrite H1.
  destruct (monitor_only_mode st).
  - rewrite !Nat.add_0_r. repeat split; assumption.
  - unfold Inv, set_trace, set_events; cbn [settings trace].
    rewrite !count_app, H2, H3. unfold truncate, MAX_EVENTS.
    change (N.to_nat 1000) with (S 999). rewrite firstn_cons.
    unfold count; cbn [filter ac_fault_logged ac_fault_alerted new_event name].
    destruct (String.eqb nm "AC Fault"); cbn [List.length]; repeat split; auto.
Qed.

Lemma delta_log_event0 st cls nm rm :
  String.eqb nm "AC Fault" = false -> Delta st (log_event cls nm rm) 0 0.
Proof.
  intros H. eapply delta_conseq; [apply delta_log_event| |reflexivity].
  rewrite H. destruct (monitor_only_mode st); reflexivity.
Qed.

Create HintDb delta_ops.
Create HintDb delta_ac.

Ltac delta0 :=
  repeat match goal with
  | |- Delta _ (bind get _) _ _ => apply delta_get; intros ? ?
  | |- Delta _ (bind ask _) _ _ => apply delta_ask; intros ?
  | |- Delta _ (bind _ _) 0 0 => apply delta_bind0; [|intros ?]
  | |- Delta _ (ret _) 0 0 => apply delta_ret
  | |- Delta _ (modify _) 0 0 => apply delta_modify; intros; split; reflexivity
  | |- Delta _ (perform _) 0 0 => apply delta_perform0; reflexivity
  | |- Delta _ (emit_if_possible _) 0 0 => apply delta_perform0; reflexivity
  | |- Delta _ (log_event _ _ _) 0 0 => apply delta_log_event0; reflexivity
  | |- Delta _ (if ?b then _ else _) _ _ => destruct b
  | |- Delta _ (match ?x with _ => _ end) _ _ => destruct x
  | |- Delta _ _ 0 0 => solve [eauto with delta_ops]
  | |- Delta _ _ _ _ => progress (cbv beta zeta)
  end.

Lemma delta_emit_error_once st msg : Delta st (emit_error_once msg) 0 0.
Proof. unfold emit_error_once. delta0. Qed.
#[export] Hint Resolve delta_emit_error_once : delta_ops.

Lemma delta_cancel st b : Delta st (cancel_scheduled_shutdown b) 0 0.
Proof. unfold cancel_scheduled_shutdown. delta0. Qed.
#[export] Hint Resolve delta_cancel : delta_ops.

Lemma delta_schedule st m r : Delta st (schedule_shutdown_after_minutes m r) 0 0.
Proof. unfold schedule_shutdown_after_minutes. delta0. Qed.
#[export] Hint Resolve delta_schedule : delta_ops.

Lemma delta_should_force_popup st : Delta st should_force_popup 0 0.
Proof. unfold should_force_popup. delta0. Qed.
#[export] Hint Resolve delta_should_force_popup : delta_ops.

Lemma delta_spawn st p a : Delta st (spawn p a) 0 0.
Proof. unfold spawn. delta0. Qed.
#[export] Hint Resolve delta_spawn : delta_ops.

Lemma delta_execute_shutdown_command st st' : Delta st (execute_shutdown_command st') 0 0.
Proof. unfold execute_shutdown_command. delta0. Qed.
#[export] Hint Resolve delta_execute_shutdown_command : delta_ops.

Lemma delta_process_pending_shutdown st st' : Delta st (process_pending_shutdown st') 0 0.
Proof. unfold process_pending_shutdown. delta0. Qed.
#[export] Hint Resolve delta_process_pending_shutdown : delta_ops.

Lemma delta_log_data_point st status : Delta st (log_data_point_if_needed status) 0 0.
Proof. unfold log_data_point_if_needed. delta0. Qed.
#[export] Hint Resolve delta_log_data_point : delta_ops.

Lemma delta_play_sound_other st kind r :
  kind <> AcFault -> Delta st (play_sound_with_generation kind r) 0 0.
Proof. intros Hk. unfold play_sound_with_generation. destruct kind; [congruence| |]; delta0. Qed.

Lemma delta_handle_alert_other st st' kind status :
  kind <> AcFault -> Delta st (handle_alert_transition st' kind status) 0 0.
Proof.
  intros Hk. unfold handle_alert_transition.
  destruct kind; [congruence| |]; delta0;
    apply delta_play_sound_other; discriminate.
Qed.
#[export] Hint Resolve delta_handle_alert_other : delta_ops.
#[export] Hint Extern 1 (_ <> _) => discriminate : delta_ops.

Ltac delta_gen :=
  repeat match goal with
  | |- Delta _ _ _ _ =>
      eapply (delta_conseq _ _ 0 0); [solve [delta0] | reflexivity | reflexivity]
  | |- Delta _ (bind get _) _ _ => apply delta_get; intros ? ?
  | |- Delta _ (bind ask _) _ _ => apply delta_ask; intros ?
  | |- Delta _ (bind _ _) _ _ => eapply delta_bind; [|intros ?]
  | |- Delta _ (perform _) _ _ => apply delta_perform
  | |- Delta _ (play_sound_with_generation _ _) _ _ => unfold play_sound_with_generation
  | |- Delta _ (log_event _ _ _) _ _ => apply delta_log_event
  | |- Delta _ (handle_alert_transition _ AcFault _) _ _ => solve [eauto with delta_ac]
  | |- Delta _ _ _ _ => progress (cbv beta zeta)
  end.

Lemma delta_handle_alert_ac st status :
  Delta st (handle_alert_transition st AcFault status) 0 (alert_dispatch_size st).
Proof.
  unfold handle_alert_transition, alert_dispatch_size.
  destruct (monitor_only_mode st); [apply delta_ret|].
  cbv zeta. cbn [alert_config_for_kind].
  destruct (enable_notifications st), (show_popup (ac_fault (alerts st))),
           (play_sound (ac_fault (alerts st)));
  cbv beta iota delta [andb];
  (eapply delta_conseq; [delta_gen| |]); reflexivity.
Qed.
#[export] Hint Resolve delta_handle_alert_ac : delta_ac.

Lemma delta_at {B} st (f : AppState -> M B) e c1 c2 s d1 d2 :
  Inv st c1 c2 s -> Delta st (f s) d1 d2 ->
  Inv st (c1 + d1) (c2 + d2) (snd (bind get f e s)).
Proof. intros Hs Hf. unfold bind, get. apply (Hf e c1 c2 s Hs). Qed.

(** One utility-fail snapshot: it adds one AC Fault log and one AC-fault
    alert dispatch when the UPS was not yet on battery (none in monitor-only
    mode), and nothing when it already was. *)
Lemma handle_fail_counts st e c1 c2 s status :
  Inv st c1 c2 s -> utility_fail (Types.status status) = true ->
  Inv st (c1 + (if is_on_battery s then 0 else if monitor_only_mode st then 0 else 1))
         (c2 + (if is_on_battery s then 0 else alert_dispatch_size st))
      (snd (run (handle_status_packet status) e s)).
Proof.
  intros Hs Hu. unfold run, handle_status_packet.
  apply delta_at; [exact Hs|].
  destruct Hs as [H1 _]. rewrite H1, Hu.
  destruct (is_on_battery s); cbv beta zeta iota delta [andb negb orb];
    (eapply delta_conseq; [delta_gen| |]); try reflexivity;
    cbn; lia.
Qed.

Lemma hoare_bind_true {A B} e (m : M A) (f : A -> M B) Q :
  (forall a, hoare e (fun _ => True) (f a) Q) -> hoare e (fun _ => True) (bind m f) Q.
Proof.
  intros Hf. eapply hoare_bind; [|exact Hf]. intros s _. exact I.
Qed.

Lemma log_data_point_keeps_battery status e s :
  is_on_battery (snd (run (log_data_point_if_needed status) e s)) = is_on_battery s.
Proof.
  unfold run, log_data_point_if_needed. cbn.
  destruct (save_history (settings s)); [|reflexivity]. cbn.
  destruct (_ <? _); reflexivity.
Qed.

(** After a snapshot the on-battery latch holds the snapshot's utility-fail bit. *)
Lemma handle_status_packet_latch status e s :
  is_on_battery (snd (run (handle_status_packet status) e s)) = utility_fail (Types.status status).
Proof.
  assert (H : hoare e (fun _ => True) (handle_status_packet status)
                (fun _ s' => is_on_battery s' = utility_fail (Types.status status))).
  { unfold handle_status_packet.
    repeat match goal with
    | |- hoare _ _ (bind (modify (set_is_on_battery _)) _) _ => fail 1
    | |- hoare _ (fun _ => True) (bind _ _) _ => apply hoare_bind_true; intros ?
    | |- hoare _ _ _ _ => progress (cbv beta zeta)
    end.
    eapply hoare_bind with (Q := fun _ s' => is_on_battery s' = utility_fail (Types.status status)).
    { intros s0 _. reflexivity. }
    intros _. eapply hoare_bind with (Q := fun _ s' => is_on_battery s' = utility_fail (Types.status status)).
    { intros s0 H0. exact H0. }
    intros _. eapply hoare_bind with (Q := fun _ s' => is_on_battery s' = utility_fail (Types.status status)).
    { intros s0 H0. pose proof (log_data_point_keeps_battery status e s0) as Hk.
      unfold run in Hk. rewrite Hk. exact H0. }
    intros _ s0 H0. exact H0. }
  exact (H s I).
Qed.

Lemma handle_packets_on_battery st ps : forall c1 c2 s,
  all_utility_fail ps -> is_on_battery s = true -> Inv st c1 c2 s ->
  Inv st c1 c2 (handle_packets ps s) /\ (ps <> [] -> is_on_battery (handle_packets ps s) = true).
Proof.
  induction ps as [|[e p] ps IH]; intros c1 c2 s Hall Hb Hs.
  - split; [exact Hs | congruence].
  - inversion Hall as [|? ? Hp Hrest]; subst. cbn [snd] in Hp.
    pose proof (handle_fail_counts st e c1 c2 s p Hs Hp) as H.
    rewrite Hb, !Nat.add_0_r in H.
    pose proof (handle_status_packet_latch p e s) as Hl. rewrite Hp in Hl.
    destruct (IH c1 c2 _ Hrest Hl H) as [H1 H2].
    split; [exact H1|]. intros _. cbn [handle_packets].
    destruct ps as [|p' ps']; [exact Hl|]. apply H2. congruence.
Qed.

(** C3 (corrected): from a state that is not on battery, a nonempty run of
    snapshots that all report a utility failure adds exactly one AC Fault
    event to the saved log and the alert effects of exactly one AC-fault
    dispatch when monitor-only mode is off, and none when it is on; in every
    case the count does not grow with the length of the run. *)
Theorem ac_fault_latch_edge_only ps s :
  ps <> [] -> all_utility_fail ps -> is_on_battery s = false ->
  count ac_fault_logged (trace (handle_packets ps s)) =
    (count ac_fault_logged (trace s) +
     if monitor_only_mode (settings s) then 0 else 1)%nat /\
  count ac_fault_alerted (trace (handle_packets ps s)) =
    (count ac_fault_alerted (trace s) + alert_dispatch_size (settings s))%nat.
Proof.
  intros Hne Hall Hb.
  destruct ps as [|[e p] ps]; [congruence|].
  inversion Hall as [|? ? Hp Hrest]; subst. cbn [snd] in Hp.
  assert (Hs : Inv (settings s) (count ac_fault_logged (trace s))
                 (count ac_fault_alerted (trace s)) s) by (repeat split).
  pose proof (handle_fail_counts _ e _ _ s p Hs Hp) as H. rewrite Hb in H.
  pose proof (handle_status_packet_latch p e s) as Hl. rewrite Hp in Hl.
  destruct (handle_packets_on_battery _ ps _ _ _ Hrest Hl H) as [[_ [H1 H2]] _].
  cbn [handle_packets]. split; assumption.
Qed.

Lemma ac_fault_latch_edge_only_witness :
  let ps := [(quiet_env 1000, on_battery_snapshot); (quiet_env 2000, on_battery_snapshot);
             (quiet_env 3000, on_battery_snapshot)] in
  let s := app_state_new default_settings [] [] in
  (ps <> [] /\ all_utility_fail ps /\ is_on_battery s = false) /\
  count ac_fault_logged (trace (handle_packets ps s)) =
    (count ac_fault_logged (trace s) +
     if monitor_only_mode (settings s) then 0 else 1)%nat /\
  count ac_fault_alerted (trace (handle_packets ps s)) =
    (count ac_fault_alerted (trace s) + alert_dispatch_size (settings s))%nat.
Proof.
  intros ps s.
  assert (Hpre : ps <> [] /\ all_utility_fail ps /\ is_on_battery s = false).
  { split; [discriminate|]. split; [|reflexivity].
    repeat constructor. }
  split; [exact Hpre|].
  destruct Hpre as [H1 [H2 H3]].
  exact (ac_fault_latch_edge_only ps s H1 H2 H3).
Defined.

(** C3 counterexample: in monitor-only mode a run of utility-fail snapshots
    from a state not on battery logs no AC Fault event at all. *)
Lemma ac_fault_latch_monitor_only_logs_nothing :
  let s := app_state_new noisy_monitor_only [] [] in
  is_on_battery s = false /\
  count ac_fault_logged
    (trace (handle_packets [(quiet_env 1000, on_battery_snapshot)] s)) = 0%nat /\
  count ac_fault_alerted
    (trace (handle_packets [(quiet_env 1000, on_battery_snapshot)] s)) = 0%nat.
Proof. vm_compute. repeat split. Qed.

Lemma run_bind {A B} (m : M A) (f : A -> M B) e s :
  run (bind m f) e s = run (f (fst (run m e s))) e (snd (run m e s)).
Proof. unfold run, bind. destruct (m e s). reflexivity. Qed.
Lemma run_ret {A} (a : A) e s : run (ret a) e s = (a, s).
Proof. reflexivity. Qed.
Lemma run_get e s : run get e s = (s, s).
Proof. reflexivity. Qed.
Lemma run_ask e s : run ask e s = (e, s).
Proof. reflexivity. Qed.
Lemma run_modify f e s : run (modify f) e s = (tt, f s).
Proof. reflexivity. Qed.
Lemma run_perform eff e s : run (perform eff) e s = (tt, set_trace (trace s ++ [eff]) s).
Proof. reflexivity. Qed.

Ltac run_simpl :=
  repeat (rewrite ?run_bind, ?run_ret, ?run_get, ?run_ask, ?run_modify, ?run_perform;
          cbn beta iota zeta delta [fst snd]).

Lemma log_data_point_frame p e s :
  exists dh l t, snd (run (log_data_point_if_needed p) e s) =
                 set_trace t (set_data_history dh (set_last_data_save_ms l s)).
Proof.
  unfold run, log_data_point_if_needed, bind, get, ask, ret, modify, perform. cbn.
  destruct (save_history (settings s)); cbn.
  - destruct (_ <? _); cbn.
    + exists (data_history s), (last_data_save_ms s), (trace s). destruct s; reflexivity.
    + eexists _, _, _. reflexivity.
  - exists (data_history s), (last_data_save_ms s), (trace s). destruct s; reflexivity.
Qed.

Lemma cancel_frame b e s :
  let s' := snd (run (cancel_scheduled_shutdown b) e s) in
  scheduled_shutdown_at_ms s' = None /\ scheduled_shutdown_reason s' = None /\
  settings s' = settings s /\ events s' = events s /\
  battery_start_ms s' = battery_start_ms s /\ was_battery_low s' = was_battery_low s /\
  was_battery_critical s' = was_battery_critical s /\
  sound_generation s' = sound_generation s /\ is_on_battery s' = is_on_battery s.
Proof.
  cbv zeta. rewrite cancel_scheduled_shutdown_eq. cbn [snd].
  destruct (scheduled_shutdown_at_ms s); [destruct b|]; cbn; repeat split.
Qed.

Lemma log_event_frame e s cls nm rm :
  let s' := snd (run (log_event cls nm rm) e s) in
  events s' = (if monitor_only_mode (settings s) then events s
               else truncate MAX_EVENTS (new_event e cls nm rm :: events s)) /\
  scheduled_shutdown_at_ms s' = scheduled_shutdown_at_ms s /\
  scheduled_shutdown_reason s' = scheduled_shutdown_reason s /\
  settings s' = settings s /\
  battery_start_ms s' = battery_start_ms s /\ was_battery_low s' = was_battery_low s /\
  was_battery_critical s' = was_battery_critical s /\
  sound_generation s' = sound_generation s /\ is_on_battery s' = is_on_battery s.
Proof.
  cbv zeta. rewrite log_event_eq. cbn [snd].
  destruct (monitor_only_mode (settings s)); cbn; repeat split.
Qed.

Lemma handle_restore_steps p e s :
  is_on_battery s = true -> utility_fail (Types.status p) = false ->
  let s1 := set_was_battery_critical false (set_was_battery_low false (set_battery_start_ms None s)) in
  exists s2 s3 s6 s8,
    s2 = snd (run (log_event "General Event" "Normal AC value" "Normal AC value") e s1) /\
    s3 = snd (run (cancel_scheduled_shutdown true) e s2) /\
    s6 = snd (run (process_pending_shutdown (settings s)) e
               (set_was_battery_critical false (set_was_battery_low false
                  (set_sound_generation (wrap_add (sound_generation s3) 1) s3)))) /\
    s8 = snd (run (log_data_point_if_needed p) e
               (set_last_status (Some p) (set_is_on_battery false s6))) /\
    snd (run (handle_status_packet p) e s) = set_trace (trace s8 ++ [Emit "ups-data"]) s8.
Proof.
  intros Hb Hu s1. do 4 eexists. split; [reflexivity|]. split; [reflexivity|].
  split; [reflexivity|]. split; [reflexivity|].
  unfold handle_status_packet. run_simpl.
  rewrite Hb, Hu. cbn [andb negb]. run_simpl.
  unfold emit_if_possible. rewrite run_perform. reflexivity.
Qed.

(** C4 (corrected): on a state that is on battery, a snapshot without a
    utility failure clears the battery timer and both battery latches,
    clears the pending shutdown deadline and its reason, bumps the sound
    generation token by one (wrapping) and leaves the on-battery latch off;
    the "Normal AC value" event is put at the head of the log only when
    monitor-only mode is off, and the log is unchanged when it is on. *)
Theorem ac_restore_clears_state p e s :
  is_on_battery s = true -> utility_fail (Types.status p) = false ->
  let s' := snd (run (handle_status_packet p) e s) in
  battery_start_ms s' = None /\ was_battery_low s' = false /\
  was_battery_critical s' = false /\
  scheduled_shutdown_at_ms s' = None /\ scheduled_shutdown_reason s' = None /\
  sound_generation s' = wrap_add (sound_generation s) 1 /\
  events s' = (if monitor_only_mode (settings s) then events s
               else truncate MAX_EVENTS
                      (new_event e "General Event" "Normal AC value" "Normal AC value"
                       :: events s)) /\
  is_on_battery s' = false.
Proof.
  intros Hb Hu.
  destruct (handle_restore_steps p e s Hb Hu) as (s2 & s3 & s6 & s8 & E2 & E3 & E6 & E8 & ->).
  cbv zeta.
  destruct (log_data_point_frame p e (set_last_status (Some p) (set_is_on_battery false s6)))
    as (dh & l & t & E8').
  rewrite <- E8 in E8'. rewrite E8'. cbn -[wrap_add truncate].
  destruct (cancel_frame true e s2) as (At3 & Re3 & St3 & Ev3 & Bs3 & Lo3 & Cr3 & Sg3 & Ob3).
  rewrite <- E3 in *.
  rewrite process_pending_shutdown_idle in E6 by (cbn; exact At3).
  cbn [snd] in E6. subst s6. cbn -[wrap_add truncate].
  destruct (log_event_frame e (set_was_battery_critical false (set_was_battery_low false (set_battery_start_ms None s)))
              "General Event" "Normal AC value" "Normal AC value")
    as (Ev2 & At2 & Re2 & St2 & Bs2 & Lo2 & Cr2 & Sg2 & Ob2).
  rewrite <- E2 in *. cbn -[wrap_add truncate] in *.
  rewrite At3, Re3, Sg3, Sg2, Ev3, Ev2, Bs3, Bs2.
  repeat split.
Qed.

Lemma ac_restore_clears_state_witness :
  is_on_battery (set_is_on_battery true
             (set_scheduled_shutdown_at_ms (Some 5000)
                (set_scheduled_shutdown_reason (Some "ac-fault"%string)
                   (app_state_new default_settings [] [])))) = true /\
  utility_fail (Types.status ac_restored_snapshot) = false /\
  let s := set_is_on_battery true
             (set_scheduled_shutdown_at_ms (Some 5000)
                (set_scheduled_shutdown_reason (Some "ac-fault"%string)
                   (app_state_new default_settings [] []))) in
  let e := quiet_env 1000 in
  let s' := snd (run (handle_status_packet ac_restored_snapshot) e s) in
  battery_start_ms s' = None /\ was_battery_low s' = false /\
  was_battery_critical s' = false /\
  scheduled_shutdown_at_ms s' = None /\ scheduled_shutdown_reason s' = None /\
  sound_generation s' = wrap_add (sound_generation s) 1 /\
  events s' = (if monitor_only_mode (settings s) then events s
               else truncate MAX_EVENTS
                      (new_event e "General Event" "Normal AC value" "Normal AC value"
                       :: events s)) /\
  is_on_battery s' = false.
Proof.
  split; [reflexivity|]. split; [reflexivity|].
  apply ac_restore_clears_state; reflexivity.
Defined.

(** C4 counterexample: in monitor-only mode the return to AC power logs
    nothing; the event log is left as it was. *)
Lemma ac_restore_monitor_only_logs_nothing :
  is_on_battery (set_is_on_battery true (app_state_new noisy_monitor_only [] [])) = true /\
  events (set_is_on_battery true (app_state_new noisy_monitor_only [] [])) = [] /\
  events (snd (run (handle_status_packet ac_restored_snapshot) (quiet_env 1000)
                 (set_is_on_battery true (app_state_new noisy_monitor_only [] [])))) = [].
Proof. vm_compute. repeat split. Qed.

Lemma execute_shutdown_command_eq st e s :
  exists prog args,
    run (execute_shutdown_command st) e s =
    (fst (run (execute_shutdown_command st) e s), set_trace (trace s ++ [Spawn prog args]) s).
Proof.
  unfold execute_shutdown_command, spawn.
  destruct (negb _); [|destruct (String.eqb _ _)]; run_simpl; eexists _, _; reflexivity.
Qed.

Lemma should_force_popup_frame e s :
  let s' := snd (run should_force_popup e s) in
  scheduled_shutdown_at_ms s' = scheduled_shutdown_at_ms s /\
  scheduled_shutdown_reason s' = scheduled_shutdown_reason s /\
  last_error s' = last_error s /\ trace s' = trace s /\ settings s' = settings s.
Proof.
  unfold should_force_popup. run_simpl.
  destruct (_ <? _); [|destruct (window_visible_focused e)]; run_simpl; cbn; repeat split.
Qed.

Lemma process_pending_due_steps st e s ts :
  monitor_only_mode st = false ->
  scheduled_shutdown_at_ms s = Some ts -> ts <= now_ms e ->
  exists s1, scheduled_shutdown_at_ms s1 = None /\ scheduled_shutdown_reason s1 = None /\
    last_error s1 = last_error s /\
    run (process_pending_shutdown st) e s =
    run (r <- execute_shutdown_command st ;; report_failure r) e s1.
Proof.
  intros Hm Hat Hle. unfold process_pending_shutdown. rewrite Hm. run_simpl.
  rewrite Hat. apply N.leb_le in Hle. rewrite Hle. cbn [negb]. run_simpl.
  match goal with |- context [run (execute_shutdown_command st) e ?S] => exists S end.
  split; [|split; [|split]].
  4: { rewrite run_bind. reflexivity. }
  all: rewrite log_event_eq; cbn -[run truncate];
       match goal with |- context [if monitor_only_mode ?x then _ else _] =>
         destruct (monitor_only_mode x) end; cbn -[run truncate].
  all: match goal with |- context [run should_force_popup ?ee ?W] =>
         destruct (should_force_popup_frame ee W) as (A & B & C & _ & _);
         destruct (fst (run should_force_popup ee W)) end.
  all: run_simpl; cbn -[run truncate]; rewrite ?A, ?B, ?C; cbn -[run truncate].
  all: destruct (cancel_frame false e s) as (A3 & B3 & _).
  all: first [ exact A3 | exact B3
             | rewrite cancel_scheduled_shutdown_eq; cbn -[run];
               destruct (scheduled_shutdown_at_ms s); reflexivity ].
Qed.

Lemma execute_shutdown_command_result st e s s' :
  fst (run (execute_shutdown_command st) e s) = fst (run (execute_shutdown_command st) e s').
Proof.
  unfold execute_shutdown_command, spawn.
  destruct (negb _); [|destruct (String.eqb _ _)]; run_simpl; reflexivity.
Qed.

(** C8: when the scheduled deadline is due, the schedule (deadline and
    reason) is already cleared in the state from which the shutdown command
    is run, and it stays cleared whatever the command returns; a failure is
    stored as the last error and emitted as "ups-error" only when it differs
    from the last reported message; and no later tick, at any time and with
    any settings, runs the shutdown again. *)
Theorem due_shutdown_cleared_and_not_retried st e s ts :
  monitor_only_mode st = false ->
  scheduled_shutdown_at_ms s = Some ts -> ts <= now_ms e ->
  let r := run (process_pending_shutdown st) e s in
  let err := fst (run (execute_shutdown_command st) e s) in
  exists s1,
    scheduled_shutdown_at_ms s1 = None /\ scheduled_shutdown_reason s1 = None /\
    last_error s1 = last_error s /\
    r = run (x <- execute_shutdown_command st ;; report_failure x) e s1 /\
    scheduled_shutdown_at_ms (snd r) = None /\ scheduled_shutdown_reason (snd r) = None /\
    last_error (snd r) = (match err with Some m => Some m | None => last_error s end) /\
    count ups_error_emitted (trace (snd r)) =
      (count ups_error_emitted (trace s1) +
       match err with
       | Some m => match last_error s with
                   | Some m' => if String.eqb m' m then 0 else 1
                   | None => 1
                   end
       | None => 0
       end)%nat /\
    (forall st' e', run (process_pending_shutdown st') e' (snd r) = (tt, snd r)).
Proof.
  intros Hm Hat Hle r err.
  destruct (process_pending_due_steps st e s ts Hm Hat Hle) as (s1 & A1 & B1 & C1 & E1).
  exists s1. subst r. rewrite E1.
  assert (Hrest : scheduled_shutdown_at_ms (snd (run (x <- execute_shutdown_command st ;; report_failure x) e s1)) = None /\
    scheduled_shutdown_reason (snd (run (x <- execute_shutdown_command st ;; report_failure x) e s1)) = None /\
    last_error (snd (run (x <- execute_shutdown_command st ;; report_failure x) e s1)) =
      (match err with Some m => Some m | None => last_error s end) /\
    count ups_error_emitted (trace (snd (run (x <- execute_shutdown_command st ;; report_failure x) e s1))) =
      (count ups_error_emitted (trace s1) +
       match err with
       | Some m => match last_error s with
                   | Some m' => if String.eqb m' m then 0 else 1
                   | None => 1
                   end
       | None => 0
       end)%nat).
  { rewrite run_bind.
    destruct (execute_shutdown_command_eq st e s1) as (prog & args & Ex). rewrite Ex.
    cbn [fst snd].
    rewrite (execute_shutdown_command_result st e s1 s). subst err.
    destruct (fst (run (execute_shutdown_command st) e s)) as [m|]; cbn [report_failure].
    - unfold emit_error_once, emit_if_possible. run_simpl. cbn -[run count].
      rewrite C1. destruct (last_error s) as [m'|].
      + destruct (String.eqb m' m) eqn:Eq; run_simpl; cbn -[count].
        * apply String.eqb_eq in Eq. subst m'.
          rewrite A1, B1, count_app. cbn. repeat split; try assumption; lia.
        * rewrite A1, B1, !count_app. cbn. repeat split; try assumption; lia.
      + run_simpl. cbn -[count]. rewrite A1, B1, !count_app. cbn. repeat split; try assumption; lia.
    - run_simpl. cbn -[count]. rewrite A1, B1, C1, count_app. cbn. repeat split; try assumption; lia. }
  destruct Hrest as (A2 & B2 & C2 & D2).
  repeat split; try assumption.
  intros st' e'. apply process_pending_shutdown_idle. exact A2.
Qed.

Lemma due_shutdown_cleared_and_not_retried_witness :
  (monitor_only_mode default_settings = false /\
   scheduled_shutdown_at_ms due_state = Some 1000 /\ 1000 <= now_ms (failing_env 2000)) /\
  let r := run (process_pending_shutdown default_settings) (failing_env 2000) due_state in
  let err := fst (run (execute_shutdown_command default_settings) (failing_env 2000) due_state) in
  exists s1,
    scheduled_shutdown_at_ms s1 = None /\ scheduled_shutdown_reason s1 = None /\
    last_error s1 = last_error due_state /\
    r = run (x <- execute_shutdown_command default_settings ;; report_failure x) (failing_env 2000) s1 /\
    scheduled_shutdown_at_ms (snd r) = None /\ scheduled_shutdown_reason (snd r) = None /\
    last_error (snd r) = (match err with Some m => Some m | None => last_error due_state end) /\
    count ups_error_emitted (trace (snd r)) =
      (count ups_error_emitted (trace s1) +
       match err with
       | Some m => match last_error due_state with
                   | Some m' => if String.eqb m' m then 0 else 1
                   | None => 1
                   end
       | None => 0
       end)%nat /\
    (forall st' e', run (process_pending_shutdown st') e' (snd r) = (tt, snd r)).
Proof.
  assert (H1 : monitor_only_mode default_settings = false) by reflexivity.
  assert (H2 : scheduled_shutdown_at_ms due_state = Some 1000) by reflexivity.
  assert (H3 : 1000 <= now_ms (failing_env 2000)) by (cbn; lia).
  split; [split; [exact H1 | split; [exact H2 | exact H3]]|].
  exact (due_shutdown_cleared_and_not_retried default_settings (failing_env 2000) due_state 1000 H1 H2 H3).
Defined.

Lemma parse_ups_string_restamp t t' x :
  Decoder.parse_ups_string t x = restamp t (Decoder.parse_ups_string t' x).
Proof.
  unfold Decoder.parse_ups_string. destruct x as [|c x']; [reflexivity|].
  destruct c as [[] [] [] [] [] [] [] []];
  lazymatch goal with
  | |- context [if ?c then _ else _] => destruct c; reflexivity
  end.
Qed.

(** C2 (corrected): the decoder reads the wall clock: the results of two
    decodings of the same bytes agree in everything except the timestamp of a
    status snapshot, and that timestamp is the clock reading of the call; a
    version string or [None] is the same in both. *)
Theorem decode_packet_pure_but_for_clock t1 t2 b :
  Decoder.decode_packet t2 b = restamp t2 (Decoder.decode_packet t1 b) /\
  (forall u, Decoder.decode_packet t1 b = Some (Status u) -> timestamp u = t1) /\
  (forall v, Decoder.decode_packet t1 b = Some (Version v) ->
             Decoder.decode_packet t2 b = Some (Version v)) /\
  (Decoder.decode_packet t1 b = None -> Decoder.decode_packet t2 b = None).
Proof.
  assert (E : forall t t', Decoder.decode_packet t b = restamp t (Decoder.decode_packet t' b)).
  { intros t t'. unfold Decoder.decode_packet. destruct b; [reflexivity|].
    apply parse_ups_string_restamp. }
  split; [apply E|]. split; [|split].
  - intros u H. pose proof (E t1 t1) as E1. rewrite H in E1.
    apply (f_equal packet_timestamp) in E1. cbn in E1. injection E1 as E1. exact E1.
  - intros v H. rewrite (E t2 t1), H. reflexivity.
  - intros H. rewrite (E t2 t1), H. reflexivity.
Qed.

(** C2 counterexample: the same status frame decoded at two clock readings
    gives two different snapshots. *)
Lemma decode_packet_depends_on_clock :
  Decoder.decode_packet "2026-01-01T00:00:00+00:00" status_frame <>
  Decoder.decode_packet "2026-01-01T00:00:01+00:00" status_frame.
Proof.
  intro H. apply (f_equal packet_timestamp) in H. vm_compute in H. discriminate H.
Qed.

(** ** Facts on binary64 rounding and the battery percentage *)
Module FloatFacts.
Import FloatSem Decoder.
Local Open Scope R_scope.

Lemma bpow_pos e : 0 < bpow e.
Proof. apply powerRZ_lt. lra. Qed.

Lemma bpow_plus a b : bpow (a + b) = bpow a * bpow b.
Proof. unfold bpow. apply powerRZ_add. lra. Qed.

Lemma bpow_nat (n : nat) : bpow (Z.of_nat n) = IZR (2 ^ Z.of_nat n).
Proof. unfold bpow. rewrite <- pow_powerRZ, pow_IZR. reflexivity. Qed.

Lemma bpow_IZR e : (0 <= e)%Z -> bpow e = IZR (2 ^ e).
Proof. intros H. rewrite <- (Z2Nat.id e H). apply bpow_nat. Qed.

Lemma bpow_1 : bpow 1 = 2.
Proof. rewrite bpow_IZR by lia. reflexivity. Qed.

Lemma bpow_succ e : bpow (e + 1) = 2 * bpow e.
Proof. rewrite bpow_plus, bpow_1. ring. Qed.

Lemma bpow_ge1 e : (0 <= e)%Z -> 1 <= bpow e.
Proof.
  intros H. rewrite bpow_IZR by exact H. apply IZR_le.
  pose proof (Z.pow_pos_nonneg 2 e). lia.
Qed.

Lemma bpow_le a b : (a <= b)%Z -> bpow a <= bpow b.
Proof.
  intros H. replace b with (a + (b - a))%Z by lia. rewrite bpow_plus.
  pose proof (bpow_pos a). pose proof (bpow_ge1 (b - a) ltac:(lia)). nra.
Qed.

Lemma loc_of_shr_record_of_loc m l : loc_of_shr_record (shr_record_of_loc m l) = l.
Proof. destruct l as [|[| |]]; reflexivity. Qed.

Lemma shr_m_of_loc m l : shr_m (shr_record_of_loc m l) = m.
Proof. destruct l as [|[| |]]; reflexivity. Qed.

Lemma div_bpow_succ x e : x / bpow (e + 1) = (x / bpow e) / 2.
Proof.
  rewrite bpow_succ. pose proof (bpow_pos e). field. lra.
Qed.

Lemma shr_1_desc r e x :
  (0 <= shr_m r)%Z -> rdesc r e x -> rdesc (shr_1 r) (e + 1) x /\ (0 <= shr_m (shr_1 r))%Z.
Proof.
  destruct r as [m rb sb]. unfold rdesc, describes. cbn [shr_m]. intros Hm.
  rewrite div_bpow_succ. generalize (x / bpow e). intros y.
  destruct m as [|p|p]; [|destruct p as [p|p|]|lia];
    destruct rb, sb; cbn [shr_1 shr_m shr_r shr_s orb loc_of_shr_record describes_u];
    try rewrite (Pos2Z.inj_xI p) in *; try rewrite (Pos2Z.inj_xO p) in *;
    rewrite ?plus_IZR, ?mult_IZR in *; intros H; split; try lia;
    try (pose proof (IZR_le 0 _ (Pos2Z.is_nonneg p)));
    repeat match goal with H : _ /\ _ |- _ => destruct H end;
    repeat split; simpl IZR in *; lra.
Qed.

Lemma iter_shr_1_desc p : forall r e x,
  (0 <= shr_m r)%Z -> rdesc r e x ->
  rdesc (SpecFloat.iter_pos shr_1 p r) (e + Zpos p) x /\
  (0 <= shr_m (SpecFloat.iter_pos shr_1 p r))%Z.
Proof.
  induction p as [p IH|p IH|]; intros r e x Hm H; cbn [SpecFloat.iter_pos].
  - destruct (shr_1_desc r e x Hm H) as [H1 Hm1].
    destruct (IH _ _ _ Hm1 H1) as [H2 Hm2].
    destruct (IH _ _ _ Hm2 H2) as [H3 Hm3].
    replace (e + Zpos p~1)%Z with (e + 1 + Zpos p + Zpos p)%Z by lia. split; assumption.
  - destruct (IH _ _ _ Hm H) as [H2 Hm2].
    destruct (IH _ _ _ Hm2 H2) as [H3 Hm3].
    replace (e + Zpos p~0)%Z with (e + Zpos p + Zpos p)%Z by lia. split; assumption.
  - apply shr_1_desc; assumption.
Qed.

Lemma shr_desc r e n x :
  (0 <= shr_m r)%Z -> rdesc r e x -> (0 <= n)%Z ->
  rdesc (fst (shr r e n)) (snd (shr r e n)) x /\ snd (shr r e n) = (e + n)%Z /\
  (0 <= shr_m (fst (shr r e n)))%Z.
Proof.
  intros Hm H Hn. destruct n as [|p|p]; cbn [shr fst snd].
  - rewrite Z.add_0_r. auto.
  - destruct (iter_shr_1_desc p r e x Hm H). auto.
  - lia.
Qed.

Lemma digits2_pos_bounds p :
  (2 ^ (Zpos (digits2_pos p) - 1) <= Zpos p < 2 ^ Zpos (digits2_pos p))%Z.
Proof.
  induction p as [p IH|p IH|]; cbn [digits2_pos]; [| |cbn; lia];
    rewrite Pos2Z.inj_succ; [rewrite (Pos2Z.inj_xI p)|rewrite (Pos2Z.inj_xO p)];
    set (d := Zpos (digits2_pos p)) in *;
    assert (Hd : (1 <= d)%Z) by (unfold d; lia);
    assert (E1 : (2 ^ d = 2 * 2 ^ (d - 1))%Z)
      by (rewrite <- Z.pow_succ_r by lia; f_equal; lia);
    assert (E2 : (2 ^ Z.succ d = 2 * 2 ^ d)%Z) by (apply Z.pow_succ_r; lia);
    replace (Z.succ d - 1)%Z with d by lia; lia.
Qed.

Lemma digits2_pos_unique p k :
  (1 <= k)%Z -> (2 ^ (k - 1) <= Zpos p < 2 ^ k)%Z -> Zpos (digits2_pos p) = k.
Proof.
  intros Hk [H1 H2]. pose proof (digits2_pos_bounds p) as [B1 B2].
  set (d := Zpos (digits2_pos p)) in *.
  assert (Hd : (1 <= d)%Z) by (unfold d; lia).
  destruct (Z.lt_trichotomy d k) as [Hlt|[Heq|Hgt]]; [|exact Heq|].
  - pose proof (Z.pow_le_mono_r 2 d (k - 1) ltac:(lia) ltac:(lia)). lia.
  - pose proof (Z.pow_le_mono_r 2 k (d - 1) ltac:(lia) ltac:(lia)). lia.
Qed.

Lemma fexp_normal D :
  (-1000 <= D)%Z -> fexp FloatOps.prec FloatOps.emax D = (D - 53)%Z.
Proof. intros H. cbv [fexp emin FloatOps.prec FloatOps.emax]. lia. Qed.

Lemma describes_bounds m e l x :
  describes m e l x -> IZR m * bpow e <= x < (IZR m + 1) * bpow e.
Proof.
  unfold describes, describes_u. pose proof (bpow_pos e) as He.
  intros H. assert (Hx : x = (x / bpow e) * bpow e) by (field; lra).
  rewrite Hx. destruct l as [|c].
  - rewrite H. nra.
  - destruct H as [[H1 H2] _]. split; nra.
Qed.

Lemma IZR_pow2 k : (0 <= k)%Z -> IZR (2 ^ k) = bpow k.
Proof. intros H. rewrite bpow_IZR by exact H. reflexivity. Qed.

(** A positive [m * 2^e] with its location lies in the binade of its digits. *)
Lemma describes_binade m e l x :
  (0 < m)%Z -> describes m e l x ->
  bpow (Zdigits2 m + e - 1) <= x < bpow (Zdigits2 m + e).
Proof.
  intros Hm H. destruct m as [|p|p]; [lia| |lia]. cbn [Zdigits2].
  pose proof (digits2_pos_bounds p) as [B1 B2].
  pose proof (describes_bounds _ _ _ _ H) as [H1 H2].
  pose proof (bpow_pos e) as He.
  apply IZR_le in B1. apply Z.le_succ_l in B2. apply IZR_le in B2.
  rewrite succ_IZR in B2.
  rewrite !IZR_pow2 in * by lia.
  replace (Zpos (digits2_pos p) + e - 1)%Z with ((Zpos (digits2_pos p) - 1) + e)%Z by lia.
  rewrite !bpow_plus. split; nra.
Qed.

Lemma rdesc_of_loc m e l x : describes m e l x -> rdesc (shr_record_of_loc m l) e x.
Proof. unfold rdesc. rewrite loc_of_shr_record_of_loc, shr_m_of_loc. auto. Qed.

Lemma round_nearest_even_cases m l :
  round_nearest_even m l = m \/ round_nearest_even m l = (m + 1)%Z.
Proof.
  destruct l as [|[| |]]; cbn; auto. destruct (Z.even m); auto.
Qed.

(** Rounding a positive value in the normal range: the value is first
    located against the 53-bit grid of its binade, then rounded to nearest
    even; a carry to [2^53] is renormalised without changing the value. *)
Lemma round_aux_normal m e l x :
  (0 < m)%Z -> describes m e l x ->
  (-1000 <= Zdigits2 m + e <= 1000)%Z -> (e <= Zdigits2 m + e - 53)%Z ->
  exists m' l',
    describes m' (Zdigits2 m + e - 53) l' x /\
    (2 ^ 52 <= m' < 2 ^ 53)%Z /\
    (exists p e', binary_round_aux FloatOps.prec FloatOps.emax false m e l = S754_finite false p e') /\
    val (binary_round_aux FloatOps.prec FloatOps.emax false m e l) =
      IZR (round_nearest_even m' l') * bpow (Zdigits2 m + e - 53).
Proof.
  intros Hm H HD He.
  pose proof (describes_binade m e l x Hm H) as [X1 X2].
  set (D := (Zdigits2 m + e)%Z) in *.
  unfold binary_round_aux.
  destruct (shr_fexp FloatOps.prec FloatOps.emax m e l) as [r1 e1] eqn:E1.
  unfold shr_fexp in E1. fold D in E1. rewrite fexp_normal in E1 by lia.
  destruct (shr_desc (shr_record_of_loc m l) e (D - 53 - e) x)
    as [R1 [R2 R3]]; [rewrite shr_m_of_loc; lia|apply rdesc_of_loc, H|lia|].
  rewrite E1 in R1, R2, R3. cbn [fst snd] in R1, R2, R3.
  replace (e + (D - 53 - e))%Z with (D - 53)%Z in R2 by lia. subst e1.
  set (E := (D - 53)%Z) in *.
  exists (shr_m r1), (loc_of_shr_record r1).
  pose proof (describes_bounds _ _ _ _ R1) as [B1 B2].
  pose proof (bpow_pos E) as HE.
  assert (HD1 : bpow (D - 1) = IZR (2 ^ 52) * bpow E)
    by (rewrite IZR_pow2 by lia; rewrite <- bpow_plus; f_equal; unfold E; lia).
  assert (HD2 : bpow D = IZR (2 ^ 53) * bpow E)
    by (rewrite IZR_pow2 by lia; rewrite <- bpow_plus; f_equal; unfold E; lia).
  assert (M1 : (2 ^ 52 <= shr_m r1)%Z).
  { apply Z.lt_pred_le. apply lt_IZR. rewrite <- Z.sub_1_r, minus_IZR. nra. }
  assert (M2 : (shr_m r1 < 2 ^ 53)%Z) by (apply lt_IZR; nra).
  split; [exact R1|]. split; [lia|].
  set (m'' := round_nearest_even (shr_m r1) (loc_of_shr_record r1)).
  assert (M3 : (2 ^ 52 <= m'' <= 2 ^ 53)%Z)
    by (destruct (round_nearest_even_cases (shr_m r1) (loc_of_shr_record r1)) as [Q|Q];
        unfold m''; rewrite Q; lia).
  destruct (Z.eq_dec m'' (2 ^ 53)) as [Q|Q].
  - rewrite Q. unfold shr_fexp.
    replace (Zdigits2 (2 ^ 53)) with 54%Z by reflexivity.
    rewrite fexp_normal by (unfold E, D in *; lia).
    replace (54 + E - 53 - E)%Z with 1%Z by lia.
    change (2 ^ 53)%Z with 9007199254740992%Z.
    cbn [shr SpecFloat.iter_pos shr_1 shr_record_of_loc fst snd shr_m orb].
    replace (Z.leb (E + 1) (FloatOps.emax - FloatOps.prec)) with true
      by (symmetry; apply Z.leb_le; cbv [FloatOps.emax FloatOps.prec]; unfold E, D in *; lia).
    split; [eexists _, _; reflexivity|].
    cbn [val]. rewrite bpow_succ.
    replace (IZR 9007199254740992) with (2 * IZR 4503599627370496)
      by (rewrite <- mult_IZR; reflexivity).
    ring.
  - destruct m'' as [|p|p] eqn:Em; [lia| |lia].
    assert (Dg : Zpos (digits2_pos p) = 53%Z) by (apply digits2_pos_unique; lia).
    unfold shr_fexp. cbn [Zdigits2]. rewrite Dg, fexp_normal by (unfold E, D in *; lia).
    replace (53 + E - 53 - E)%Z with 0%Z by lia. cbn [shr fst snd shr_record_of_loc shr_m].
    replace (Z.leb E (FloatOps.emax - FloatOps.prec)) with true
      by (symmetry; apply Z.leb_le; cbv [FloatOps.emax FloatOps.prec]; unfold E, D in *; lia).
    split; [eexists _, _; reflexivity|reflexivity].
Qed.

Lemma round_nearest_even_ge m l : (m <= round_nearest_even m l)%Z.
Proof. destruct (round_nearest_even_cases m l) as [Q|Q]; rewrite Q; lia. Qed.

Lemma round_nearest_even_le m l : (round_nearest_even m l <= m + 1)%Z.
Proof. destruct (round_nearest_even_cases m l) as [Q|Q]; rewrite Q; lia. Qed.

(** Rounding to nearest even on one grid is monotone. *)
Lemma round_nearest_even_mono m1 l1 x1 m2 l2 x2 E :
  describes m1 E l1 x1 -> describes m2 E l2 x2 -> x1 <= x2 ->
  (round_nearest_even m1 l1 <= round_nearest_even m2 l2)%Z.
Proof.
  unfold describes. intros H1 H2 Hx.
  assert (Hy : x1 / bpow E <= x2 / bpow E)
    by (unfold Rdiv; apply Rmult_le_compat_r; [apply Rlt_le, Rinv_0_lt_compat, bpow_pos|exact Hx]).
  revert H1 H2 Hy. generalize (x1 / bpow E) (x2 / bpow E). intros y1 y2 H1 H2 Hy.
  assert (B1 : IZR m1 <= y1 < IZR m1 + 1)
    by (destruct l1; cbn in H1; [rewrite H1; lra|lra]).
  assert (B2 : IZR m2 <= y2 < IZR m2 + 1)
    by (destruct l2; cbn in H2; [rewrite H2; lra|lra]).
  destruct (Z.lt_trichotomy m1 m2) as [Hlt|[Heq|Hgt]].
  - pose proof (round_nearest_even_le m1 l1). pose proof (round_nearest_even_ge m2 l2). lia.
  - subst m2. destruct l1 as [|[| |]], l2 as [|[| |]]; cbn in H1, H2 |- *;
      try destruct (Z.even m1); first [lia | exfalso; lra].
  - exfalso. apply Z.lt_le_pred in Hgt. apply IZR_le in Hgt.
    rewrite <- Z.sub_1_r, minus_IZR in Hgt. lra.
Qed.

(** [binary_round_aux] is monotone on positive values of the normal range. *)
Lemma round_aux_mono m1 e1 l1 x1 m2 e2 l2 x2 :
  (0 < m1)%Z -> (0 < m2)%Z -> describes m1 e1 l1 x1 -> describes m2 e2 l2 x2 -> x1 <= x2 ->
  (-1000 <= Zdigits2 m1 + e1 <= 1000)%Z -> (-1000 <= Zdigits2 m2 + e2 <= 1000)%Z ->
  (e1 <= Zdigits2 m1 + e1 - 53)%Z -> (e2 <= Zdigits2 m2 + e2 - 53)%Z ->
  val (binary_round_aux FloatOps.prec FloatOps.emax false m1 e1 l1) <=
  val (binary_round_aux FloatOps.prec FloatOps.emax false m2 e2 l2).
Proof.
  intros Hm1 Hm2 H1 H2 Hx HD1 HD2 He1 He2.
  pose proof (describes_binade _ _ _ _ Hm1 H1) as [X1 X1'].
  pose proof (describes_binade _ _ _ _ Hm2 H2) as [X2 X2'].
  destruct (round_aux_normal _ _ _ _ Hm1 H1 HD1 He1) as (n1 & k1 & N1 & R1 & _ & V1).
  destruct (round_aux_normal _ _ _ _ Hm2 H2 HD2 He2) as (n2 & k2 & N2 & R2 & _ & V2).
  rewrite V1, V2.
  set (D1 := (Zdigits2 m1 + e1)%Z) in *. set (D2 := (Zdigits2 m2 + e2)%Z) in *.
  destruct (Z.lt_trichotomy D1 D2) as [Hlt|[Heq|Hgt]].
  - pose proof (round_nearest_even_le n1 k1). pose proof (round_nearest_even_ge n2 k2).
    apply Rle_trans with (IZR (2 ^ 53) * bpow (D1 - 53)).
    + apply Rmult_le_compat_r; [apply Rlt_le, bpow_pos|]. apply IZR_le. lia.
    + apply Rle_trans with (IZR (2 ^ 52) * bpow (D2 - 53)).
      * rewrite !IZR_pow2 by lia. rewrite <- !bpow_plus. apply bpow_le. lia.
      * apply Rmult_le_compat_r; [apply Rlt_le, bpow_pos|]. apply IZR_le. lia.
  - rewrite <- Heq in N2 |- *. apply Rmult_le_compat_r; [apply Rlt_le, bpow_pos|].
    apply IZR_le. eapply round_nearest_even_mono; eassumption.
  - exfalso. pose proof (bpow_le D2 (D1 - 1) ltac:(lia)). lra.
Qed.

Lemma fexp_max D : fexp FloatOps.prec FloatOps.emax D = Z.max (D - 53) (-1074).
Proof. reflexivity. Qed.

Lemma valid_canonical s m e :
  SpecFloat.valid_binary FloatOps.prec FloatOps.emax (S754_finite s m e) = true -> canonical m e.
Proof.
  cbn [SpecFloat.valid_binary]. unfold bounded, canonical_mantissa, canonical.
  intros H. apply andb_prop in H as [H _]. apply Z.eqb_eq in H. exact H.
Qed.

Lemma describes_exact m e : describes m e loc_Exact (IZR m * bpow e).
Proof. unfold describes, describes_u. pose proof (bpow_pos e). field. lra. Qed.

Lemma canonical_binade m e :
  bpow (Zpos (digits2_pos m) + e - 1) <= IZR (Zpos m) * bpow e < bpow (Zpos (digits2_pos m) + e).
Proof. apply (describes_binade (Zpos m) e loc_Exact); [lia|apply describes_exact]. Qed.

Lemma canonical_exp_lt m1 e1 m2 e2 :
  canonical m1 e1 -> canonical m2 e2 -> (e1 < e2)%Z ->
  IZR (Zpos m1) * bpow e1 < IZR (Zpos m2) * bpow e2.
Proof.
  unfold canonical. rewrite !fexp_max. intros C1 C2 He.
  pose proof (canonical_binade m1 e1) as [_ B1].
  pose proof (canonical_binade m2 e2) as [B2 _].
  assert (E2 : (Zpos (digits2_pos m2) + e2 - 53 = e2)%Z) by lia.
  pose proof (bpow_le (Zpos (digits2_pos m1) + e1) (Zpos (digits2_pos m2) + e2 - 1) ltac:(lia)).
  lra.
Qed.

(** On canonical positive floats, [SFcompare] compares the values. *)
Lemma SFcompare_pos m1 e1 m2 e2 :
  canonical m1 e1 -> canonical m2 e2 ->
  exists c, SFcompare (S754_finite false m1 e1) (S754_finite false m2 e2) = Some c /\
    CompareSpec (IZR (Zpos m1) * bpow e1 = IZR (Zpos m2) * bpow e2)
                (IZR (Zpos m1) * bpow e1 < IZR (Zpos m2) * bpow e2)
                (IZR (Zpos m2) * bpow e2 < IZR (Zpos m1) * bpow e1) c.
Proof.
  intros C1 C2. cbn [SFcompare]. eexists. split; [reflexivity|].
  destruct (Z.compare_spec e1 e2) as [He|He|He].
  - subst e2. change (Pos.compare_cont Eq m1 m2) with (Pos.compare m1 m2).
    pose proof (bpow_pos e1).
    destruct (Pos.compare_spec m1 m2) as [Hm|Hm|Hm]; constructor.
    + subst. reflexivity.
    + apply Rmult_lt_compat_r; [lra|]. apply IZR_lt. lia.
    + apply Rmult_lt_compat_r; [lra|]. apply IZR_lt. lia.
  - constructor. apply canonical_exp_lt; assumption.
  - constructor. apply canonical_exp_lt; assumption.
Qed.

Lemma key_le_trans k1 k2 k3 : key_le k1 k2 -> key_le k2 k3 -> key_le k1 k3.
Proof.
  destruct k1 as [[a u]|], k2 as [[b v]|], k3 as [[c w]|]; cbn; try tauto.
  intros [H1|[H1 H1']] [H2|[H2 H2']]; subst; (left; lia) || (right; split; [lia|lra]).
Qed.

Lemma val_pos m e : 0 < IZR (Zpos m) * bpow e.
Proof. pose proof (bpow_pos e). pose proof (IZR_lt 0 (Zpos m) ltac:(lia)). nra. Qed.

Lemma SFleb_key x y :
  SpecFloat.valid_binary FloatOps.prec FloatOps.emax x = true ->
  SpecFloat.valid_binary FloatOps.prec FloatOps.emax y = true ->
  (SFleb x y = true <-> key_le (fkey x) (fkey y)).
Proof.
  intros Vx Vy.
  destruct x as [sx|sx| |sx mx ex], y as [sy|sy| |sy my ey];
    try destruct sx; try destruct sy; cbn [SFleb SFcompare fkey key_le val].
  all: try (split; intros H; [ (left; lia) || (right; split; [reflexivity|lra]) || discriminate
                          | reflexivity || (exfalso; lia) || (destruct H as [H|[H H']]; lia) ]).
  all: try (pose proof (val_pos mx ex) as Px); try (pose proof (val_pos my ey) as Py).
  all: try solve [split; intros H; [right; split; [reflexivity|lra] | reflexivity]].
  all: try solve [split; intros H; [discriminate | destruct H as [H|[_ H]]; [lia|lra]]].
  all: destruct (SFcompare_pos mx ex my ey (valid_canonical _ _ _ Vx) (valid_canonical _ _ _ Vy))
      as [c [Hc Hs]]; cbn [SFcompare] in Hc; injection Hc as Hc.
  all: destruct (ex ?= ey)%Z; [destruct (PosDef.Pos.compare_cont Eq mx my)| |]; subst c; cbn;
      inversion Hs; split; intros Hb; try discriminate; try (right; split; [reflexivity|lra]);
      try reflexivity; destruct Hb as [Hb|[_ Hb]]; lia || lra.
Qed.

Lemma bpow_lt_inv a b : bpow a < bpow b -> (a < b)%Z.
Proof.
  intros H. destruct (Z.lt_ge_cases a b) as [L|L]; [exact L|].
  pose proof (bpow_le b a L). lra.
Qed.

Lemma rounds_to_mono y1 x1 y2 x2 :
  rounds_to y1 x1 -> rounds_to y2 x2 -> x1 <= x2 -> val y1 <= val y2.
Proof.
  intros (m1 & e1 & l1 & -> & Hm1 & H1 & D1 & E1) (m2 & e2 & l2 & -> & Hm2 & H2 & D2 & E2) Hx.
  eapply round_aux_mono; eassumption.
Qed.

Lemma rounds_to_shape y x : rounds_to y x -> exists p e, y = S754_finite false p e.
Proof.
  intros (m & e & l & -> & Hm & H & D & E).
  destruct (round_aux_normal _ _ _ _ Hm H D E) as (? & ? & _ & _ & S & _). exact S.
Qed.

Lemma rounds_to_bounds y x :
  rounds_to y x ->
  exists D, (-1000 <= D <= 1000)%Z /\ bpow (D - 1) <= x < bpow D /\
    bpow (D - 1) <= val y <= bpow D.
Proof.
  intros (m & e & l & -> & Hm & H & HD & E).
  destruct (round_aux_normal _ _ _ _ Hm H HD E) as (m' & l' & _ & B & _ & V).
  pose proof (describes_binade _ _ _ _ Hm H) as X.
  exists (Zdigits2 m + e)%Z. split; [exact HD|]. split; [exact X|]. rewrite V.
  pose proof (round_nearest_even_ge m' l'). pose proof (round_nearest_even_le m' l').
  set (D := (Zdigits2 m + e)%Z) in *.
  pose proof (bpow_pos (D - 53)).
  assert (Q1 : bpow (D - 1) = IZR (2 ^ 52) * bpow (D - 53))
    by (rewrite IZR_pow2, <- bpow_plus by lia; f_equal; lia).
  assert (Q2 : bpow D = IZR (2 ^ 53) * bpow (D - 53))
    by (rewrite IZR_pow2, <- bpow_plus by lia; f_equal; lia).
  rewrite Q1, Q2. split; apply Rmult_le_compat_r; try lra; apply IZR_le; lia.
Qed.

(** The binade of a located positive value, from bounds on the value. *)
Lemma describes_digits_range m e l x L U :
  (0 < m)%Z -> describes m e l x -> bpow L <= x < bpow U ->
  (L + 1 <= Zdigits2 m + e <= U)%Z.
Proof.
  intros Hm H [X1 X2]. pose proof (describes_binade _ _ _ _ Hm H) as [B1 B2].
  split.
  - assert (bpow L < bpow (Zdigits2 m + e)) by lra. apply bpow_lt_inv in H0. lia.
  - assert (bpow (Zdigits2 m + e - 1) < bpow U) by lra. apply bpow_lt_inv in H0. lia.
Qed.

Lemma iter_xO_mul p d : Zpos (Pos.iter xO p d) = (Zpos p * 2 ^ Zpos d)%Z.
Proof.
  induction d as [|d IH] using Pos.peano_ind.
  - cbn. lia.
  - rewrite Pos.iter_succ, Pos2Z.inj_xO, IH, Pos2Z.inj_succ, Z.pow_succ_r by lia. ring.
Qed.

Lemma digits_shift p k :
  (0 <= k)%Z -> (Zpos p * 2 ^ k > 0)%Z ->
  forall q, Zpos q = (Zpos p * 2 ^ k)%Z -> Zpos (digits2_pos q) = (Zpos (digits2_pos p) + k)%Z.
Proof.
  intros Hk _ q Hq. apply digits2_pos_unique; [lia|].
  pose proof (digits2_pos_bounds p) as [B1 B2].
  set (dp := Zpos (digits2_pos p)) in *.
  replace (dp + k - 1)%Z with ((dp - 1) + k)%Z by lia.
  rewrite Hq, !Z.pow_add_r by lia.
  pose proof (Z.pow_pos_nonneg 2 k ltac:(lia) Hk). split; nia.
Qed.

(** [binary_round] of a positive [p * 2^ez] in the normal range. *)
Lemma binary_round_rounds p ez x :
  x = IZR (Zpos p) * bpow ez -> bpow (-1000) <= x < bpow 999 ->
  rounds_to (binary_round FloatOps.prec FloatOps.emax false p ez) x.
Proof.
  intros Hx Hb.
  assert (HD : (-999 <= Zpos (digits2_pos p) + ez <= 999)%Z).
  { pose proof (describes_digits_range (Zpos p) ez loc_Exact x (-1000) 999) as R.
    cbn [Zdigits2] in R. apply R; [lia| |exact Hb]. rewrite Hx. apply describes_exact. }
  unfold binary_round. rewrite fexp_normal by lia.
  set (D := (Zpos (digits2_pos p) + ez)%Z) in *.
  unfold shl_align. destruct (D - 53 - ez)%Z as [|d|d] eqn:Hd.
  - exists (Zpos p), ez, loc_Exact. split; [reflexivity|].
    split; [lia|]. split; [rewrite Hx; apply describes_exact|]. cbn [Zdigits2]. fold D. lia.
  - exists (Zpos p), ez, loc_Exact. split; [reflexivity|].
    split; [lia|]. split; [rewrite Hx; apply describes_exact|]. cbn [Zdigits2]. fold D. lia.
  - exists (Zpos (Pos.iter xO p d)), (D - 53)%Z, loc_Exact. split; [reflexivity|].
    assert (Dg : Zpos (digits2_pos (Pos.iter xO p d)) = (Zpos (digits2_pos p) + Zpos d)%Z).
    { apply (digits_shift p (Zpos d)); [lia| |apply iter_xO_mul].
      pose proof (Z.pow_pos_nonneg 2 (Zpos d) ltac:(lia) ltac:(lia)). nia. }
    split; [lia|]. cbn [Zdigits2]. rewrite Dg.
    split; [|split; [unfold D in *; lia|unfold D in *; lia]].
    replace x with (IZR (Zpos (Pos.iter xO p d)) * bpow (D - 53)); [apply describes_exact|].
    rewrite Hx, iter_xO_mul, mult_IZR, IZR_pow2 by lia. rewrite Rmult_assoc, <- bpow_plus.
    f_equal. f_equal. lia.
Qed.

Lemma shl_align_fst mx ex ez :
  (ez <= ex)%Z -> Zpos (fst (shl_align mx ex ez)) = (Zpos mx * 2 ^ (ex - ez))%Z.
Proof.
  intros H. unfold shl_align. destruct (ez - ex)%Z as [|d|d] eqn:Hd; cbn [fst].
  - replace (ex - ez)%Z with 0%Z by lia. lia.
  - lia.
  - rewrite iter_xO_mul. f_equal. f_equal. lia.
Qed.

Lemma IZR_shift m k e : (0 <= k)%Z -> IZR (m * 2 ^ k) * bpow e = IZR m * bpow (k + e).
Proof. intros H. rewrite mult_IZR, IZR_pow2, bpow_plus by exact H. ring. Qed.

(** The difference of two positive floats, the first the larger. *)
Lemma sub_rounds mx ex my ey :
  let x := IZR (Zpos mx) * bpow ex in let y := IZR (Zpos my) * bpow ey in
  y < x -> bpow (-1000) <= x - y < bpow 999 ->
  rounds_to (SFsub FloatOps.prec FloatOps.emax (S754_finite false mx ex) (S754_finite false my ey)) (x - y).
Proof.
  intros x y Hxy Hb. cbn [SFsub cond_Zopp].
  set (ez := Z.min ex ey).
  rewrite (shl_align_fst mx ex ez), (shl_align_fst my ey ez) by (unfold ez; lia).
  set (M := (Zpos mx * 2 ^ (ex - ez) - Zpos my * 2 ^ (ey - ez))%Z).
  assert (HM : IZR M * bpow ez = x - y).
  { unfold M. rewrite minus_IZR, Rmult_minus_distr_r, !IZR_shift by (unfold ez; lia).
    unfold x, y. do 2 f_equal; f_equal; lia. }
  destruct M as [|p|p] eqn:EM.
  - exfalso. cbn in HM. lra.
  - cbn [binary_normalize]. apply binary_round_rounds; [symmetry; exact HM|exact Hb].
  - exfalso. pose proof (bpow_pos ez). pose proof (IZR_lt (Zneg p) 0 ltac:(lia)). nra.
Qed.

Lemma frac_bounds r m : (0 < m)%Z -> (0 < r < m)%Z ->
  0 < IZR r / IZR m < 1.
Proof.
  intros Hm Hr. apply IZR_lt in Hm. pose proof (IZR_lt 0 r ltac:(lia)). pose proof (IZR_lt r m ltac:(lia)).
  split; [apply Rdiv_lt_0_compat; lra|]. apply (Rmult_lt_reg_r (IZR m)); [lra|].
  unfold Rdiv. rewrite Rmult_assoc, Rinv_l by lra. lra.
Qed.

Lemma frac_half r m : (0 < m)%Z ->
  match Z.compare (2 * r) m with
  | Lt => IZR r / IZR m < /2
  | Eq => IZR r / IZR m = /2
  | Gt => /2 < IZR r / IZR m
  end.
Proof.
  intros Hm. apply (IZR_lt 0) in Hm. change (IZR 0) with 0 in Hm.
  assert (Ht : IZR r / IZR m - /2 = (IZR (2 * r) - IZR m) / (2 * IZR m))
    by (rewrite mult_IZR; field; lra).
  assert (Hp : 0 < 2 * IZR m) by lra.
  destruct (Z.compare_spec (2 * r) m) as [H|H|H].
  - rewrite H, Rminus_diag in Ht. unfold Rdiv in Ht. rewrite Rmult_0_l in Ht. lra.
  - apply IZR_lt in H. assert ((IZR (2 * r) - IZR m) / (2 * IZR m) < 0)
      by (apply Rdiv_neg_pos; lra). lra.
  - apply IZR_lt in H. assert (0 < (IZR (2 * r) - IZR m) / (2 * IZR m))
      by (apply Rdiv_lt_0_compat; lra). lra.
Qed.

Lemma new_location_desc q m r :
  (0 < m)%Z -> (0 <= r < m)%Z ->
  describes_u q (new_location m r) (IZR q + IZR r / IZR m).
Proof.
  intros Hm Hr. unfold new_location, new_location_even, new_location_odd.
  destruct (Z.eqb_spec r 0) as [E|E].
  - subst r. change (IZR 0) with 0. unfold Rdiv. rewrite Rmult_0_l, Rplus_0_r.
    destruct (Z.even m); reflexivity.
  - assert (Hr' : (0 < r < m)%Z) by lia. pose proof (frac_bounds r m Hm Hr') as [F1 F2].
    destruct (Z.even m) eqn:Ev; cbv beta; rewrite (proj2 (Z.eqb_neq r 0) E).
    + pose proof (frac_half r m Hm) as Hh.
      destruct (Z.compare (2 * r) m); cbn [describes_u]; split; lra.
    + assert (Od : Z.odd m = true) by (rewrite <- Z.negb_even, Ev; reflexivity).
      apply Z.odd_spec in Od. unfold Z.Odd in Od. destruct Od as [k Hk].
      pose proof (frac_half r m Hm) as Hh.
      destruct (Z.compare_spec (2 * r + 1) m) as [H|H|H];
        destruct (Z.compare_spec (2 * r) m) as [H'|H'|H']; try lia;
        revert Hh; rewrite ?H'; cbn [describes_u]; intros Hh; split; lra.
Qed.

Lemma bpow_div a b : bpow a / bpow b = bpow (a - b).
Proof.
  pose proof (bpow_pos b). replace a with ((a - b) + b)%Z at 1 by lia.
  rewrite bpow_plus. field. lra.
Qed.

Lemma div_lower a b x y : 0 < a -> a <= x -> 0 < y < b -> a / b < x / y.
Proof.
  intros Ha Hx [Hy Hb]. apply Rlt_le_trans with (a / y).
  - unfold Rdiv. apply Rmult_lt_compat_l; [exact Ha|]. apply Rinv_lt_contravar; nra.
  - unfold Rdiv. apply Rmult_le_compat_r; [left; apply Rinv_0_lt_compat; lra|exact Hx].
Qed.

Lemma div_upper a b x y : 0 < x -> x < a -> 0 < b <= y -> x / y < a / b.
Proof.
  intros Hx0 Hx [Hb Hy]. apply Rle_lt_trans with (x / b).
  - unfold Rdiv. apply Rmult_le_compat_l; [lra|]. apply Rinv_le_contravar; lra.
  - unfold Rdiv. apply Rmult_lt_compat_r; [apply Rinv_0_lt_compat; lra|exact Hx].
Qed.

(** The quotient of two positive floats. *)
Lemma div_rounds mx ex my ey :
  let x := IZR (Zpos mx) * bpow ex in let y := IZR (Zpos my) * bpow ey in
  bpow (-999) <= x / y < bpow 998 ->
  rounds_to (SFdiv FloatOps.prec FloatOps.emax (S754_finite false mx ex) (S754_finite false my ey)) (x / y).
Proof.
  intros x y Hb. cbn [SFdiv xorb].
  pose proof (canonical_binade mx ex) as [X1 X2]. pose proof (canonical_binade my ey) as [Y1 Y2].
  fold x in X1, X2. fold y in Y1, Y2.
  set (d1 := Zpos (digits2_pos mx)) in *. set (d2 := Zpos (digits2_pos my)) in *.
  set (D0 := (d1 + ex - (d2 + ey))%Z).
  assert (L0 : bpow (D0 - 1) < x / y).
  { replace (D0 - 1)%Z with ((d1 + ex - 1) - (d2 + ey))%Z by (unfold D0; lia).
    rewrite <- bpow_div. apply div_lower; [apply bpow_pos|exact X1|split; [|exact Y2]].
    pose proof (bpow_pos (d2 + ey - 1)). lra. }
  assert (U0 : x / y < bpow (D0 + 1)).
  { replace (D0 + 1)%Z with ((d1 + ex) - (d2 + ey - 1))%Z by (unfold D0; lia).
    rewrite <- bpow_div. apply div_upper; [pose proof (bpow_pos (d1 + ex - 1)); lra|exact X2|].
    split; [apply bpow_pos|exact Y1]. }
  assert (HD0 : (-999 <= D0 <= 998)%Z).
  { split.
    - assert (bpow (-999) < bpow (D0 + 1)) by lra. apply bpow_lt_inv in H. lia.
    - assert (bpow (D0 - 1) < bpow 998) by lra. apply bpow_lt_inv in H. lia. }
  unfold SFdiv_core_binary. cbn [Zdigits2]. fold d1 d2. fold D0.
  rewrite fexp_normal by lia.
  set (e' := Z.min (D0 - 53) (ex - ey)).
  set (sh := (ex - ey - e')%Z).
  assert (Hsh : (0 <= sh)%Z) by (unfold sh, e'; lia).
  assert (Hm' : match sh with Zpos _ => Z.shiftl (Zpos mx) sh | Z0 => Zpos mx | Zneg _ => 0%Z end
                = (Zpos mx * 2 ^ sh)%Z).
  { destruct sh; [cbn; lia|apply Z.shiftl_mul_pow2; lia|lia]. }
  rewrite Hm'.
  pose proof (Z_div_mod (Zpos mx * 2 ^ sh) (Zpos my) ltac:(lia)) as Hdm.
  destruct (Z.div_eucl (Zpos mx * 2 ^ sh) (Zpos my)) as [q r].
  destruct Hdm as [Hqr Hr].
  assert (Hv : x / y / bpow e' = IZR q + IZR r / IZR (Zpos my)).
  { assert (Hx : x = IZR (Zpos mx * 2 ^ sh) * bpow (ey + e')).
    { unfold x. rewrite IZR_shift by exact Hsh. f_equal. f_equal. unfold sh. lia. }
    rewrite Hx, Hqr. unfold y. rewrite bpow_plus, plus_IZR, mult_IZR.
    pose proof (bpow_pos ey). pose proof (bpow_pos e'). pose proof (IZR_lt 0 (Zpos my) ltac:(lia)).
    field. lra. }
  assert (Hq : (0 < q)%Z).
  { assert (bpow (D0 - 1) / bpow e' < x / y / bpow e')
      by (unfold Rdiv; apply Rmult_lt_compat_r; [apply Rinv_0_lt_compat, bpow_pos|exact L0]).
    rewrite bpow_div, Hv in H.
    pose proof (bpow_ge1 (D0 - 1 - e') ltac:(unfold e'; lia)).
    pose proof (frac_bounds r (Zpos my) ltac:(lia)).
    destruct (Z.eq_dec r 0) as [E|E].
    - subst r. change (IZR 0) with 0 in H. unfold Rdiv in H. rewrite Rmult_0_l, Rplus_0_r in H.
      apply lt_IZR. change (IZR 0) with 0. lra.
    - destruct (H1 ltac:(lia)) as [F1 F2]. apply lt_IZR. change (IZR 0) with 0. lra. }
  exists q, e', (new_location (Zpos my) r). split; [reflexivity|].
  assert (Hd : describes q e' (new_location (Zpos my) r) (x / y)).
  { unfold describes. rewrite Hv. apply new_location_desc; lia. }
  pose proof (describes_digits_range q e' _ (x / y) (-999) 998 Hq Hd ltac:(lra)) as HD.
  pose proof (describes_binade q e' _ _ Hq Hd) as [B1 B2].
  assert (D0 <= Zdigits2 q + e')%Z.
  { assert (bpow (D0 - 1) < bpow (Zdigits2 q + e')) by lra. apply bpow_lt_inv in H. lia. }
  split; [exact Hq|]. split; [exact Hd|]. split; [lia|]. unfold e' at 1. lia.
Qed.

(** The product of two positive floats whose mantissas make 53 bits or more. *)
Lemma mul_rounds mx ex my ey :
  let x := IZR (Zpos mx) * bpow ex in let y := IZR (Zpos my) * bpow ey in
  (53 <= Zpos (digits2_pos (mx * my)))%Z ->
  bpow (-1000) <= x * y < bpow 999 ->
  rounds_to (SFmul FloatOps.prec FloatOps.emax (S754_finite false mx ex) (S754_finite false my ey)) (x * y).
Proof.
  intros x y Hd Hb. cbn [SFmul xorb].
  exists (Zpos (mx * my)), (ex + ey)%Z, loc_Exact. split; [reflexivity|].
  assert (He : describes (Zpos (mx * my)) (ex + ey) loc_Exact (x * y)).
  { replace (x * y) with (IZR (Zpos (mx * my)) * bpow (ex + ey)); [apply describes_exact|].
    unfold x, y. rewrite Pos2Z.inj_mul, mult_IZR, bpow_plus. ring. }
  pose proof (describes_digits_range (Zpos (mx * my)) _ _ _ (-1000) 999 ltac:(lia) He Hb) as HD.
  unfold rinput. cbn [Zdigits2] in *. split; [lia|]. split; [exact He|]. split; lia.
Qed.

Lemma bpow_opp e : bpow (- e) = / bpow e.
Proof.
  pose proof (bpow_pos e).
  assert (H1 : bpow (- e) * bpow e = 1) by (rewrite <- bpow_plus; replace (- e + e)%Z with 0%Z by lia; reflexivity).
  apply (Rmult_eq_reg_r (bpow e)); [|lra]. rewrite H1, Rinv_l by lra. reflexivity.
Qed.

Lemma bpow_neg p : bpow (Zneg p) = / bpow (Zpos p).
Proof. exact (bpow_opp (Zpos p)). Qed.

Lemma val_sf21 : val sf21 = 21.
Proof.
  cbn [val sf21]. rewrite bpow_neg, bpow_IZR by lia.
  replace (2 ^ 48)%Z with 281474976710656%Z by reflexivity. lra.
Qed.

Lemma val_sf100 : val sf100 = 100.
Proof.
  cbn [val sf100]. rewrite bpow_neg, bpow_IZR by lia.
  replace (2 ^ 46)%Z with 70368744177664%Z by reflexivity. lra.
Qed.

Lemma val_sfR : 4 < val sfR < 8.
Proof.
  cbn [val sfR]. rewrite bpow_neg, bpow_IZR by lia.
  replace (2 ^ 50)%Z with 1125899906842624%Z by reflexivity. lra.
Qed.

Lemma val_sfmax : val sfmax < 27.
Proof.
  cbn [val sfmax]. rewrite bpow_neg, bpow_IZR by lia.
  replace (2 ^ 48)%Z with 281474976710656%Z by reflexivity. lra.
Qed.

Lemma bpow_small k : (0 <= k)%Z -> bpow k = IZR (2 ^ k).
Proof. apply bpow_IZR. Qed.

Lemma rounds_to_le y x k : rounds_to y x -> x < bpow k -> val y <= bpow k.
Proof.
  intros R Hx. destruct (rounds_to_bounds y x R) as (D & HD & [B1 B2] & [V1 V2]).
  assert (bpow (D - 1) < bpow k) by lra. apply bpow_lt_inv in H.
  pose proof (bpow_le D k ltac:(lia)). lra.
Qed.

Lemma rounds_to_ge y x k : rounds_to y x -> bpow k <= x -> bpow k <= val y.
Proof.
  intros R Hx. destruct (rounds_to_bounds y x R) as (D & HD & [B1 B2] & [V1 V2]).
  assert (bpow k < bpow D) by lra. apply bpow_lt_inv in H.
  pose proof (bpow_le k (D - 1) ltac:(lia)). lra.
Qed.

Lemma div_le_lower a b x y : 0 < a -> a <= x -> 0 < y <= b -> a / b <= x / y.
Proof.
  intros Ha Hx [Hy Hb]. apply Rle_trans with (a / y).
  - unfold Rdiv. apply Rmult_le_compat_l; [lra|]. apply Rinv_le_contravar; lra.
  - unfold Rdiv. apply Rmult_le_compat_r; [left; apply Rinv_0_lt_compat; lra|exact Hx].
Qed.

Lemma div_le_upper a b x y : 0 < x -> x <= a -> 0 < b <= y -> x / y <= a / b.
Proof.
  intros Hx0 Hx [Hb Hy]. apply Rle_trans with (x / b).
  - unfold Rdiv. apply Rmult_le_compat_l; [lra|]. apply Rinv_le_contravar; lra.
  - unfold Rdiv. apply Rmult_le_compat_r; [left; apply Rinv_0_lt_compat; lra|exact Hx].
Qed.

(** A positive float above [21.0] lies at least [2^-48] above it. *)
Lemma sub_gap mv ev :
  canonical mv ev -> val sf21 < IZR (Zpos mv) * bpow ev ->
  bpow (-48) <= IZR (Zpos mv) * bpow ev - val sf21.
Proof.
  intros C Hv. pose proof (canonical_binade mv ev) as [_ B]. rewrite val_sf21 in Hv.
  assert (H4 : bpow 4 = 16) by (rewrite bpow_small by lia; reflexivity).
  assert (bpow 4 < bpow (Zpos (digits2_pos mv) + ev)) by lra. apply bpow_lt_inv in H.
  unfold canonical in C. rewrite fexp_max in C.
  assert (Hk : (0 <= ev + 48)%Z) by lia.
  assert (Hx : IZR (Zpos mv) * bpow ev = IZR (Zpos mv * 2 ^ (ev + 48)) * bpow (-48))
    by (rewrite IZR_shift by exact Hk; f_equal; f_equal; lia).
  assert (H21 : val sf21 = IZR 5910974510923776 * bpow (-48)) by reflexivity.
  rewrite H21. rewrite val_sf21 in H21. rewrite Hx in Hv |- *.
  pose proof (bpow_pos (-48)).
  set (N := (Zpos mv * 2 ^ (ev + 48))%Z) in *.
  assert (Hlt : IZR 5910974510923776 < IZR N).
  { apply (Rmult_lt_reg_r (bpow (-48))); [exact H0|]. lra. }
  apply lt_IZR in Hlt. assert (Hle : IZR (5910974510923776 + 1) <= IZR N) by (apply IZR_le; lia).
  rewrite plus_IZR in Hle.
  replace (IZR N * bpow (-48) - IZR 5910974510923776 * bpow (-48))
    with ((IZR N - IZR 5910974510923776) * bpow (-48)) by ring.
  rewrite <- (Rmult_1_l (bpow (-48))) at 1. apply Rmult_le_compat_r; lra.
Qed.

Lemma digits_ge52 p : (2 ^ 52 <= Zpos p)%Z -> (53 <= Zpos (digits2_pos p))%Z.
Proof.
  intros H. pose proof (digits2_pos_bounds p) as [_ B].
  destruct (Z.lt_ge_cases (Zpos (digits2_pos p)) 53) as [L|L]; [|exact L].
  assert (2 ^ Zpos (digits2_pos p) <= 2 ^ 52)%Z by (apply Z.pow_le_mono_r; lia). lia.
Qed.

(** The three stages of the interpolation for a voltage strictly between
    the references. *)
Lemma pipe_stages x :
  middle x ->
  exists s1 s2,
    rounds_to s1 (val x - val sf21) /\ rounds_to s2 (val s1 / val sfR) /\
    rounds_to (pipe x) (val s2 * val sf100) /\
    0 < val s1 /\ 0 < val s2 /\ 0 < val (pipe x) <= 512.
Proof.
  intros (mv & ev & -> & C & [L U]).
  pose proof val_sfR as [R1 R2]. pose proof val_sfmax as Mx. pose proof val_sf100 as V100.
  pose proof val_sf21 as V21.
  pose proof (sub_gap mv ev C L) as G. cbn [val] in G, L, U |- *.
  assert (B3 : bpow 3 = 8) by (rewrite bpow_small by lia; reflexivity).
  assert (B2 : bpow 2 = 4) by (rewrite bpow_small by lia; reflexivity).
  assert (B9 : bpow 9 = 512) by (rewrite bpow_small by lia; reflexivity).
  pose proof (bpow_le (-1000) (-48) ltac:(lia)) as Lo48.
  pose proof (bpow_le 3 999 ltac:(lia)) as Hi3.
  (* the difference *)
  assert (S1 : rounds_to (SFsub FloatOps.prec FloatOps.emax (S754_finite false mv ev) sf21)
                        (IZR (Zpos mv) * bpow ev - val sf21)).
  { pose proof (sub_rounds mv ev 5910974510923776 (-48)) as S. cbv zeta in S.
    change (IZR (Zpos 5910974510923776) * bpow (-48)) with (val sf21) in S.
    apply S; lra. }
  set (s1 := SFsub FloatOps.prec FloatOps.emax (S754_finite false mv ev) sf21) in *.
  pose proof (rounds_to_ge _ _ _ S1 G) as S1lo.
  pose proof (rounds_to_le _ _ 3 S1 ltac:(lra)) as S1hi.
  destruct (rounds_to_shape _ _ S1) as (p1 & e1 & E1).
  (* the quotient *)
  assert (Q1 : bpow (-48) / bpow 3 <= val s1 / val sfR)
    by (apply div_le_lower; [apply bpow_pos|exact S1lo|lra]).
  assert (Q2 : val s1 / val sfR <= bpow 3 / 4)
    by (apply div_le_upper; [pose proof (bpow_pos (-48)); lra|exact S1hi|lra]).
  rewrite bpow_div in Q1. replace (-48 - 3)%Z with (-51)%Z in Q1 by lia.
  assert (S2 : rounds_to (SFdiv FloatOps.prec FloatOps.emax s1 sfR) (val s1 / val sfR)).
  { rewrite E1 in *. apply (div_rounds p1 e1 6530219459687220 (-50)).
    pose proof (bpow_le (-999) (-51) ltac:(lia)). pose proof (bpow_le 3 998 ltac:(lia)).
    cbn [val sfR] in Q1, Q2. split; lra. }
  set (s2 := SFdiv FloatOps.prec FloatOps.emax s1 sfR) in *.
  pose proof (rounds_to_ge _ _ _ S2 Q1) as S2lo.
  pose proof (rounds_to_le _ _ 2 S2 ltac:(lra)) as S2hi.
  destruct (rounds_to_shape _ _ S2) as (p2 & e2 & E2).
  (* the product *)
  assert (S3 : rounds_to (pipe (S754_finite false mv ev)) (val s2 * val sf100)).
  { unfold pipe. fold s1. fold s2. rewrite E2 in *.
    apply (mul_rounds p2 e2 7036874417766400 (-46)).
    - apply digits_ge52. rewrite Pos2Z.inj_mul. nia.
    - pose proof (bpow_pos (-51)). pose proof (bpow_le (-1000) (-51) ltac:(lia)).
      pose proof (bpow_le 9 999 ltac:(lia)).
      change (IZR (Zpos 7036874417766400) * bpow (-46)) with (val sf100). cbn [val] in S2lo, S2hi. rewrite V100. split; lra. }
  pose proof (rounds_to_le _ _ 9 S3 ltac:(nra)) as S3hi.
  pose proof (bpow_pos (-48)). pose proof (bpow_pos (-51)).
  pose proof (rounds_to_ge _ _ (-51 + 6) S3) as S3lo.
  exists s1, s2. split; [exact S1|]. split; [exact S2|]. split; [exact S3|].
  split; [lra|]. split; [lra|]. split; [|lra].
  apply Rlt_le_trans with (bpow (-45)); [apply bpow_pos|]. apply S3lo.
  rewrite bpow_plus, (bpow_small 6), V100 by lia. change (IZR (2 ^ 6)) with 64. lra.
Qed.

Lemma pipe_mono x1 x2 :
  middle x1 -> middle x2 -> val x1 <= val x2 -> val (pipe x1) <= val (pipe x2).
Proof.
  intros M1 M2 Hx.
  destruct (pipe_stages x1 M1) as (a1 & b1 & A1 & B1 & P1 & _).
  destruct (pipe_stages x2 M2) as (a2 & b2 & A2 & B2 & P2 & _).
  pose proof val_sfR as [R1 _]. rewrite val_sf100 in P1, P2.
  assert (Ha : val a1 <= val a2) by (apply (rounds_to_mono _ _ _ _ A1 A2); lra).
  assert (Hb : val b1 <= val b2).
  { apply (rounds_to_mono _ _ _ _ B1 B2). unfold Rdiv.
    apply Rmult_le_compat_r; [left; apply Rinv_0_lt_compat; lra|exact Ha]. }
  apply (rounds_to_mono _ _ _ _ P1 P2). lra.
Qed.

Lemma frac_unit r d : (0 < d)%Z -> (0 <= r < d)%Z ->
  0 <= IZR r / IZR d < 1 /\ ((d <= 2 * r)%Z -> /2 <= IZR r / IZR d) /\
  ((2 * r < d)%Z -> IZR r / IZR d < /2).
Proof.
  intros Hd Hr. pose proof (frac_half r d Hd) as Hh.
  destruct (Z.eq_dec r 0) as [E|E].
  - subst r. change (IZR 0) with 0. unfold Rdiv. rewrite Rmult_0_l. split; [lra|]. split; intros; lia || lra.
  - pose proof (frac_bounds r d Hd ltac:(lia)) as [F1 F2].
    split; [lra|]. split; intros H;
      destruct (Z.compare_spec (2 * r) d); try lia; lra.
Qed.

(** [f64::round] of a positive float below [2^52]: the nearest integer,
    halves up. *)
Lemma round_int f m e :
  Prim2SF f = S754_finite false m e -> (e < 0)%Z ->
  exists n, F64.round f = F64.of_spec (binary_normalize FloatOps.prec FloatOps.emax n 0 false) /\
    IZR n <= val (Prim2SF f) + /2 < IZR n + 1.
Proof.
  intros Hf He. unfold F64.round. rewrite Hf.
  destruct (Z.leb_spec 0 e) as [L|L]; [lia|]. cbv zeta.
  set (d := (2 ^ (- e))%Z). assert (Hd : (0 < d)%Z) by (apply Z.pow_pos_nonneg; lia).
  pose proof (Z.div_mod (Zpos m) d ltac:(lia)) as Hdm.
  pose proof (Z.mod_pos_bound (Zpos m) d Hd) as Hr.
  set (q := (Zpos m / d)%Z) in *. set (r := (Zpos m mod d)%Z) in *.
  assert (Hv : val (S754_finite false m e) = IZR q + IZR r / IZR d).
  { cbn [val]. replace e with (- (- e))%Z by lia.
    rewrite bpow_opp, (bpow_small (- e)) by lia. fold d. rewrite Hdm, plus_IZR, mult_IZR.
    pose proof (IZR_lt 0 d Hd). field. lra. }
  pose proof (frac_unit r d Hd Hr) as (F & F1 & F2).
  destruct (Z.leb_spec d (2 * r)) as [H|H].
  - exists (q + 1)%Z. split; [reflexivity|]. rewrite Hv, plus_IZR. specialize (F1 H). lra.
  - exists q. split; [reflexivity|]. rewrite Hv. specialize (F2 H). lra.
Qed.

Lemma floor_mono n1 n2 a1 a2 :
  IZR n1 <= a1 + /2 < IZR n1 + 1 -> IZR n2 <= a2 + /2 < IZR n2 + 1 -> a1 <= a2 ->
  (n1 <= n2)%Z.
Proof.
  intros H1 H2 Ha. destruct (Z.le_gt_cases n1 n2) as [L|L]; [exact L|].
  assert (IZR (n2 + 1) <= IZR n1) by (apply IZR_le; lia). rewrite plus_IZR in H. lra.
Qed.

Lemma floor_range n a k :
  IZR n <= a + /2 < IZR n + 1 -> 0 < a <= IZR k -> (0 <= n <= k)%Z.
Proof.
  intros [H1 H2] [A1 A2]. split.
  - assert (IZR (-1) < IZR n) by (change (IZR (-1)) with (-1); lra). apply lt_IZR in H. lia.
  - assert (IZR n < IZR (k + 1)) by (rewrite plus_IZR; lra). apply lt_IZR in H. lia.
Qed.

Lemma Hn_table_ok : Hn_table = true.
Proof. vm_compute. reflexivity. Qed.

Lemma Hn_step n : (0 <= n <= 512)%Z -> (Hn n <= Hn (n + 1) /\ Hn n <= 100)%N.
Proof.
  intros Hn0. pose proof Hn_table_ok as T. unfold Hn_table in T.
  rewrite forallb_forall in T. specialize (T (Z.to_nat n)).
  rewrite in_seq, Z2Nat.id in T by lia. specialize (T ltac:(lia)).
  apply andb_prop in T as [T1 T2]. apply N.leb_le in T1, T2. auto.
Qed.

Lemma Hn_mono a b : (0 <= a <= b)%Z -> (b <= 512)%Z -> (Hn a <= Hn b)%N.
Proof.
  intros Hab Hb. replace b with (a + Z.of_nat (Z.to_nat (b - a)))%Z by lia.
  assert (Hk : (a + Z.of_nat (Z.to_nat (b - a)) <= 512)%Z) by lia. revert Hk.
  generalize (Z.to_nat (b - a)) as k. induction k as [|k IH]; intros Hk.
  - replace (a + Z.of_nat 0)%Z with a by lia. lia.
  - rewrite Nat2Z.inj_succ in *. specialize (IH ltac:(lia)).
    destruct (Hn_step (a + Z.of_nat k) ltac:(lia)) as [S _].
    replace (a + Z.succ (Z.of_nat k))%Z with (a + Z.of_nat k + 1)%Z by lia. lia.
Qed.

Lemma Hn_le n : (0 <= n <= 512)%Z -> (Hn n <= 100)%N.
Proof. intros H. apply (Hn_step n H). Qed.

Lemma Prim2SF_min : Prim2SF min_voltage = sf21.
Proof. reflexivity. Qed.

Lemma Prim2SF_max : Prim2SF max_voltage = sfmax.
Proof. reflexivity. Qed.

Lemma Prim2SF_range : Prim2SF (max_voltage - min_voltage)%float = sfR.
Proof. reflexivity. Qed.

Lemma Prim2SF_100 : Prim2SF 100%float = sf100.
Proof. reflexivity. Qed.

Lemma Prim2SF_pipe v :
  Prim2SF (((v - min_voltage) / (max_voltage - min_voltage)) * 100)%float = pipe (Prim2SF v).
Proof.
  rewrite mul_spec, div_spec, sub_spec, Prim2SF_min, Prim2SF_range, Prim2SF_100. reflexivity.
Qed.

(** Between the references, the result is [Hn] of the rounded interpolation. *)
Lemma calc_middle v :
  middle (Prim2SF v) ->
  (v <=? min_voltage)%float = false -> (max_voltage <=? v)%float = false ->
  exists n, calculate_battery_percent v = Hn n /\ (0 <= n <= 512)%Z /\
    IZR n <= val (pipe (Prim2SF v)) + /2 < IZR n + 1.
Proof.
  intros M A B. destruct (pipe_stages _ M) as (s1 & s2 & _ & _ & S3 & _ & _ & P0 & P1).
  pose proof (Prim2SF_valid (((v - min_voltage) / (max_voltage - min_voltage)) * 100)%float) as V.
  rewrite Prim2SF_pipe in V.
  destruct (rounds_to_shape _ _ S3) as (m & e & E).
  assert (He : (e < 0)%Z).
  { rewrite E in V. apply valid_canonical in V. unfold canonical in V. rewrite fexp_max in V.
    destruct (Z.lt_ge_cases e 0) as [L|L]; [exact L|exfalso].
    pose proof (canonical_binade m e) as [C _]. rewrite E in P1. cbn [val] in P1.
    pose proof (bpow_le 52 (Zpos (digits2_pos m) + e - 1) ltac:(lia)).
    rewrite bpow_small in H by lia. replace (2 ^ 52)%Z with 4503599627370496%Z in H by reflexivity.
    lra. }
  rewrite <- Prim2SF_pipe in E.
  destruct (round_int _ _ _ E He) as (n & Hr & Hb). rewrite Prim2SF_pipe in Hb.
  exists n. split; [|split; [apply (floor_range n (val (pipe (Prim2SF v)))); [exact Hb|split; [exact P0|exact P1]]|exact Hb]].
  unfold calculate_battery_percent. rewrite A, B, Hr. reflexivity.
Qed.

Lemma valid_sf21 : SpecFloat.valid_binary FloatOps.prec FloatOps.emax sf21 = true.
Proof. reflexivity. Qed.

Lemma valid_sfmax : SpecFloat.valid_binary FloatOps.prec FloatOps.emax sfmax = true.
Proof. reflexivity. Qed.

Lemma fkey_sf21 : fkey sf21 = Some (1%Z, 21).
Proof. unfold fkey. rewrite <- val_sf21. reflexivity. Qed.

(** Strictly between the references and not NaN: a positive finite float. *)
Lemma middle_of_cmp x :
  SpecFloat.valid_binary FloatOps.prec FloatOps.emax x = true -> x <> S754_nan ->
  SFleb x sf21 = false -> SFleb sfmax x = false -> middle x.
Proof.
  intros Vx Nn A B.
  assert (A' : ~ key_le (fkey x) (fkey sf21))
    by (intros K; apply (SFleb_key _ _ Vx valid_sf21) in K; congruence).
  assert (B' : ~ key_le (fkey sfmax) (fkey x))
    by (intros K; apply (SFleb_key _ _ valid_sfmax Vx) in K; congruence).
  rewrite fkey_sf21 in A'. pose proof val_sfmax as Mx.
  destruct x as [s|s| |s m e]; [| |congruence|].
  - exfalso. apply A'. cbn. right. split; [reflexivity|lra].
  - exfalso. destruct s; [apply A'; cbn; left; lia|apply B'; cbn; left; lia].
  - pose proof (val_pos m e) as Pv. destruct s.
    + exfalso. apply A'. cbn [fkey key_le val]. right. split; [reflexivity|lra].
    + exists m, e. split; [reflexivity|]. split; [apply (valid_canonical false m e Vx)|].
      cbn [fkey key_le] in A', B'. split.
      * destruct (Rlt_le_dec 21 (val (S754_finite false m e))) as [L|L];
          [rewrite val_sf21; exact L|exfalso; apply A'; right; split; [reflexivity|exact L]].
      * destruct (Rlt_le_dec (val (S754_finite false m e)) (val sfmax)) as [L|L];
          [exact L|exfalso; apply B'; right; split; [reflexivity|exact L]].
Qed.

Lemma calc_nan v : Prim2SF v = S754_nan -> calculate_battery_percent v = 0%N.
Proof.
  intros H. unfold calculate_battery_percent.
  assert (A : (v <=? min_voltage)%float = false) by (rewrite leb_spec, H; reflexivity).
  assert (B : (max_voltage <=? v)%float = false) by (rewrite leb_spec, H; reflexivity).
  rewrite A, B.
  set (P := (((v - min_voltage) / (max_voltage - min_voltage)) * 100)%float).
  assert (HP : Prim2SF P = S754_nan) by (unfold P; rewrite Prim2SF_pipe, H; reflexivity).
  assert (R : F64.round P = P) by (unfold F64.round; rewrite HP; reflexivity).
  rewrite R. unfold F64.clamp.
  assert (C1 : (P <? 0)%float = false) by (rewrite ltb_spec, HP; reflexivity).
  assert (C2 : (100 <? P)%float = false) by (rewrite ltb_spec, HP; reflexivity).
  rewrite C1, C2. unfold F64.to_u64. rewrite HP. reflexivity.
Qed.

Lemma calc_middle_n v :
  (v <=? min_voltage)%float = false -> (max_voltage <=? v)%float = false ->
  Prim2SF v <> S754_nan ->
  exists n, calculate_battery_percent v = Hn n /\ (0 <= n <= 512)%Z /\
    IZR n <= val (pipe (Prim2SF v)) + /2 < IZR n + 1 /\ middle (Prim2SF v).
Proof.
  intros A B Nn.
  assert (M : middle (Prim2SF v)).
  { apply middle_of_cmp; [apply Prim2SF_valid|exact Nn| |].
    - rewrite <- Prim2SF_min, <- leb_spec. exact A.
    - rewrite <- Prim2SF_max, <- leb_spec. exact B. }
  destruct (calc_middle v M A B) as (n & E & R & F). exists n. auto.
Qed.

Lemma calc_le_100 v : (calculate_battery_percent v <= 100)%N.
Proof.
  destruct (v <=? min_voltage)%float eqn:A.
  { unfold calculate_battery_percent. rewrite A. lia. }
  destruct (max_voltage <=? v)%float eqn:B.
  { unfold calculate_battery_percent. rewrite A, B. lia. }
  destruct (Prim2SF v) eqn:Hv; try (rewrite calc_nan by exact Hv; lia);
    destruct (calc_middle_n v A B ltac:(congruence)) as (n & -> & R & _); apply Hn_le; exact R.
Qed.

Lemma leb_key a b :
  (a <=? b)%float = true <-> key_le (fkey (Prim2SF a)) (fkey (Prim2SF b)).
Proof. rewrite leb_spec. apply SFleb_key; apply Prim2SF_valid. Qed.

Lemma max_not_le_min : ~ key_le (fkey (Prim2SF max_voltage)) (fkey (Prim2SF min_voltage)).
Proof.
  intros K. apply leb_key in K. discriminate K.
Qed.

Lemma calc_high v : (max_voltage <=? v)%float = true -> calculate_battery_percent v = 100%N.
Proof.
  intros B. unfold calculate_battery_percent.
  destruct (v <=? min_voltage)%float eqn:A.
  - exfalso. apply leb_key in A, B. exact (max_not_le_min (key_le_trans _ _ _ B A)).
  - rewrite B. reflexivity.
Qed.

Lemma calc_mono v1 v2 :
  (v1 <=? v2)%float = true ->
  (calculate_battery_percent v1 <= calculate_battery_percent v2)%N.
Proof.
  intros H. pose proof (proj1 (leb_key v1 v2) H) as K.
  destruct (v1 <=? min_voltage)%float eqn:A1.
  { unfold calculate_battery_percent at 1. rewrite A1. lia. }
  destruct (v2 <=? min_voltage)%float eqn:A2.
  { exfalso. apply leb_key in A2. apply (key_le_trans _ _ _ K), leb_key in A2. congruence. }
  destruct (max_voltage <=? v2)%float eqn:B2.
  { rewrite (calc_high v2 B2). apply calc_le_100. }
  destruct (max_voltage <=? v1)%float eqn:B1.
  { exfalso. apply leb_key in B1. apply (fun h => key_le_trans _ _ _ h K), leb_key in B1. congruence. }
  assert (N1 : Prim2SF v1 <> S754_nan) by (intros E; rewrite E in K; exact K).
  assert (N2 : Prim2SF v2 <> S754_nan)
    by (intros E; rewrite E in K; destruct (fkey (Prim2SF v1)) as [[]|]; exact K).
  destruct (calc_middle_n v1 A1 B1 N1) as (n1 & -> & R1 & F1 & M1).
  destruct (calc_middle_n v2 A2 B2 N2) as (n2 & -> & R2 & F2 & M2).
  apply Hn_mono; [|lia]. split; [lia|].
  apply (floor_mono n1 n2 _ _ F1 F2). apply pipe_mono; [exact M1|exact M2|].
  destruct M1 as (m1 & e1 & E1 & _), M2 as (m2 & e2 & E2 & _).
  rewrite E1, E2 in K. cbn [fkey key_le] in K. rewrite E1, E2.
  destruct K as [K|[_ K]]; [lia|exact K].
Qed.

End FloatFacts.

(** C5: [calculate_battery_percent] returns 0 for a voltage at or below
    21.0, returns 100 for a voltage at or above 26.8, returns 50 for 23.9
    (the binary64 value nearest to 23.9, written here in hexadecimal), never
    returns more than 100, and is monotonic non-decreasing in the voltage:
    [v1 <= v2] as floats gives a result for [v1] at most the result for [v2]. *)
Theorem calculate_battery_percent_interpolation :
  (forall v, (v <=? Decoder.min_voltage)%float = true ->
     Decoder.calculate_battery_percent v = 0%N) /\
  (forall v, (Decoder.max_voltage <=? v)%float = true ->
     Decoder.calculate_battery_percent v = 100%N) /\
  Decoder.calculate_battery_percent 0x1.7e66666666666p+4%float = 50%N /\
  (forall v, (Decoder.calculate_battery_percent v <= 100)%N) /\
  (forall v1 v2, (v1 <=? v2)%float = true ->
     (Decoder.calculate_battery_percent v1 <= Decoder.calculate_battery_percent v2)%N).
Proof.
  split; [intros v A; unfold Decoder.calculate_battery_percent; rewrite A; reflexivity|].
  split; [exact FloatFacts.calc_high|]. split; [vm_compute; reflexivity|].
  split; [exact FloatFacts.calc_le_100|exact FloatFacts.calc_mono].
Qed.

Lemma calculate_battery_percent_interpolation_witness :
  (0x1.6p+4 <=? 0x1.8p+4)%float = true /\
  (Decoder.calculate_battery_percent 0x1.6p+4 <= Decoder.calculate_battery_percent 0x1.8p+4)%N.
Proof.
  split; [reflexivity|].
  apply (proj2 (proj2 (proj2 (proj2 calculate_battery_percent_interpolation)))).
  reflexivity.
Defined.

(* ================================================================== *)
(** * Further properties of the commands, the polling loop and the decoder *)

(** ** Settings normalisation: ranges and idempotence *)

Lemma clamp_u64_range v lo hi fb :
  (lo <= hi)%N -> (lo <= fb <= hi)%N -> (lo <= clamp_u64 v lo hi fb <= hi)%N.
Proof. intros H1 H2. unfold clamp_u64. destruct (v =? 0)%N; lia. Qed.

Lemma clamp_u64_id v lo hi fb :
  (1 <= lo)%N -> (lo <= v <= hi)%N -> clamp_u64 v lo hi fb = v.
Proof.
  intros H1 H2. unfold clamp_u64. destruct (N.eqb_spec v 0); [lia|]. lia.
Qed.

Lemma normalize_action_ok a :
  let act := if negb (String.eqb a "shutdown") && negb (String.eqb a "sleep")
             then "shutdown"%string else a in
  (act = "shutdown" \/ act = "sleep")%string.
Proof.
  cbv zeta. destruct (String.eqb_spec a "shutdown") as [E|E]; cbn [negb andb];
    [left; exact E|].
  destruct (String.eqb_spec a "sleep") as [E'|E']; cbn [negb andb];
    [right; exact E'|left; reflexivity].
Qed.

Lemma normalize_action_id a :
  (a = "shutdown" \/ a = "sleep")%string ->
  (if negb (String.eqb a "shutdown") && negb (String.eqb a "sleep")
   then "shutdown"%string else a) = a.
Proof. intros [-> | ->]; reflexivity. Qed.


Lemma normalize_ranges_aux s :
  let n := normalize s in
  (500 <= polling_interval n <= 10000)%N /\ (60 <= history_interval n <= 3600)%N /\
  (5 <= low_battery_threshold n <= 50)%N /\ (5 <= critical_battery_threshold n <= 30)%N /\
  (critical_battery_threshold n <= low_battery_threshold n)%N /\
  all_repeats_in_range n /\
  (1 <= delay_minutes (on_ac_fault (shutdown_pc n)) <= 60)%N /\
  (1 <= ups_shutdown_delay (ups_control n) <= 10)%N /\
  (action (shutdown_pc n) = "shutdown" \/ action (shutdown_pc n) = "sleep")%string.
Proof.
  cbv zeta. unfold normalize. cbv zeta.
  pose proof (normalize_action_ok (action (shutdown_pc s))) as Ha. cbv zeta in Ha.
  pose proof (clamp_u64_range (polling_interval s) 500 10000 1000) as H1.
  pose proof (clamp_u64_range (history_interval s) 60 3600 300) as H2.
  pose proof (clamp_u64_range (low_battery_threshold s) 5 50 20) as H3.
  pose proof (clamp_u64_range (critical_battery_threshold s) 5 30 10) as H4.
  pose proof (clamp_u64_range (delay_minutes (on_ac_fault (shutdown_pc s))) 1 60 18) as H5.
  pose proof (clamp_u64_range (ups_shutdown_delay (ups_control s)) 1 10 2) as H6.
  pose proof (clamp_u64_range (sound_repeats (ac_fault (alerts s))) 1 30 3) as H7.
  pose proof (clamp_u64_range (sound_repeats (Settings.battery_low (alerts s))) 1 30 5) as H8.
  pose proof (clamp_u64_range (sound_repeats (battery_critical (alerts s))) 1 30 10) as H9.
  destruct (monitor_only_mode s); cbn;
  (split; [lia|]); (split; [lia|]); (split; [lia|]); (split; [lia|]); (split; [lia|]);
  (split; [intros []; cbn; lia|]); (split; [lia|]); (split; [lia|]); exact Ha.
Qed.

Lemma normalize_fixed t :
  (500 <= polling_interval t <= 10000)%N -> (60 <= history_interval t <= 3600)%N ->
  (5 <= low_battery_threshold t <= 50)%N -> (5 <= critical_battery_threshold t <= 30)%N ->
  (critical_battery_threshold t <= low_battery_threshold t)%N ->
  all_repeats_in_range t ->
  (1 <= delay_minutes (on_ac_fault (shutdown_pc t)) <= 60)%N ->
  (1 <= ups_shutdown_delay (ups_control t) <= 10)%N ->
  (action (shutdown_pc t) = "shutdown" \/ action (shutdown_pc t) = "sleep")%string ->
  (monitor_only_mode t = true -> apply_monitor_only_defaults t = t) ->
  normalize t = t.
Proof.
  intros H1 H2 H3 H4 H5 Hr H6 H7 Ha Hm.
  pose proof (Hr AcFault) as R1. pose proof (Hr BatteryLow) as R2.
  pose proof (Hr BatteryCritical) as R3. clear Hr.
  destruct t as [sw sm mo pi en [[ps1 sp1 r1] [ps2 sp2 r2] [ps3 sp3 r3]]
                 [[ace dm] obl obc asf sc act] [sua usd] sh hi lo cr csp].
  cbn in H1, H2, H3, H4, H5, H6, H7, Ha, R1, R2, R3.
  unfold normalize. cbn [alerts shutdown_pc ups_control on_ac_fault ac_fault
    Settings.battery_low battery_critical Settings.play_sound show_popup sound_repeats
    ac_enabled delay_minutes on_battery_low on_battery_critical auto_save_files
    shutdown_command action shutdown_ups_after_pc ups_shutdown_delay
    start_with_windows start_minimized monitor_only_mode polling_interval
    enable_notifications save_history history_interval low_battery_threshold
    critical_battery_threshold custom_sounds_path].
  repeat (rewrite clamp_u64_id by lia).
  rewrite N.min_l by lia. rewrite normalize_action_id by exact Ha.
  cbv zeta. cbn [monitor_only_mode]. destruct mo; [|reflexivity].
  apply Hm. reflexivity.
Qed.

Lemma apply_monitor_only_defaults_twice t :
  apply_monitor_only_defaults (apply_monitor_only_defaults t) = apply_monitor_only_defaults t.
Proof. reflexivity. Qed.

Lemma normalize_monitor_flag s : monitor_only_mode (normalize s) = monitor_only_mode s.
Proof. unfold normalize. cbv zeta. cbn. destruct (monitor_only_mode s); reflexivity. Qed.

(** X2: normalising twice gives the same settings as normalising once, with
    monitor-only mode on or off. *)
Theorem normalize_idempotent s : normalize (normalize s) = normalize s.
Proof.
  pose proof (normalize_ranges_aux s) as (H1 & H2 & H3 & H4 & H5 & Hr & H6 & H7 & Ha).
  apply normalize_fixed; try assumption.
  rewrite normalize_monitor_flag. intros Hm.
  unfold normalize at 1 2. cbv zeta. cbn [monitor_only_mode]. rewrite Hm.
  apply apply_monitor_only_defaults_twice.
Qed.

(** ** PowerShell quoting of the popup script *)




(** ** [str::parse::<u64>] on decimal numerals *)

Lemma digit_value_char d : (d < 10)%N -> F64.digit_value (digit_char d) = Some d.
Proof.
  intros H.
  assert (d = 0 \/ d = 1 \/ d = 2 \/ d = 3 \/ d = 4 \/ d = 5 \/ d = 6 \/ d = 7 \/ d = 8 \/ d = 9)%N
    as Hd by lia.
  repeat destruct Hd as [-> | Hd]; [reflexivity..|]. subst. reflexivity.
Qed.

Lemma digits_decimal ds : forall acc len,
  forallb (fun d => d <? 10)%N ds = true ->
  F64.digits acc len (decimal_string ds) =
  (fold_left (fun a d => a * 10 + d)%N ds acc, (len + N.of_nat (List.length ds))%N, EmptyString).
Proof.
  induction ds as [|d ds IH]; intros acc len H.
  - cbn. rewrite N.add_0_r. reflexivity.
  - cbn in H. apply andb_prop in H as [Hd H]. apply N.ltb_lt in Hd.
    change (decimal_string (d :: ds)) with (String (digit_char d) (decimal_string ds)).
    cbn [F64.digits]. rewrite digit_value_char by exact Hd. rewrite IH by exact H.
    cbn [fold_left List.length]. f_equal. f_equal. lia.
Qed.

Lemma parse_u64_opt_digit_head d rest :
  (d < 10)%N ->
  Decoder.parse_u64_opt (String (digit_char d) rest) =
  match F64.digits 0 0 (String (digit_char d) rest) with
  | (v, len, EmptyString) => if (len =? 0)%N || (u64_max <? v)%N then None else Some v
  | _ => None
  end.
Proof.
  intros H.
  assert (d = 0 \/ d = 1 \/ d = 2 \/ d = 3 \/ d = 4 \/ d = 5 \/ d = 6 \/ d = 7 \/ d = 8 \/ d = 9)%N
    as Hd by lia.
  repeat destruct Hd as [-> | Hd]; [reflexivity..|]. subst. reflexivity.
Qed.

Lemma parse_u64_opt_decimal ds :
  ds <> [] -> forallb (fun d => d <? 10)%N ds = true ->
  Decoder.parse_u64_opt (decimal_string ds) =
    (if u64_max <? decimal_value ds then None else Some (decimal_value ds)) /\
  Decoder.parse_u64_opt ("+" ++ decimal_string ds) =
    (if u64_max <? decimal_value ds then None else Some (decimal_value ds)).
Proof.
  intros Hne H. destruct ds as [|d ds']; [contradiction|].
  assert (Hd : (d < 10)%N) by (cbn in H; apply andb_prop in H as [Hd _]; apply N.ltb_lt; exact Hd).
  split.
  - change (decimal_string (d :: ds')) with (String (digit_char d) (decimal_string ds')).
    rewrite parse_u64_opt_digit_head by exact Hd.
    change (String (digit_char d) (decimal_string ds')) with (decimal_string (d :: ds')).
    rewrite digits_decimal by exact H. cbn [List.length].
    replace ((0 + N.of_nat (S (List.length ds'))) =? 0)%N with false
      by (symmetry; apply N.eqb_neq; lia).
    reflexivity.
  - unfold Decoder.parse_u64_opt. cbv zeta. cbn [append].
    rewrite digits_decimal by exact H. cbn [List.length].
    replace ((0 + N.of_nat (S (List.length ds'))) =? 0)%N with false
      by (symmetry; apply N.eqb_neq; lia).
    reflexivity.
Qed.

(** X19: [parse_u64] reads a numeral of one or more decimal digits, with or
    without a leading '+', as its value when that is at most u64::MAX, and
    as 0 when it is larger. *)
Theorem parse_u64_reads_decimal ds :
  ds <> [] -> forallb (fun d => d <? 10)%N ds = true ->
  let v := decimal_value ds in
  Decoder.parse_u64 (decimal_string ds) = (if v <=? u64_max then v else 0)%N /\
  Decoder.parse_u64 ("+" ++ decimal_string ds) = (if v <=? u64_max then v else 0)%N.
Proof.
  intros Hne H v. destruct (parse_u64_opt_decimal ds Hne H) as [E1 E2].
  unfold Decoder.parse_u64. rewrite E1, E2. subst v.
  destruct (N.ltb_spec u64_max (decimal_value ds)); destruct (N.leb_spec (decimal_value ds) u64_max);
    first [reflexivity | lia].
Qed.

(** ** The packet decoder *)

Lemma parse_status_battery t x u :
  Decoder.parse_ups_string t x = Some (Status u) -> (battery_percent u <= 100)%N.
Proof.
  unfold Decoder.parse_ups_string. destruct x as [|c x']; [discriminate|].
  destruct c as [[] [] [] [] [] [] [] []];
  lazymatch goal with
  | |- context [if ?c then _ else _] => destruct c
  end; intros H; try discriminate.
  injection H as <-. apply FloatFacts.calc_le_100.
Qed.

Lemma find_cr_app l : forall k junk,
  no_cr l = true ->
  find (fun '(_, b) => (Byte.to_N b =? 13)%N)
       (combine (seq k (List.length (l ++ Byte.x0d :: junk))) (l ++ Byte.x0d :: junk)) =
  Some ((k + List.length l)%nat, Byte.x0d).
Proof.
  induction l as [|b l IH]; intros k junk H.
  - cbn. rewrite Nat.add_0_r. reflexivity.
  - cbn in H. apply andb_prop in H as [Hb H].
    cbn [app List.length seq combine find]. apply negb_true_iff in Hb. rewrite Hb.
    rewrite IH by exact H. f_equal. f_equal. cbn. lia.
Qed.

Lemma find_cr_none l : forall k,
  no_cr l = true ->
  find (fun '(_, b) => (Byte.to_N b =? 13)%N) (combine (seq k (List.length l)) l) = None.
Proof.
  induction l as [|b l IH]; intros k H; [reflexivity|].
  cbn in H. apply andb_prop in H as [Hb H].
  cbn [List.length seq combine find]. apply negb_true_iff in Hb. rewrite Hb. apply IH, H.
Qed.

(** X21: the decoder ignores everything from the first carriage return (byte
    13) on: a packet made of a report-ID byte, at least one report byte
    without CR, a CR and any further bytes decodes as the packet cut before
    the CR. *)
Theorem decode_packet_ignores_bytes_after_cr t r bs junk :
  bs <> [] -> no_cr bs = true ->
  Decoder.decode_packet t (r :: bs ++ Byte.x0d :: junk) = Decoder.decode_packet t (r :: bs).
Proof.
  intros Hne H. destruct bs as [|b bs']; [contradiction|].
  unfold Decoder.decode_packet.
  change ((b :: bs') ++ Byte.x0d :: junk) with (b :: (bs' ++ Byte.x0d :: junk)).
  cbv beta iota.
  change (b :: (bs' ++ Byte.x0d :: junk)) with ((b :: bs') ++ Byte.x0d :: junk).
  rewrite find_cr_app by exact H. rewrite find_cr_none by exact H.
  cbn [Nat.add]. rewrite firstn_app, Nat.sub_diag. cbn [firstn]. rewrite app_nil_r.
  reflexivity.
Qed.

(** ** Settings commands *)




(** ** Sound configuration *)



Lemma clamp_repeats_range v fb : (1 <= clamp_u64 v 1 30 fb)%N \/ fb = 0%N.
Proof. unfold clamp_u64. destruct (v =? 0)%N; lia. Qed.




(** ** Deleting and filtering the history *)

Lemma mem_id_In ids i : Commands.mem_id ids i = true <-> In i ids.
Proof.
  unfold Commands.mem_id. rewrite existsb_exists. split.
  - intros (x & Hx & E). apply N.eqb_eq in E. subst. exact Hx.
  - intros Hi. exists i. split; [exact Hi|]. apply N.eqb_refl.
Qed.

Lemma filter_twice {A} (f : A -> bool) l : filter f (filter f l) = filter f l.
Proof.
  induction l as [|x l IH]; [reflexivity|]. cbn.
  destruct (f x) eqn:E; cbn; [rewrite E, IH|rewrite IH]; reflexivity.
Qed.

Lemma deleted_In {A} (key : A -> N) ids l x :
  In x (match ids with [] => [] | _ => filter (fun item => negb (Commands.mem_id ids (key item))) l end) <->
  In x l /\ ids <> [] /\ ~ In (key x) ids.
Proof.
  destruct ids as [|i ids'].
  - cbn. split; [contradiction|]. intros (_ & H & _). apply H. reflexivity.
  - rewrite filter_In, negb_true_iff. split.
    + intros [Hx Hm]. split; [exact Hx|]. split; [discriminate|].
      intros Hi. apply mem_id_In in Hi. congruence.
    + intros (Hx & _ & Hn). split; [exact Hx|].
      destruct (Commands.mem_id _ _) eqn:E; [|reflexivity]. apply mem_id_In in E. contradiction.
Qed.

Lemma deleted_twice {A} (key : A -> N) ids l :
  let del l := match ids with [] => [] | _ => filter (fun item => negb (Commands.mem_id ids (key item))) l end in
  del (del l) = del l.
Proof. cbv zeta. destruct ids; [reflexivity|]. apply filter_twice. Qed.

(** X6: [delete_events ids] keeps exactly the events whose id is not in
    [ids] (none at all when [ids] is empty), returns the kept list, writes
    it to the events file, and deleting the same ids again returns the same
    list; [delete_data_history] does the same on the data points. *)
Theorem delete_history_removes_ids ids e e' s :
  let r := run (Commands.delete_events ids) e s in
  let q := run (Commands.delete_data_history ids) e s in
  fst r = events (snd r) /\ trace (snd r) = trace s ++ [SaveEvents (fst r)] /\
  (forall x, In x (fst r) <-> In x (events s) /\ ids <> [] /\ ~ In (id x) ids) /\
  fst (run (Commands.delete_events ids) e' (snd r)) = fst r /\
  fst q = data_history (snd q) /\ trace (snd q) = trace s ++ [SaveDataHistory] /\
  (forall x, In x (fst q) <-> In x (data_history s) /\ ids <> [] /\ ~ In (d_id x) ids) /\
  fst (run (Commands.delete_data_history ids) e' (snd q)) = fst q.
Proof.
  cbv zeta. unfold Commands.delete_events, Commands.delete_data_history. run_simpl. cbn.
  split; [reflexivity|]. split; [reflexivity|].
  split; [intros x; apply (deleted_In id)|].
  split; [apply (deleted_twice id)|].
  split; [reflexivity|]. split; [reflexivity|].
  split; [intros x; apply (deleted_In d_id)|].
  apply (deleted_twice d_id).
Qed.

Section FilterFacts.
Variable pdb : string -> bool -> option Z.
Variable prf : string -> option Z.

Lemma filter_dates_sub {A} (time_of : A -> string) f l x :
  In x (Commands.filter_dates pdb prf time_of f l) -> In x l.
Proof.
  unfold Commands.filter_dates. intros H.
  assert (K : forall (g : A -> bool) l', In x (filter g l') -> In x l')
    by (intros g l' Hg; apply filter_In in Hg; apply Hg).
  destruct (Commands.date_to f) as [dt|]; [destruct (pdb dt true)|]; try apply K in H;
  destruct (Commands.date_from f) as [df|]; try destruct (pdb df false); try apply K in H; exact H.
Qed.

Lemma filter_dates_from {A} (time_of : A -> string) f l x d from_dt t :
  In x (Commands.filter_dates pdb prf time_of f l) ->
  Commands.date_from f = Some d -> pdb d false = Some from_dt ->
  prf (time_of x) = Some t -> (from_dt <= t)%Z.
Proof.
  unfold Commands.filter_dates. intros H Hd Hp Ht. rewrite Hd, Hp in H.
  assert (H' : In x (filter (fun item => Commands.from_ok prf from_dt (time_of item)) l)).
  { destruct (Commands.date_to f) as [dt|]; [destruct (pdb dt true)|];
    first [exact H | apply filter_In in H; apply H]. }
  apply filter_In in H' as [_ H']. unfold Commands.from_ok in H'. rewrite Ht in H'.
  apply Z.leb_le, H'.
Qed.

Lemma filter_dates_to {A} (time_of : A -> string) f l x d to_dt t :
  In x (Commands.filter_dates pdb prf time_of f l) ->
  Commands.date_to f = Some d -> pdb d true = Some to_dt ->
  prf (time_of x) = Some t -> (t <= to_dt)%Z.
Proof.
  unfold Commands.filter_dates. intros H Hd Hp Ht. rewrite Hd, Hp in H.
  apply filter_In in H as [_ H]. unfold Commands.to_ok in H. rewrite Ht in H.
  apply Z.leb_le, H.
Qed.

Lemma filter_dates_unparsed {A} (time_of : A -> string) f l x :
  In x l -> prf (time_of x) = None -> In x (Commands.filter_dates pdb prf time_of f l).
Proof.
  intros Hx Hn. unfold Commands.filter_dates.
  assert (K : forall g l', In x l' -> (forall z, prf z = None -> g z = true) ->
                In x (filter (fun item => g (time_of item)) l')).
  { intros g l' H1 H2. apply filter_In. split; [exact H1|]. apply H2, Hn. }
  assert (K1 : forall from_dt z, prf z = None -> Commands.from_ok prf from_dt z = true)
    by (intros ? z Hz; unfold Commands.from_ok; rewrite Hz; reflexivity).
  assert (K2 : forall to_dt z, prf z = None -> Commands.to_ok prf to_dt z = true)
    by (intros ? z Hz; unfold Commands.to_ok; rewrite Hz; reflexivity).
  destruct (Commands.date_from f) as [df|]; [destruct (pdb df false)|];
  destruct (Commands.date_to f) as [dt|]; try destruct (pdb dt true);
  repeat first [apply K; [|solve [auto]] | exact Hx].
Qed.

End FilterFacts.

(** X7: [get_events] changes no state and returns only stored events: all of
    them without a filter; with a classification other than "All Events",
    only events of that classification; with a date bound that parses, only
    events whose time, when it parses, lies on the inclusive side of that
    bound. An event whose time does not parse passes the date bounds. *)
Theorem get_events_filters pdb prf flt e s :
  let r := run (Commands.get_events pdb prf flt) e s in
  snd r = s /\
  (forall x, In x (fst r) -> In x (events s)) /\
  (flt = None -> fst r = events s) /\
  (forall f c x, flt = Some f -> Commands.hf_classification f = Some c ->
     c <> "All Events"%string -> In x (fst r) -> classification x = c) /\
  (forall f d from_dt x t, flt = Some f -> Commands.date_from f = Some d ->
     pdb d false = Some from_dt -> In x (fst r) -> prf (time x) = Some t -> (from_dt <= t)%Z) /\
  (forall f d to_dt x t, flt = Some f -> Commands.date_to f = Some d ->
     pdb d true = Some to_dt -> In x (fst r) -> prf (time x) = Some t -> (t <= to_dt)%Z) /\
  (forall f x, flt = Some f -> In x (events s) -> prf (time x) = None ->
     match Commands.hf_classification f with
     | Some c => c = "All Events"%string \/ classification x = c
     | None => True
     end -> In x (fst r)).
Proof.
  cbv zeta. unfold Commands.get_events. run_simpl.
  assert (Hcls : forall f x, In x (match Commands.hf_classification f with
      | Some c => if negb (String.eqb c "All Events") then
                    filter (fun item => String.eqb (classification item) c) (events s)
                  else events s
      | None => events s end) -> In x (events s)).
  { intros f x. destruct (Commands.hf_classification f) as [c|]; [|auto].
    destruct (negb _); [|auto]. intros H. apply filter_In in H. apply H. }
  split; [reflexivity|]. split.
  { intros x H. destruct flt as [f|]; [|exact H].
    apply (Hcls f), (filter_dates_sub pdb prf time f), H. }
  split; [intros ->; reflexivity|]. split.
  { intros f c x -> Hc Hne H. apply filter_dates_sub in H. rewrite Hc in H.
    destruct (String.eqb_spec c "All Events"); [contradiction|]. cbn in H.
    apply filter_In in H as [_ H]. apply String.eqb_eq, H. }
  split.
  { intros f d from_dt x t -> Hd Hp H Ht. exact (filter_dates_from pdb prf time f _ x d from_dt t H Hd Hp Ht). }
  split.
  { intros f d to_dt x t -> Hd Hp H Ht. exact (filter_dates_to pdb prf time f _ x d to_dt t H Hd Hp Ht). }
  intros f x -> Hx Hn Hc. apply filter_dates_unparsed; [|exact Hn].
  destruct (Commands.hf_classification f) as [c|]; [|exact Hx].
  destruct (String.eqb_spec c "All Events") as [E|E]; cbn; [exact Hx|].
  apply filter_In. split; [exact Hx|]. destruct Hc as [Hc|Hc]; [contradiction|].
  apply String.eqb_eq, Hc.
Qed.

(** X8: [get_data_history] changes no state and returns only stored data
    points: all of them without a filter; with a date bound that parses,
    only points whose time, when it parses, lies on the inclusive side of
    that bound. A point whose time does not parse is always returned. *)
Theorem get_data_history_filters pdb prf flt e s :
  let r := run (Commands.get_data_history pdb prf flt) e s in
  snd r = s /\
  (forall x, In x (fst r) -> In x (data_history s)) /\
  (flt = None -> fst r = data_history s) /\
  (forall f d from_dt x t, flt = Some f -> Commands.date_from f = Some d ->
     pdb d false = Some from_dt -> In x (fst r) -> prf (d_time x) = Some t -> (from_dt <= t)%Z) /\
  (forall f d to_dt x t, flt = Some f -> Commands.date_to f = Some d ->
     pdb d true = Some to_dt -> In x (fst r) -> prf (d_time x) = Some t -> (t <= to_dt)%Z) /\
  (forall x, In x (data_history s) -> prf (d_time x) = None -> In x (fst r)).
Proof.
  cbv zeta. unfold Commands.get_data_history. run_simpl.
  split; [reflexivity|]. split.
  { intros x H. destruct flt as [f|]; [|exact H]. apply (filter_dates_sub pdb prf d_time f), H. }
  split; [intros ->; reflexivity|]. split.
  { intros f d from_dt x t -> Hd Hp H Ht. exact (filter_dates_from pdb prf d_time f _ x d from_dt t H Hd Hp Ht). }
  split.
  { intros f d to_dt x t -> Hd Hp H Ht. exact (filter_dates_to pdb prf d_time f _ x d to_dt t H Hd Hp Ht). }
  intros x Hx Hn. destruct flt as [f|]; [|exact Hx]. apply filter_dates_unparsed; assumption.
Qed.

(** ** Connection bookkeeping *)

(** X9: after [mark_disconnected] the connection is marked disconnected and
    reported, and a second [mark_disconnected] before any reconnection
    returns the same connection and changes nothing, no effect included. *)
Theorem mark_disconnected_reports_once c e1 e2 s :
  let r1 := run (Commands.mark_disconnected c) e1 s in
  fst r1 = Commands.mkConnection false true /\
  run (Commands.mark_disconnected (fst r1)) e2 (snd r1) = r1.
Proof.
  cbv zeta. unfold Commands.mark_disconnected.
  destruct (negb (Commands.is_connected c) && Commands.has_emitted_disconnected c) eqn:E.
  - apply andb_prop in E as [_ E]. rewrite E. split; reflexivity.
  - run_simpl. split; reflexivity.
Qed.

Lemma mark_disconnected_reset_aux c e s :
  (Commands.is_connected c || negb (Commands.has_emitted_disconnected c)) = true ->
  let r := run (Commands.mark_disconnected c) e s in
  let s' := snd r in
  fst r = Commands.mkConnection false true /\
  is_on_battery s' = false /\ was_battery_low s' = false /\ was_battery_critical s' = false /\
  battery_start_ms s' = None /\ last_status s' = None /\
  scheduled_shutdown_at_ms s' = None /\ scheduled_shutdown_reason s' = None /\
  sound_generation s' = wrap_add (sound_generation s) 1 /\ settings s' = settings s /\
  events s' = (if Commands.is_connected c && negb (monitor_only_mode (settings s))
               then truncate MAX_EVENTS
                      (new_event e "Critical Event" "UPS disconnected" "UPS disconnected" :: events s)
               else events s) /\
  exists tr, trace s' = tr ++ [Emit "ups-disconnected"].
Proof.
  intros H. cbv zeta. unfold Commands.mark_disconnected.
  replace (negb (Commands.is_connected c) && Commands.has_emitted_disconnected c) with false
    by (destruct (Commands.is_connected c), (Commands.has_emitted_disconnected c);
        cbn in *; congruence).
  run_simpl. rewrite cancel_scheduled_shutdown_eq. cbn [fst snd]. run_simpl.
  destruct (Commands.is_connected c) eqn:Hc; [rewrite log_event_eq|]; cbn [fst snd];
  unfold emit_if_possible; run_simpl; cbn;
  destruct (scheduled_shutdown_at_ms s); cbn;
  try destruct (monitor_only_mode (settings s)); cbn;
  (repeat (split; [reflexivity|])); eexists; reflexivity.
Qed.

(** X11: [mark_connected] does nothing on a connected device. Otherwise it
    marks the device connected and the disconnection as not reported, logs
    "UPS connected" unless monitor-only mode is on, emits "ups-connected",
    keeps the shutdown schedule, the on-battery latch and the settings, and
    re-arms the disconnection notice: the next [mark_disconnected] emits
    "ups-disconnected" again. *)
Theorem mark_connected_rearms_disconnect c e e' s :
  (Commands.is_connected c = true -> run (Commands.mark_connected c) e s = (c, s)) /\
  (Commands.is_connected c = false ->
     let r := run (Commands.mark_connected c) e s in
     fst r = Commands.mkConnection true false /\
     trace (snd r) = (if monitor_only_mode (settings s) then trace s
                      else trace s ++ [SaveEvents (events (snd r))]) ++ [Emit "ups-connected"] /\
     events (snd r) = (if monitor_only_mode (settings s) then events s
                       else truncate MAX_EVENTS
                              (new_event e "General Event" "UPS connected" "UPS connected" :: events s)) /\
     scheduled_shutdown_at_ms (snd r) = scheduled_shutdown_at_ms s /\
     is_on_battery (snd r) = is_on_battery s /\ settings (snd r) = settings s /\
     exists tr, trace (snd (run (Commands.mark_disconnected (fst r)) e' (snd r))) =
                tr ++ [Emit "ups-disconnected"]).
Proof.
  split.
  - intros H. unfold Commands.mark_connected. rewrite H. reflexivity.
  - intros H. cbv zeta.
    assert (E : fst (run (Commands.mark_connected c) e s) = Commands.mkConnection true false).
    { unfold Commands.mark_connected. rewrite H. run_simpl. reflexivity. }
    rewrite E.
    pose proof (mark_disconnected_reset_aux (Commands.mkConnection true false) e'
                  (snd (run (Commands.mark_connected c) e s)) eq_refl)
      as (_ & _ & _ & _ & _ & _ & _ & _ & _ & _ & _ & HD).
    split; [reflexivity|]. revert HD.
    unfold Commands.mark_connected. rewrite H. unfold emit_if_possible. run_simpl.
    rewrite log_event_eq. cbn [fst snd].
    destruct (monitor_only_mode (settings s)); cbn; intros HD;
    (split; [reflexivity|]); (split; [reflexivity|]);
    (split; [reflexivity|]); (split; [reflexivity|]); (split; [reflexivity|]); exact HD.
Qed.

(** ** Error reporting *)

(** X12: after [emit_error_once m] the last error is [m]. The call changes
    nothing when [m] was already the last error, and otherwise appends one
    "ups-error" emission. Repeating it changes nothing; after
    [clear_last_error] the same message is emitted again. *)
Theorem emit_error_once_deduplicates m e1 e2 e3 e4 s :
  let s1 := snd (run (emit_error_once m) e1 s) in
  last_error s1 = Some m /\
  (last_error s = Some m -> s1 = s) /\
  (last_error s <> Some m -> trace s1 = trace s ++ [Emit "ups-error"]) /\
  snd (run (emit_error_once m) e2 s1) = s1 /\
  trace (snd (run (emit_error_once m) e4 (snd (run Commands.clear_last_error e3 s1)))) =
    trace s1 ++ [Emit "ups-error"].
Proof.
  cbv zeta.
  assert (Again : forall e t, last_error t = Some m -> snd (run (emit_error_once m) e t) = t).
  { intros e t Ht. unfold emit_error_once. run_simpl. rewrite Ht, String.eqb_refl. reflexivity. }
  assert (Fresh : forall e t, last_error t <> Some m ->
            snd (run (emit_error_once m) e t) =
            set_trace (trace t ++ [Emit "ups-error"]) (set_last_error (Some m) t)).
  { intros e t Ht. unfold emit_error_once, emit_if_possible. run_simpl.
    destruct (last_error t) as [m'|]; [|reflexivity].
    destruct (String.eqb_spec m' m); [subst; contradiction|]. run_simpl. reflexivity. }
  assert (S1 : last_error (snd (run (emit_error_once m) e1 s)) = Some m).
  { destruct (last_error s) as [m'|] eqn:Hs.
    - destruct (String.eqb_spec m' m) as [->|N1].
      + rewrite Again by exact Hs. exact Hs.
      + rewrite Fresh by congruence. reflexivity.
    - rewrite Fresh by congruence. reflexivity. }
  split; [exact S1|]. split; [apply Again|]. split.
  { intros Hs. rewrite Fresh by exact Hs. reflexivity. }
  split; [apply Again, S1|].
  rewrite Fresh by (cbn; discriminate). reflexivity.
Qed.

(** ** Forced popups *)

(** X13: [should_force_popup] answers [true] only when at least 6000 ms
    passed since the last forced popup and the main window is not visible
    and focused, and then records the current time. When it answers [false]
    it changes nothing. After a [true], a call less than 6000 ms later
    answers [false] and changes nothing. *)
Theorem should_force_popup_rate_limited e1 e2 s :
  let r1 := run should_force_popup e1 s in
  (fst r1 = true ->
     (6000 <= sat_sub (now_ms e1) (last_forced_popup_ms s))%N /\
     window_visible_focused e1 = false /\ last_forced_popup_ms (snd r1) = now_ms e1) /\
  (fst r1 = false -> snd r1 = s) /\
  (fst r1 = true -> (sat_sub (now_ms e2) (now_ms e1) < 6000)%N ->
     run should_force_popup e2 (snd r1) = (false, snd r1)).
Proof.
  cbv zeta. unfold should_force_popup. run_simpl.
  destruct (N.ltb_spec (sat_sub (now_ms e1) (last_forced_popup_ms s)) 6000) as [L|L];
    [run_simpl; split; [discriminate|]; split; [reflexivity|discriminate]|].
  destruct (window_visible_focused e1) eqn:W;
    [run_simpl; split; [discriminate|]; split; [reflexivity|discriminate]|].
  run_simpl. cbn. split; [intros _; split; [lia|]; split; reflexivity|].
  split; [discriminate|]. intros _ H. run_simpl. cbn.
  apply N.ltb_lt in H. rewrite H. reflexivity.
Qed.

(** ** The battery timer *)








(** ** Data points *)

Lemma log_data_point_eq p e s :
  run (log_data_point_if_needed p) e s =
  (tt, if negb (save_history (settings s)) then s
       else if sat_sub (now_ms e) (last_data_save_ms s) <? sat_mul (history_interval (settings s)) 1000
       then s
       else set_trace (trace s ++ [SaveDataHistory])
              (set_data_history
                 (truncate MAX_DATA_POINTS
                    (mkDataHistoryEntry (now_ms e) (now_text e) (input_voltage p)
                       (output_voltage p) (frequency p) (load_percent p)
                       (battery_voltage p) (battery_percent p) (temperature p) :: data_history s))
                 (set_last_data_save_ms (now_ms e) s))).
Proof.
  unfold log_data_point_if_needed. run_simpl.
  destruct (save_history (settings s)); [|reflexivity]. cbn [negb]. run_simpl.
  destruct (_ <? _); reflexivity.
Qed.

(** X15: [log_data_point_if_needed] either changes nothing or records one
    point: stamped with the current time and the snapshot's battery percent,
    put first, the history cut to 5000 points and the history file written.
    So a history of at most 5000 points stays within 5000. Of two calls less
    than [history_interval] seconds apart (under the settings of the first),
    at most one records a point. *)
Theorem log_data_point_rate_limited_bounded p1 p2 e1 e2 s :
  let s1 := snd (run (log_data_point_if_needed p1) e1 s) in
  let s2 := snd (run (log_data_point_if_needed p2) e2 s1) in
  ((List.length (data_history s) <= 5000)%nat -> (List.length (data_history s1) <= 5000)%nat) /\
  (s1 = s \/
   (last_data_save_ms s1 = now_ms e1 /\ trace s1 = trace s ++ [SaveDataHistory] /\
    exists x, data_history s1 = truncate MAX_DATA_POINTS (x :: data_history s) /\
              d_id x = now_ms e1 /\ d_time x = now_text e1 /\
              d_battery_percent x = battery_percent p1)) /\
  ((sat_sub (now_ms e2) (now_ms e1) < sat_mul (history_interval (settings s)) 1000)%N ->
     s2 = s1 \/ s1 = s).
Proof.
  cbv zeta. rewrite !log_data_point_eq. cbn [snd].
  destruct (save_history (settings s)) eqn:Hs; cbn [negb].
  2: { split; [auto|]. split; [left; reflexivity|]. intros _. right. reflexivity. }
  destruct (_ <? _) eqn:L.
  { split; [auto|]. split; [left; reflexivity|]. intros _. right. reflexivity. }
  split.
  { intros _. cbn. unfold truncate, MAX_DATA_POINTS. rewrite length_firstn. cbn. lia. }
  split.
  { right. split; [reflexivity|]. split; [reflexivity|]. eexists. repeat split. }
  intros H. left. cbn. rewrite Hs. cbn [negb]. apply N.ltb_lt in H. rewrite H. reflexivity.
Qed.

(** ** Sounds *)

(** X16: [play_sound] answers [true], bumps the sound generation and starts
    one sound whose repeat count lies in [1, 30]: 1 when none is given, the
    given count when it is in range. An unknown sound name plays the
    battery-critical sound. A later [stop_sound] answers [true], changes the
    generation (which the playing thread checks to stop) and performs no
    effect. *)
Theorem play_sound_then_stop_sound name r e e' s :
  let s1 := snd (run (Commands.play_sound name r) e s) in
  let s2 := snd (run Commands.stop_sound e' s1) in
  fst (run (Commands.play_sound name r) e s) = true /\
  (exists k n, trace s1 = trace s ++ [PlaySound k n] /\ (1 <= n <= 30)%N /\
     (r = None -> n = 1%N) /\
     (forall m, r = Some m -> (1 <= m <= 30)%N -> n = m) /\
     (Commands.alert_kind_from_str name = None -> k = BatteryCritical)) /\
  sound_generation s1 = wrap_add (sound_generation s) 1 /\
  sound_generation s2 <> sound_generation s1 /\ trace s2 = trace s1 /\
  fst (run Commands.stop_sound e' s1) = true.
Proof.
  cbv zeta. unfold Commands.play_sound, Commands.stop_sound, play_sound_with_generation.
  run_simpl. cbn. split; [reflexivity|]. split.
  { eexists _, _. split; [reflexivity|]. split; [lia|]. split; [intros ->; reflexivity|].
    split; [intros m -> Hm; lia|].
    intros ->. reflexivity. }
  split; [reflexivity|]. split; [|split; reflexivity].
  unfold wrap_add. set (g := ((sound_generation s + 1) mod 2 ^ 64)%N).
  assert (Hg : (g < 2 ^ 64)%N) by (apply N.mod_lt; discriminate).
  intros E. destruct (N.eq_dec (g + 1) (2 ^ 64)) as [F|F].
  - rewrite F, N.Div0.mod_same in E. rewrite <- E in F. discriminate F.
  - rewrite N.mod_small in E by lia. lia.
Qed.

(** ** The simulated shutdown *)

(** X17: [simulate_shutdown_flow] never changes the shutdown schedule, its
    reason, the settings, the event log or the sound generation. In monitor-
    only mode it answers the error "Modo solo monitor activo" and changes
    nothing. When it succeeds it reports a scheduled and cancelled flow of
    at least one minute (5 by default, the given minutes when at least 1)
    and emits "shutdown-scheduled" then "shutdown-cancelled". When the date
    computation panics, nothing changes. *)
Theorem simulate_shutdown_flow_schedules_nothing f mins ac e s :
  let r := run (Commands.simulate_shutdown_flow f mins ac) e s in
  scheduled_shutdown_at_ms (snd r) = scheduled_shutdown_at_ms s /\
  scheduled_shutdown_reason (snd r) = scheduled_shutdown_reason s /\
  settings (snd r) = settings s /\ events (snd r) = events s /\
  sound_generation (snd r) = sound_generation s /\
  (monitor_only_mode (settings s) = true -> r = (Some (Commands.Err "Modo solo monitor activo"%string), s)) /\
  (forall res, fst r = Some (Commands.Ok res) ->
     Commands.scheduled res = true /\ Commands.cancelled res = true /\
     (1 <= Commands.sim_minutes res)%N /\
     (mins = None -> Commands.sim_minutes res = 5%N) /\
     (forall m, mins = Some m -> (1 <= m)%N -> Commands.sim_minutes res = m) /\
     trace (snd r) = trace s ++ [Emit "shutdown-scheduled"; Emit "shutdown-cancelled"]) /\
  (fst r = None -> snd r = s).
Proof.
  cbv zeta. unfold Commands.simulate_shutdown_flow. run_simpl.
  destruct (monitor_only_mode (settings s)) eqn:Hm.
  { run_simpl. repeat (split; [reflexivity|]).
    split; [intros res H; discriminate H|]. intros _. reflexivity. }
  run_simpl. destruct (f e _) as [t|] eqn:Hf.
  - unfold emit_if_possible. run_simpl. cbn.
    repeat (split; [reflexivity|]). split; [discriminate|]. split; [|discriminate].
    intros res H. injection H as <-. cbn.
    split; [reflexivity|]. split; [reflexivity|]. split; [lia|].
    split; [intros ->; reflexivity|]. split; [intros m -> Hm1; lia|].
    rewrite <- app_assoc. reflexivity.
  - run_simpl. repeat (split; [reflexivity|]). split; [discriminate|].
    split; [intros res H; discriminate H|]. intros _. reflexivity.
Qed.

(** X1: normalised settings are within the ranges [normalize] enforces:
    polling interval in [500, 10000] ms, history interval in [60, 3600] s,
    low-battery threshold in [5, 50] and critical threshold in [5, 30] and
    not above the low one, every alert's sound repeats in [1, 30], AC-fault
    shutdown delay in [1, 60] minutes, UPS shutdown delay in [1, 10], and a
    shutdown action that is "shutdown" or "sleep"; monitor-only mode
    included. *)
Theorem normalize_clamps_settings s :
  let n := normalize s in
  (500 <= polling_interval n <= 10000)%N /\ (60 <= history_interval n <= 3600)%N /\
  (5 <= low_battery_threshold n <= 50)%N /\ (5 <= critical_battery_threshold n <= 30)%N /\
  (critical_battery_threshold n <= low_battery_threshold n)%N /\
  all_repeats_in_range n /\
  (1 <= delay_minutes (on_ac_fault (shutdown_pc n)) <= 60)%N /\
  (1 <= ups_shutdown_delay (ups_control n) <= 10)%N /\
  (action (shutdown_pc n) = "shutdown" \/ action (shutdown_pc n) = "sleep")%string.
Proof. exact (normalize_ranges_aux s). Qed.

(** X10: a [mark_disconnected] that is not a repeat (the device was
    connected, or the disconnection not yet reported) marks the
    disconnection reported, clears the on-battery latch, both battery
    latches, the battery timer and the last snapshot, clears a pending
    shutdown and its reason, bumps the sound generation by one (wrapping),
    keeps the settings, logs "UPS disconnected" only when the device was
    connected and monitor-only mode is off, and ends with the
    "ups-disconnected" event. *)
Theorem mark_disconnected_resets_state c e s :
  (Commands.is_connected c || negb (Commands.has_emitted_disconnected c)) = true ->
  let r := run (Commands.mark_disconnected c) e s in
  let s' := snd r in
  fst r = Commands.mkConnection false true /\
  is_on_battery s' = false /\ was_battery_low s' = false /\ was_battery_critical s' = false /\
  battery_start_ms s' = None /\ last_status s' = None /\
  scheduled_shutdown_at_ms s' = None /\ scheduled_shutdown_reason s' = None /\
  sound_generation s' = wrap_add (sound_generation s) 1 /\ settings s' = settings s /\
  events s' = (if Commands.is_connected c && negb (monitor_only_mode (settings s))
               then truncate MAX_EVENTS
                      (new_event e "Critical Event" "UPS disconnected" "UPS disconnected" :: events s)
               else events s) /\
  exists tr, trace s' = tr ++ [Emit "ups-disconnected"].
Proof. intros H. exact (mark_disconnected_reset_aux c e s H). Qed.


(** X20: every status snapshot the decoder produces has a battery percent of
    at most 100. *)
Theorem decode_packet_battery_percent_bounded t raw u :
  Decoder.decode_packet t raw = Some (Status u) -> (battery_percent u <= 100)%N.
Proof.
  unfold Decoder.decode_packet. destruct raw as [|b raw']; [discriminate|].
  apply parse_status_battery.
Qed.

(** ** Witnesses *)


Lemma mark_disconnected_resets_state_witness :
  (Commands.is_connected (Commands.mkConnection true false)
   || negb (Commands.has_emitted_disconnected (Commands.mkConnection true false))) = true /\
  scheduled_shutdown_at_ms
    (snd (run (Commands.mark_disconnected (Commands.mkConnection true false)) (quiet_env 5000)
            due_state)) = None.
Proof.
  split; [reflexivity|].
  apply (mark_disconnected_resets_state (Commands.mkConnection true false) (quiet_env 5000)
           due_state eq_refl).
Defined.


Lemma parse_u64_reads_decimal_witness :
  [4; 2]%N <> [] /\ forallb (fun d => d <? 10)%N [4; 2]%N = true /\
  Decoder.parse_u64 (decimal_string [4; 2]%N) = 42%N /\
  Decoder.parse_u64 (decimal_string [1; 8; 4; 4; 6; 7; 4; 4; 0; 7; 3; 7; 0; 9; 5; 5; 1; 6; 1; 6]%N) = 0%N.
Proof.
  split; [discriminate|]. split; [reflexivity|]. split.
  - exact (proj1 (parse_u64_reads_decimal [4; 2]%N ltac:(discriminate) eq_refl)).
  - exact (proj1 (parse_u64_reads_decimal
                    [1; 8; 4; 4; 6; 7; 4; 4; 0; 7; 3; 7; 0; 9; 5; 5; 1; 6; 1; 6]%N
                    ltac:(discriminate) eq_refl)).
Defined.

Lemma decode_packet_battery_percent_bounded_witness :
  exists u, Decoder.decode_packet "2026-01-01T00:00:00+00:00" status_frame = Some (Status u) /\
            (battery_percent u <= 100)%N.
Proof.
  eexists. split; [reflexivity|].
  apply (decode_packet_battery_percent_bounded "2026-01-01T00:00:00+00:00" status_frame).
  reflexivity.
Defined.

Lemma decode_packet_ignores_bytes_after_cr_witness :
  let bs := map byte_of_ascii
              (list_ascii_of_string "(220.0 220.0 219.0 020 50.0 27.4 30.0 00001000") in
  bs <> [] /\ no_cr bs = true /\
  Decoder.decode_packet "2026-01-01T00:00:00+00:00" (Byte.x23 :: bs ++ Byte.x0d :: [Byte.x41]) =
  Decoder.decode_packet "2026-01-01T00:00:00+00:00" (Byte.x23 :: bs).
Proof.
  cbv zeta. split; [discriminate|]. split; [reflexivity|].
  apply decode_packet_ignores_bytes_after_cr; [discriminate|reflexivity].
Defined.
